(** * neonwire: a two-party UDP chat with a terminal interface

    A shallow embedding of [main.go].  The program is one Bubble Tea model:
    [initialModel] binds the socket, [Update] is the controller,
    [listenForMessages] is the one-datagram receive command and [main] starts
    the runtime.  The Go packages it calls are modelled first
    ([unicode/utf8], [strings], [time], [encoding/json]); the widget and
    styling libraries, whose internals do not matter to the controller, are an
    interface ([Bubbles]) with a plain reference instance. *)

From Stdlib Require Import ZArith List String Ascii Bool Lia.
Import ListNotations.

Open Scope string_scope.
Open Scope Z_scope.

(** ** Bytes

    A Go [string] and a Go [[]byte] are both sequences of bytes: [string]
    here.  [b2z] is the numeric value of a byte and [z2b] is Go's [byte(x)]
    conversion, which keeps the low eight bits. *)

Definition b2z (c : ascii) : Z := Z.of_N (N_of_ascii c).
Definition z2b (x : Z) : ascii := ascii_of_N (Z.to_N (x mod 256)).

(** The double quote, which a string literal of this file cannot hold. *)
Definition dquote : ascii := "034"%char.
Definition backslash : ascii := "092"%char.

(** [s[n:]] and [s[:n]] (both clipped to the length of [s]). *)
Fixpoint drop (n : nat) (s : string) : string :=
  match n, s with
  | O, _ => s
  | S _, EmptyString => EmptyString
  | S n', String _ s' => drop n' s'
  end.

Fixpoint take (n : nat) (s : string) : string :=
  match n, s with
  | O, _ => EmptyString
  | S _, EmptyString => EmptyString
  | S n', String c s' => String c (take n' s')
  end.

(** Test literals are written with an apostrophe where the text has a double
    quote; [qq] puts the double quotes back. *)
Fixpoint qq (s : string) : string :=
  match s with
  | EmptyString => EmptyString
  | String c s' => String (if Ascii.eqb c "'"%char then dquote else c) (qq s')
  end.

(** ** unicode/utf8 *)
Module utf8.

Definition RuneError : Z := 0xFFFD.
Definition RuneSelf : Z := 0x80.
Definition MaxRune : Z := 0x10FFFF.
Definition surrogateMin : Z := 0xD800.
Definition surrogateMax : Z := 0xDFFF.

(** The tables [first] and [acceptRanges]: for a leading byte of a
    multi-byte sequence, the length of the sequence and the range its second
    byte must lie in.  [None] is the table's [xx] (an invalid leading byte). *)
Definition first (s0 : Z) : option (nat * Z * Z) :=
  if s0 <? 0xC2 then None
  else if s0 <=? 0xDF then Some (2%nat, 0x80, 0xBF)
  else if s0 =? 0xE0 then Some (3%nat, 0xA0, 0xBF)
  else if s0 <=? 0xEC then Some (3%nat, 0x80, 0xBF)
  else if s0 =? 0xED then Some (3%nat, 0x80, 0x9F)
  else if s0 <=? 0xEF then Some (3%nat, 0x80, 0xBF)
  else if s0 =? 0xF0 then Some (4%nat, 0x90, 0xBF)
  else if s0 <=? 0xF3 then Some (4%nat, 0x80, 0xBF)
  else if s0 =? 0xF4 then Some (4%nat, 0x80, 0x8F)
  else None.

(** A continuation byte: [locb <= b <= hicb]. *)
Definition is_cont (b : Z) : bool := (0x80 <=? b) && (b <=? 0xBF).

(** [utf8.DecodeRuneInString]: the first rune of [s] and its width in bytes;
    [(RuneError, 1)] on an invalid or short encoding, [(RuneError, 0)] on the
    empty string.  The masks and shifts of the Go code are written as
    remainders and products: [s0 & mask2 << 6 | s1 & maskx] is
    [(s0 mod 32) * 64 + s1 mod 64]. *)
Definition DecodeRuneInString (s : string) : Z * nat :=
  match s with
  | EmptyString => (RuneError, 0%nat)
  | String c0 t1 =>
    let s0 := b2z c0 in
    if s0 <? RuneSelf then (s0, 1%nat)
    else
      match first s0 with
      | None => (RuneError, 1%nat)
      | Some (sz, lo, hi) =>
        match t1 with
        | EmptyString => (RuneError, 1%nat)
        | String c1 t2 =>
          let s1 := b2z c1 in
          if (s1 <? lo) || (hi <? s1) then (RuneError, 1%nat)
          else if (sz <=? 2)%nat then ((s0 mod 32) * 64 + s1 mod 64, 2%nat)
          else
            match t2 with
            | EmptyString => (RuneError, 1%nat)
            | String c2 t3 =>
              let s2 := b2z c2 in
              if negb (is_cont s2) then (RuneError, 1%nat)
              else if (sz <=? 3)%nat then
                ((s0 mod 16) * 4096 + (s1 mod 64) * 64 + s2 mod 64, 3%nat)
              else
                match t3 with
                | EmptyString => (RuneError, 1%nat)
                | String c3 _ =>
                  let s3 := b2z c3 in
                  if negb (is_cont s3) then (RuneError, 1%nat)
                  else ((s0 mod 8) * 262144 + (s1 mod 64) * 4096
                        + (s2 mod 64) * 64 + s3 mod 64, 4%nat)
                end
            end
        end
      end
  end.

(** [utf8.EncodeRune] (as [AppendRune] onto the empty slice): a rune outside
    the Unicode range or a surrogate is written as [RuneError]. *)
Definition EncodeRune (r : Z) : string :=
  if (0 <=? r) && (r <=? 0x7F) then String (z2b r) EmptyString
  else if (0 <=? r) && (r <=? 0x7FF) then
    String (z2b (0xC0 + r / 64)) (String (z2b (0x80 + r mod 64)) EmptyString)
  else
    let r := if (r <? 0) || (MaxRune <? r)
                || ((surrogateMin <=? r) && (r <=? surrogateMax))
             then RuneError else r in
    if r <=? 0xFFFF then
      String (z2b (0xE0 + r / 4096))
        (String (z2b (0x80 + (r / 64) mod 64))
          (String (z2b (0x80 + r mod 64)) EmptyString))
    else
      String (z2b (0xF0 + r / 262144))
        (String (z2b (0x80 + (r / 4096) mod 64))
          (String (z2b (0x80 + (r / 64) mod 64))
            (String (z2b (0x80 + r mod 64)) EmptyString))).

(** A byte position holds an encoding error when decoding there gives
    [RuneError] with width 1. *)
Definition bad (d : Z * nat) : bool := (fst d =? RuneError) && (snd d =? 1)%nat.

(** [utf8.ValidString]. *)
Fixpoint valid_loop (fuel : nat) (s : string) : bool :=
  match s, fuel with
  | EmptyString, _ => true
  | _, O => false
  | _, S fuel' =>
    let d := DecodeRuneInString s in
    if bad d then false else valid_loop fuel' (drop (snd d) s)
  end.

Definition ValidString (s : string) : bool := valid_loop (String.length s) s.

End utf8.

(** ** unicode and strings *)
Module strings.

(** [unicode.IsSpace]: the Latin-1 spaces and the [White_Space] property. *)
Definition IsSpace (r : Z) : bool :=
  ((0x09 <=? r) && (r <=? 0x0D)) || (r =? 0x20) || (r =? 0x85) || (r =? 0xA0)
  || (r =? 0x1680) || ((0x2000 <=? r) && (r <=? 0x200A))
  || (r =? 0x2028) || (r =? 0x2029) || (r =? 0x202F) || (r =? 0x205F)
  || (r =? 0x3000).

(** [strings.TrimLeftFunc(s, unicode.IsSpace)]: runes are decoded from the
    front and dropped while they are spaces. *)
Fixpoint trim_left (fuel : nat) (s : string) : string :=
  match s, fuel with
  | EmptyString, _ => EmptyString
  | _, O => s
  | _, S fuel' =>
    let d := utf8.DecodeRuneInString s in
    if IsSpace (fst d) then trim_left fuel' (drop (snd d) s) else s
  end.

(** [strings.TrimRightFunc(s, unicode.IsSpace)].  Go decodes runes from the
    back; a space rune is a valid encoding whose first byte is no
    continuation byte, so the trailing run of spaces it removes is the
    trailing run of space runes of the front-to-back decoding, which is what
    this function drops. *)
Fixpoint trim_right (fuel : nat) (s : string) : string :=
  match s, fuel with
  | EmptyString, _ => EmptyString
  | _, O => s
  | _, S fuel' =>
    let d := utf8.DecodeRuneInString s in
    match trim_right fuel' (drop (snd d) s) with
    | EmptyString => if IsSpace (fst d) then EmptyString else take (snd d) s
    | rest => take (snd d) s ++ rest
    end
  end.

(** [strings.TrimSpace]. *)
Definition TrimSpace (s : string) : string :=
  let l := trim_left (String.length s) s in
  trim_right (String.length l) l.

(** [strings.Join]. *)
Definition Join (elems : list string) (sep : string) : string :=
  String.concat sep elems.

End strings.

(** ** time

    A [time.Time] is modelled by what the program reads of it: the civil
    date and clock reading in the value's own location, the nanosecond, and
    the offset of that location from UTC in seconds.  Together they fix the
    instant.  The monotonic clock reading that [time.Now] attaches, and the
    name of the location, are not part of the model: neither [Format] nor
    [MarshalJSON] reads them. *)
Module time.

Record Time := {
  Year : Z; Month : Z; Day : Z;
  Hour : Z; Minute : Z; Second : Z;
  Nanosecond : Z;
  ZoneOffset : Z
}.

(** [time.Time{}]: January 1, year 1, 00:00:00 UTC. *)
Definition zero : Time :=
  {| Year := 1; Month := 1; Day := 1; Hour := 0; Minute := 0; Second := 0;
     Nanosecond := 0; ZoneOffset := 0 |}.

Definition isLeap (year : Z) : bool :=
  (year mod 4 =? 0) && (negb (year mod 100 =? 0) || (year mod 400 =? 0)).

Definition daysIn (m year : Z) : Z :=
  if m =? 2 then (if isLeap year then 29 else 28)
  else if (m =? 4) || (m =? 6) || (m =? 9) || (m =? 11) then 30 else 31.

(** The readings a [time.Time] can have. *)
Definition wf (t : Time) : Prop :=
  1 <= Month t <= 12 /\ 1 <= Day t <= daysIn (Month t) (Year t) /\
  0 <= Hour t < 24 /\ 0 <= Minute t < 60 /\ 0 <= Second t < 60 /\
  0 <= Nanosecond t < 1000000000.

(** The readings that [MarshalJSON] writes and [UnmarshalJSON] reads back
    as they are: a year of four digits and a zone of whole minutes less than
    a day from UTC. *)
Definition representable (t : Time) : Prop :=
  wf t /\ 0 <= Year t <= 9999 /\
  Z.abs (ZoneOffset t) < 86400 /\ ZoneOffset t mod 60 = 0.

Definition digit (d : Z) : ascii := z2b (48 + d).

(** [appendInt(b, x, width)] for [0 <= x < 10^width]: [width] decimal digits. *)
Fixpoint digits (width : nat) (x : Z) : string :=
  match width with
  | O => EmptyString
  | S w => digits w (x / 10) ++ String (digit (x mod 10)) EmptyString
  end.

(** [t.Format("15:04:05")]. *)
Definition Format_clock (t : Time) : string :=
  digits 2 (Hour t) ++ ":" ++ digits 2 (Minute t) ++ ":" ++ digits 2 (Second t).

(** [appendNano] with the layout [.999999999]: nothing for a zero
    nanosecond, else a period and nine digits with the trailing zeros
    removed. *)
Fixpoint trim_zeros (width : nat) (x : Z) : string :=
  match width with
  | O => EmptyString
  | S w => if x mod 10 =? 0 then trim_zeros w (x / 10) else digits width x
  end.

Definition appendNano (nanosec : Z) : string :=
  if nanosec =? 0 then EmptyString else "." ++ trim_zeros 9 nanosec.

(** The zone of [appendFormatRFC3339]: [Z] for UTC, else sign, hours, colon,
    minutes.  [zone := offset / 60] is Go's division, which rounds towards
    zero ([Z.quot]); the seconds of the offset are not written. *)
Definition appendZone (offset : Z) : string :=
  if offset =? 0 then "Z"
  else
    let zone := Z.quot offset 60 in
    (if zone <? 0 then "-" else "+")
      ++ digits 2 (Z.abs zone / 60) ++ ":" ++ digits 2 (Z.abs zone mod 60).

(** [t.appendFormatRFC3339(b, true)], the layout [RFC3339Nano]. *)
Definition formatRFC3339Nano (t : Time) : string :=
  digits 4 (Year t) ++ "-" ++ digits 2 (Month t) ++ "-" ++ digits 2 (Day t)
  ++ "T" ++ digits 2 (Hour t) ++ ":" ++ digits 2 (Minute t) ++ ":"
  ++ digits 2 (Second t) ++ appendNano (Nanosecond t)
  ++ appendZone (ZoneOffset t).

(** [Time.MarshalJSON]: the quoted RFC 3339 text, or an error when the year
    is outside [0, 9999] or the zone's hour is outside [0, 23]. *)
Definition MarshalJSON (t : Time) : option string :=
  if (Year t <? 0) || (9999 <? Year t) then None
  else if 24 <=? Z.abs (Z.quot (ZoneOffset t) 60) / 60 then None
  else Some (String dquote (formatRFC3339Nano t) ++ String dquote EmptyString).

Definition isDigit (c : ascii) : bool := (48 <=? b2z c) && (b2z c <=? 57).
Definition digit_val (c : ascii) : Z := b2z c - 48.

(** [getnum(s, fixed)]: one or two digits, exactly two when [fixed]. *)
Definition getnum (s : string) (fixed : bool) : option (Z * string) :=
  match s with
  | String c0 r0 =>
    if isDigit c0 then
      match r0 with
      | String c1 r1 =>
        if isDigit c1 then Some (digit_val c0 * 10 + digit_val c1, r1)
        else if fixed then None else Some (digit_val c0, r0)
      | EmptyString => if fixed then None else Some (digit_val c0, r0)
      end
    else None
  | EmptyString => None
  end.

(** The year of the layout: exactly four digits. *)
Definition getyear (s : string) : option (Z * string) :=
  match s with
  | String c0 (String c1 (String c2 (String c3 r))) =>
    if isDigit c0 && isDigit c1 && isDigit c2 && isDigit c3
    then Some (((digit_val c0 * 10 + digit_val c1) * 10 + digit_val c2) * 10
               + digit_val c3, r)
    else None
  | _ => None
  end.

(** A literal byte of the layout. *)
Definition expect (c : ascii) (s : string) : option string :=
  match s with
  | String c' r => if Ascii.eqb c c' then Some r else None
  | EmptyString => None
  end.

(** The digits of a fractional second: the value of the first nine, scaled
    to nanoseconds, and the text after all of them ([parseNanoseconds]). *)
Fixpoint fraction (s : string) (room : nat) (acc : Z) : Z * string :=
  match s with
  | String c r =>
    if isDigit c then
      match room with
      | O => fraction r O acc
      | S room' => fraction r room' (acc * 10 + digit_val c)
      end
    else (acc * 10 ^ Z.of_nat room, s)
  | EmptyString => (acc * 10 ^ Z.of_nat room, s)
  end.

Definition getfraction (s : string) : Z * string :=
  match s with
  | String sep (String c r) =>
    if (Ascii.eqb sep "." || Ascii.eqb sep ",") && isDigit c
    then fraction (String c r) 9 0 else (0, s)
  | _ => (0, s)
  end.

(** The zone of the layout [Z07:00]: [Z], or a sign, two digits, a colon and
    two digits; hours up to 24 and minutes up to 60 are let through. *)
Definition getzone (s : string) : option (Z * string) :=
  match s with
  | String "Z" r => Some (0, r)
  | String sign (String h0 (String h1 (String ":" (String m0 (String m1 r))))) =>
    if isDigit h0 && isDigit h1 && isDigit m0 && isDigit m1 then
      let hr := digit_val h0 * 10 + digit_val h1 in
      let mm := digit_val m0 * 10 + digit_val m1 in
      if (24 <? hr) || (60 <? mm) then None
      else if Ascii.eqb sign "+" then Some ((hr * 60 + mm) * 60, r)
      else if Ascii.eqb sign "-" then Some (- ((hr * 60 + mm) * 60), r)
      else None
    else None
  | _ => None
  end.

Definition bind {A B} (o : option A) (f : A -> option B) : option B :=
  match o with Some a => f a | None => None end.

(** [time.Parse(time.RFC3339, s)], which is what [Time.UnmarshalJSON]
    accepts: [parseStrictRFC3339] tries the strict reading first and falls
    back on [Parse], whose result it returns unchanged. *)
Definition Parse_RFC3339 (s : string) : option Time :=
  bind (getyear s) (fun '(year, s) =>
  bind (expect "-" s) (fun s =>
  bind (getnum s true) (fun '(month, s) =>
  bind (expect "-" s) (fun s =>
  bind (getnum s true) (fun '(day, s) =>
  bind (expect "T" s) (fun s =>
  bind (getnum s false) (fun '(hour, s) =>
  bind (expect ":" s) (fun s =>
  bind (getnum s true) (fun '(min, s) =>
  bind (expect ":" s) (fun s =>
  bind (getnum s true) (fun '(sec, s) =>
  let '(nsec, s) := getfraction s in
  bind (getzone s) (fun '(offset, s) =>
  match s with
  | EmptyString =>
    if (1 <=? month) && (month <=? 12) && (hour <? 24) && (min <? 60)
       && (sec <? 60) && (1 <=? day) && (day <=? daysIn month year)
    then Some {| Year := year; Month := month; Day := day; Hour := hour;
                 Minute := min; Second := sec; Nanosecond := nsec;
                 ZoneOffset := offset |}
    else None
  | _ => None
  end)))))))))))).

(** [Time.UnmarshalJSON] on a JSON string whose text between the quotes is
    [raw] (the bytes as they stand in the input: escapes are not undone). *)
Definition UnmarshalJSON_string (raw : string) : option Time := Parse_RFC3339 raw.

End time.

(** ** The wire message (main.go, [msgPacket]) *)

Record msgPacket := {
  Sender : string;
  Text : string;
  Timestamp : time.Time
}.

(** The zero value of [var packet msgPacket]. *)
Definition msgPacket_zero : msgPacket :=
  {| Sender := EmptyString; Text := EmptyString; Timestamp := time.zero |}.

(** ** encoding/json, for the type [msgPacket] *)
Module json.

Definition hexdigit (x : Z) : ascii :=
  if x <? 10 then z2b (48 + x) else z2b (87 + x).

(** [htmlSafeSet]: the printable ASCII bytes that [Marshal] copies as they
    are (all but the double quote, the backslash and the HTML characters). *)
Definition htmlSafe (b : Z) : bool :=
  (0x20 <=? b) && (b <? 0x80)
  && negb ((b =? 34) || (b =? 38) || (b =? 60) || (b =? 62) || (b =? 92)).

(** How [appendString] writes an ASCII byte that is not safe. *)
Definition escape_byte (c : ascii) : string :=
  let b := b2z c in
  if (b =? 92) || (b =? 34) then String backslash (String c EmptyString)
  else if b =? 8 then String backslash "b"
  else if b =? 12 then String backslash "f"
  else if b =? 10 then String backslash "n"
  else if b =? 13 then String backslash "r"
  else if b =? 9 then String backslash "t"
  else String backslash
         (String "u" (String "0" (String "0"
           (String (hexdigit (b / 16)) (String (hexdigit (b mod 16)) EmptyString))))).

(** The loop of [appendString(dst, src, escapeHTML = true)]: bytes that are
    not valid UTF-8 become the escape of U+FFFD, and U+2028 and U+2029 are
    always escaped. *)
Fixpoint appendString_loop (fuel : nat) (src : string) : string :=
  match src, fuel with
  | EmptyString, _ => EmptyString
  | _, O => EmptyString
  | String c rest, S fuel' =>
    if b2z c <? utf8.RuneSelf then
      (if htmlSafe (b2z c) then String c EmptyString else escape_byte c)
        ++ appendString_loop fuel' rest
    else
      let d := utf8.DecodeRuneInString src in
      if utf8.bad d then
        String backslash "ufffd" ++ appendString_loop fuel' rest
      else if (fst d =? 0x2028) || (fst d =? 0x2029) then
        String backslash "u202" ++ String (hexdigit (fst d mod 16)) EmptyString
          ++ appendString_loop fuel' (drop (snd d) src)
      else take (snd d) src ++ appendString_loop fuel' (drop (snd d) src)
  end.

Definition appendString (src : string) : string :=
  String dquote (appendString_loop (String.length src) src)
    ++ String dquote EmptyString.

(** [json.Marshal(packet)]: the fields in declaration order under their
    tags; the error of [Time.MarshalJSON] is the only one it can return. *)
Definition Marshal (p : msgPacket) : option string :=
  match time.MarshalJSON (Timestamp p) with
  | None => None
  | Some ts =>
    Some (qq "{'sender':" ++ appendString (Sender p)
          ++ qq ",'text':" ++ appendString (Text p)
          ++ qq ",'timestamp':" ++ ts ++ "}")
  end.

(** *** Reading *)

(** A JSON value as the decoder walks it.  A string keeps both its meaning
    and the bytes between its quotes, which is what an [Unmarshaler] is
    handed. *)
#[warnings="-register-all"]
Inductive value :=
| VNull
| VBool (b : bool)
| VNumber
| VString (s raw : string)
| VArray (elems : list value)
| VObject (members : list (string * value)).

Definition isSpace (c : ascii) : bool :=
  let b := b2z c in (b =? 32) || (b =? 9) || (b =? 13) || (b =? 10).

Fixpoint skip_ws (s : string) : string :=
  match s with
  | String c r => if isSpace c then skip_ws r else s
  | EmptyString => s
  end.

Definition hexval (c : ascii) : option Z :=
  let b := b2z c in
  if (48 <=? b) && (b <=? 57) then Some (b - 48)
  else if (97 <=? b) && (b <=? 102) then Some (b - 97 + 10)
  else if (65 <=? b) && (b <=? 70) then Some (b - 65 + 10)
  else None.

(** Four hexadecimal digits. *)
Definition hex4 (s : string) : option Z :=
  match s with
  | String a (String b (String c (String d _))) =>
    match hexval a, hexval b, hexval c, hexval d with
    | Some a, Some b, Some c, Some d => Some (((a * 16 + b) * 16 + c) * 16 + d)
    | _, _, _, _ => None
    end
  | _ => None
  end.

(** [getu4]: the rune of a [\uXXXX] escape at the head of [s], or [-1]. *)
Definition getu4 (s : string) : Z :=
  match s with
  | String c0 (String "u" r) =>
    if Ascii.eqb c0 backslash
    then match hex4 r with Some x => x | None => -1 end
    else -1
  | _ => -1
  end.

(** [utf16.IsSurrogate] and [utf16.DecodeRune]. *)
Definition IsSurrogate (r : Z) : bool := (0xD800 <=? r) && (r <? 0xE000).

Definition utf16_DecodeRune (r1 r2 : Z) : Z :=
  if (0xD800 <=? r1) && (r1 <? 0xDC00) && (0xDC00 <=? r2) && (r2 <? 0xE000)
  then (r1 - 0xD800) * 1024 + (r2 - 0xDC00) + 0x10000
  else utf8.RuneError.

(** The single-character escapes the scanner lets through. *)
Definition unescape (e : ascii) : option ascii :=
  let b := b2z e in
  if (b =? 34) || (b =? 92) || (b =? 47) then Some e
  else if b =? 98 then Some (z2b 8)
  else if b =? 102 then Some (z2b 12)
  else if b =? 110 then Some (z2b 10)
  else if b =? 114 then Some (z2b 13)
  else if b =? 116 then Some (z2b 9)
  else None.

Definition emit (dec raw : string) (r : option (string * string * string))
  : option (string * string * string) :=
  match r with
  | Some (d, w, rest) => Some (dec ++ d, raw ++ w, rest)
  | None => None
  end.

(** A string literal after its opening quote: the scanner's check and
    [unquote] in one pass.  The result is the unquoted text, the bytes up to
    the closing quote, and the input after it.  Control bytes and unknown
    escapes are errors; bytes that are not valid UTF-8 and unpaired
    surrogates become U+FFFD. *)
Fixpoint scan_string (fuel : nat) (s : string)
  : option (string * string * string) :=
  match fuel with
  | O => None
  | S f =>
    match s with
    | EmptyString => None
    | String c r =>
      if Ascii.eqb c dquote then Some (EmptyString, EmptyString, r)
      else if Ascii.eqb c backslash then
        match r with
        | EmptyString => None
        | String e r2 =>
          match unescape e with
          | Some ch =>
            emit (String ch EmptyString) (take 2 s) (scan_string f r2)
          | None =>
            if Ascii.eqb e "u" then
              match hex4 r2 with
              | None => None
              | Some rr =>
                let r3 := drop 4 r2 in
                let dec := utf16_DecodeRune rr (getu4 r3) in
                if IsSurrogate rr then
                  if negb (dec =? utf8.RuneError) then
                    emit (utf8.EncodeRune dec) (take 12 s)
                      (scan_string f (drop 6 r3))
                  else
                    emit (utf8.EncodeRune utf8.RuneError) (take 6 s)
                      (scan_string f r3)
                else emit (utf8.EncodeRune rr) (take 6 s) (scan_string f r3)
              end
            else None
          end
        end
      else if b2z c <? 0x20 then None
      else if b2z c <? utf8.RuneSelf then
        emit (String c EmptyString) (String c EmptyString) (scan_string f r)
      else
        let d := utf8.DecodeRuneInString s in
        emit (utf8.EncodeRune (fst d)) (take (snd d) s)
          (scan_string f (drop (snd d) s))
    end
  end.

(** Numbers: an optional minus sign; a zero, or a non-zero digit and any
    digits; optionally a period and digits; optionally an exponent mark, a
    sign and digits. *)
Fixpoint skip_digits (s : string) : string :=
  match s with
  | String c r => if time.isDigit c then skip_digits r else s
  | EmptyString => s
  end.

Definition digits1 (s : string) : option string :=
  match s with
  | String c r => if time.isDigit c then Some (skip_digits r) else None
  | EmptyString => None
  end.

Definition scan_exp (s : string) : option string :=
  match s with
  | String c r =>
    if Ascii.eqb c "e" || Ascii.eqb c "E" then
      match r with
      | String sg r' =>
        if Ascii.eqb sg "+" || Ascii.eqb sg "-" then digits1 r' else digits1 r
      | EmptyString => None
      end
    else Some s
  | EmptyString => Some s
  end.

Definition scan_frac (s : string) : option string :=
  match s with
  | String "." r => time.bind (digits1 r) scan_exp
  | _ => scan_exp s
  end.

Definition scan_int (s : string) : option string :=
  match s with
  | String "0" r => scan_frac r
  | String c r => if time.isDigit c then scan_frac (skip_digits r) else None
  | EmptyString => None
  end.

Definition scan_number (s : string) : option string :=
  match s with
  | String "-" r => scan_int r
  | _ => scan_int s
  end.

Definition maxNestingDepth : Z := 10000.

(** One value, with the white space before it already skipped.  [depth]
    counts the open objects and arrays. *)
Fixpoint scan_value (fuel : nat) (depth : Z) (s : string)
  : option (value * string) :=
  match fuel with
  | O => None
  | S f =>
    match s with
    | EmptyString => None
    | String c r =>
      if Ascii.eqb c "{" then
        if maxNestingDepth <=? depth then None
        else
          match skip_ws r with
          | String "}" r' => Some (VObject [], r')
          | r1 =>
            time.bind (scan_members f (depth + 1) r1)
              (fun '(ms, r') => Some (VObject ms, r'))
          end
      else if Ascii.eqb c "[" then
        if maxNestingDepth <=? depth then None
        else
          match skip_ws r with
          | String "]" r' => Some (VArray [], r')
          | r1 =>
            time.bind (scan_elements f (depth + 1) r1)
              (fun '(vs, r') => Some (VArray vs, r'))
          end
      else if Ascii.eqb c dquote then
        time.bind (scan_string (String.length r) r)
          (fun '(dec, raw, r') => Some (VString dec raw, r'))
      else if Ascii.eqb c "-" || time.isDigit c then
        time.bind (scan_number s) (fun r' => Some (VNumber, r'))
      else if String.prefix "true" s then Some (VBool true, drop 4 s)
      else if String.prefix "false" s then Some (VBool false, drop 5 s)
      else if String.prefix "null" s then Some (VNull, drop 4 s)
      else None
    end
  end

with scan_members (fuel : nat) (depth : Z) (s : string)
  : option (list (string * value) * string) :=
  match fuel with
  | O => None
  | S f =>
    match s with
    | String c r =>
      if Ascii.eqb c dquote then
        time.bind (scan_string (String.length r) r) (fun '(key, _, r1) =>
        match skip_ws r1 with
        | String ":" r2 =>
          time.bind (scan_value f depth (skip_ws r2)) (fun '(v, r3) =>
          match skip_ws r3 with
          | String "," r4 =>
            time.bind (scan_members f depth (skip_ws r4))
              (fun '(ms, r5) => Some ((key, v) :: ms, r5))
          | String "}" r4 => Some ([(key, v)], r4)
          | _ => None
          end)
        | _ => None
        end)
      else None
    | EmptyString => None
    end
  end

with scan_elements (fuel : nat) (depth : Z) (s : string)
  : option (list value * string) :=
  match fuel with
  | O => None
  | S f =>
    time.bind (scan_value f depth s) (fun '(v, r1) =>
    match skip_ws r1 with
    | String "," r2 =>
      time.bind (scan_elements f depth (skip_ws r2))
        (fun '(vs, r3) => Some (v :: vs, r3))
    | String "]" r2 => Some ([v], r2)
    | _ => None
    end)
  end.

(** [checkValid] and the walk over the input: one value, white space around
    it, nothing else. *)
Definition parse (data : string) : option value :=
  match scan_value (S (String.length data)) 0 (skip_ws data) with
  | Some (v, r) =>
    match skip_ws r with EmptyString => Some v | _ => None end
  | None => None
  end.

(** [foldName]: ASCII letters in upper case; of the other runes only the two
    that fold onto an ASCII letter matter for a match with an ASCII field
    name, U+017F onto [S] and U+212A onto [K]. *)
Fixpoint foldName (fuel : nat) (s : string) : string :=
  match s, fuel with
  | EmptyString, _ => EmptyString
  | _, O => EmptyString
  | String c r, S f =>
    let b := b2z c in
    if b <? utf8.RuneSelf then
      String (if (97 <=? b) && (b <=? 122) then z2b (b - 32) else c)
        (foldName f r)
    else
      let d := utf8.DecodeRuneInString s in
      let folded := if fst d =? 0x17F then 0x53
                    else if fst d =? 0x212A then 0x4B else fst d in
      utf8.EncodeRune folded ++ foldName f (drop (snd d) s)
  end.

Inductive field := FSender | FText | FTimestamp.

(** The field a key names: an exact match with a tag first, else a match
    under [foldName]. *)
Definition field_of_key (key : string) : option field :=
  if String.eqb key "sender" then Some FSender
  else if String.eqb key "text" then Some FText
  else if String.eqb key "timestamp" then Some FTimestamp
  else
    let k := foldName (String.length key) key in
    if String.eqb k "SENDER" then Some FSender
    else if String.eqb k "TEXT" then Some FText
    else if String.eqb k "TIMESTAMP" then Some FTimestamp
    else None.

(** Storing into a [string] field: [null] leaves it, a string sets it, any
    other value is an [UnmarshalTypeError]. *)
Definition store_string (v : value) (old : string) : option string :=
  match v with
  | VNull => Some old
  | VString s _ => Some s
  | _ => None
  end.

(** Storing into the [time.Time] field, through [Time.UnmarshalJSON]. *)
Definition store_time (v : value) (old : time.Time) : option time.Time :=
  match v with
  | VNull => Some old
  | VString _ raw => time.UnmarshalJSON_string raw
  | _ => None
  end.

Fixpoint decode_members (ms : list (string * value)) (p : msgPacket)
  : option msgPacket :=
  match ms with
  | [] => Some p
  | (key, v) :: rest =>
    match field_of_key key with
    | Some FSender =>
      time.bind (store_string v (Sender p)) (fun s =>
        decode_members rest
          {| Sender := s; Text := Text p; Timestamp := Timestamp p |})
    | Some FText =>
      time.bind (store_string v (Text p)) (fun s =>
        decode_members rest
          {| Sender := Sender p; Text := s; Timestamp := Timestamp p |})
    | Some FTimestamp =>
      time.bind (store_time v (Timestamp p)) (fun t =>
        decode_members rest
          {| Sender := Sender p; Text := Text p; Timestamp := t |})
    | None => decode_members rest p
    end
  end.

(** [json.Unmarshal(data, &packet)] on a zero [packet]: [Some] of the packet
    when the returned error is [nil], [None] otherwise. *)
Definition Unmarshal (data : string) : option msgPacket :=
  match parse data with
  | Some (VObject ms) => decode_members ms msgPacket_zero
  | Some VNull => Some msgPacket_zero
  | _ => None
  end.

End json.

(** A message the codec carries unchanged: the strings are UTF-8 and the
    timestamp is representable. *)
Definition valid_message (p : msgPacket) : Prop :=
  utf8.ValidString (Sender p) = true /\ utf8.ValidString (Text p) = true /\
  time.representable (Timestamp p).

(** ** net, Bubble Tea, bubbles and lipgloss: what main.go sees of them *)

(** A Go [error].  [errMsg] is declared by main.go as a struct around an
    error that is itself an error; [Update] stores such a value in the
    model. *)
Inductive error :=
| libError (text : string)
| errMsg_error (err : error).

(** The method [Error]; for an [errMsg] it is [e.err.Error()]. *)
Fixpoint Error (e : error) : string :=
  match e with
  | libError text => text
  | errMsg_error err => Error err
  end.

Record UDPAddr := { IP : string; Port : Z; Zone : string }.

(** An open socket, named by the local port it is bound to. *)
Record UDPConn := { LocalPort : Z }.

Inductive KeyType := KeyCtrlC | KeyEsc | KeyEnter | KeyRunes | KeyOther (code : Z).

Record Key := { Type_ : KeyType; Runes : list Z; Alt : bool }.

(** The messages the runtime hands to [Update]: a key, the two message types
    of main.go, and everything else (window size, cursor blink, ...). *)
Inductive Msg :=
| KeyMsg (k : Key)
| udpMsg (data : string) (addr : UDPAddr)
| errMsg (err : error)
| otherMsg (tag : Z).

(** The messages of main.go's own types, which no library can match on. *)
Definition foreign (msg : Msg) : bool :=
  match msg with
  | udpMsg _ _ | errMsg _ => true
  | _ => false
  end.

(** The network as the process finds it. *)
Class Net := {
  (** [net.ResolveUDPAddr("udp", address)] *)
  ResolveUDPAddr : string -> error + UDPAddr;
  (** [net.ListenUDP("udp", &net.UDPAddr{Port: port})] *)
  ListenUDP : Z -> error + UDPConn;
  (** the method [String] of an address *)
  UDPAddr_String : UDPAddr -> string
}.

(** The text area and viewport of [bubbles] and the styles of [lipgloss]. *)
Class Bubbles := {
  textarea_Model : Type;
  viewport_Model : Type;
  (** the commands a widget hands back (cursor blink and the like) *)
  widget_Cmd : Type;
  (** [textarea.Model{}] and [viewport.Model{}] *)
  textarea_zero : textarea_Model;
  viewport_zero : viewport_Model;
  (** [textarea.New()] as [initialModel] configures it: placeholder, focus,
      prompt, limit of 280 characters, 76 by 3, no line numbers, and the
      newline key disabled *)
  textarea_New : textarea_Model;
  textarea_Blink : widget_Cmd;
  textarea_Update : textarea_Model -> Msg -> textarea_Model * widget_Cmd;
  textarea_Value : textarea_Model -> string;
  textarea_Reset : textarea_Model -> textarea_Model;
  textarea_View : textarea_Model -> string;
  viewport_New : Z -> Z -> viewport_Model;
  viewport_Update : viewport_Model -> Msg -> viewport_Model * widget_Cmd;
  viewport_SetContent : viewport_Model -> string -> viewport_Model;
  viewport_GotoBottom : viewport_Model -> viewport_Model;
  viewport_View : viewport_Model -> string;
  (** [Style.Render] of the four styles a transcript line uses *)
  timestampStyle : string -> string;
  usernameStyle : string -> string;
  remoteUsernameStyle : string -> string;
  messageStyle : string -> string;
  (** the screen of [View]: title bar with the peer address, bordered
      viewport, input label, bordered text area, footer *)
  render_screen : string -> string -> string -> string;
  (** [Reset] empties the text area *)
  textarea_Reset_Value : forall t, textarea_Value (textarea_Reset t) = EmptyString;
  (** a message of a type the library does not know leaves the text as it is *)
  textarea_Update_foreign : forall t msg,
    foreign msg = true ->
    textarea_Value (fst (textarea_Update t msg)) = textarea_Value t
}.

(** One call on the socket: [conn.WriteToUDP(b, addr)] on an open
    connection, with the address as the program passes it ([None] is [nil],
    for which the call returns an error and sends nothing). *)
Inductive SocketCall :=
| WriteToUDP (conn : UDPConn) (b : string) (addr : option UDPAddr).

(** What running a piece of Go code comes to: a result, or a panic.  The
    one panic main.go can raise is the nil pointer dereference of a method
    call on a nil [*net.UDPConn], which [model{err: err}] holds. *)
Inductive outcome (A : Type) : Type :=
| Returns (a : A)
| Panics.

Arguments Returns {A} a.
Arguments Panics {A}.

(** What [conn.ReadFromUDP(buf)] can return. *)
Inductive ReadResult :=
| ReadOK (datagram : string) (addr : UDPAddr)
| ReadErr (err : error).

Definition newline : string := String "010"%char EmptyString.

(** [strconv.Itoa], as [%d] prints an [int]. *)
Fixpoint itoa_loop (fuel : nat) (x : Z) (acc : string) : string :=
  match fuel with
  | O => acc
  | S f =>
    let acc' := String (time.digit (x mod 10)) acc in
    if x / 10 =? 0 then acc' else itoa_loop f (x / 10) acc'
  end.

Definition Itoa (x : Z) : string :=
  if x <? 0 then "-" ++ itoa_loop 20 (- x) EmptyString
  else itoa_loop 20 x EmptyString.

(** ** main.go *)

Definition port : Z := 9999.

Section Chat.
Context {N : Net} {B : Bubbles}.

Record model := {
  viewport : viewport_Model;
  textarea : textarea_Model;
  messages : list string;
  username : string;
  remoteAddr : string;
  conn : option UDPConn;
  err : option error
}.

(** [tea.Cmd], by the commands main.go builds. *)
#[warnings="-register-all"]
Inductive Cmd :=
| Cmd_nil
| tea_Quit
| listenForMessages (conn : option UDPConn)
| tea_Batch (cmds : list Cmd)
| widget (c : widget_Cmd).

(** [model{err: err}]: every other field is its zero value. *)
Definition model_err (e : error) : model :=
  {| viewport := viewport_zero; textarea := textarea_zero; messages := [];
     username := EmptyString; remoteAddr := EmptyString; conn := None;
     err := Some e |}.

Definition initialModel (username remoteAddr : string) : model :=
  let ta := textarea_New in
  let vp := viewport_SetContent (viewport_New 76 16)
              "Connected. Waiting for messages..." in
  match ResolveUDPAddr (remoteAddr ++ ":" ++ Itoa port) with
  | inl e => model_err e
  | inr addr =>
    match ListenUDP port with
    | inl e => model_err e
    | inr c =>
      {| textarea := ta; viewport := vp; messages := [];
         username := username; remoteAddr := UDPAddr_String addr;
         conn := Some c; err := None |}
    end
  end.

Definition Init (m : model) : Cmd :=
  tea_Batch [widget textarea_Blink; listenForMessages (conn m)].

(** The body of the command [listenForMessages(conn)]: [conn.ReadFromUDP]
    into a buffer of 1024 bytes; [r] is what the socket yields.  On a nil
    connection the call panics. *)
Definition listenForMessages_run (conn : option UDPConn) (r : ReadResult)
  : outcome Msg :=
  match conn with
  | None => Panics
  | Some _ =>
    match r with
    | ReadErr e => Returns (errMsg e)
    | ReadOK datagram addr => Returns (udpMsg (take 1024 datagram) addr)
    end
  end.

(** [fmt.Sprintf("%s %s: %s", ts, user, msgText)] *)
Definition line (ts user msgText : string) : string :=
  ts ++ " " ++ user ++ ": " ++ msgText.

Definition with_widgets (m : model) (ta : textarea_Model) (vp : viewport_Model)
  : model :=
  {| viewport := vp; textarea := ta; messages := messages m;
     username := username m; remoteAddr := remoteAddr m; conn := conn m;
     err := err m |}.

(** [m.messages = append(m.messages, l)], then the viewport shows the joined
    transcript from its bottom. *)
Definition show_line (m : model) (l : string) : model :=
  let msgs := (messages m ++ [l])%list in
  {| viewport := viewport_GotoBottom
                   (viewport_SetContent (viewport m) (strings.Join msgs newline));
     textarea := textarea m; messages := msgs; username := username m;
     remoteAddr := remoteAddr m; conn := conn m; err := err m |}.

Definition reset_textarea (m : model) : model :=
  with_widgets m (textarea_Reset (textarea m)) (viewport m).

Definition set_err (m : model) (e : error) : model :=
  {| viewport := viewport m; textarea := textarea m; messages := messages m;
     username := username m; remoteAddr := remoteAddr m; conn := conn m;
     err := Some e |}.

(** [model.Update].  [now] is what [time.Now()] returns if it is called; the
    third component lists the calls made on the socket. *)
Definition Update (now : time.Time) (m : model) (msg : Msg)
  : outcome (model * Cmd * list SocketCall) :=
  let '(ta, tiCmd) := textarea_Update (textarea m) msg in
  let '(vp, vpCmd) := viewport_Update (viewport m) msg in
  let m := with_widgets m ta vp in
  let batch := tea_Batch [widget tiCmd; widget vpCmd] in
  match msg with
  | KeyMsg k =>
    match Type_ k with
    | KeyCtrlC | KeyEsc => Returns (m, tea_Quit, [])
    | KeyEnter =>
      let text := strings.TrimSpace (textarea_Value (textarea m)) in
      if negb (String.eqb text EmptyString) then
        let packet := {| Sender := username m; Text := text; Timestamp := now |} in
        let data := match json.Marshal packet with
                    | Some d => d
                    | None => EmptyString
                    end in
        let addr := match ResolveUDPAddr (remoteAddr m) with
                    | inr a => Some a
                    | inl _ => None
                    end in
        match conn m with
        | None => Panics
        | Some c =>
          let ts := timestampStyle (time.Format_clock (Timestamp packet)) in
          let user := usernameStyle (username m) in
          let msgText := messageStyle text in
          Returns (reset_textarea (show_line m (line ts user msgText)), batch,
                   [WriteToUDP c data addr])
        end
      else Returns (m, batch, [])
    | _ => Returns (m, batch, [])
    end
  | udpMsg data _ =>
    match json.Unmarshal data with
    | Some packet =>
      let ts := timestampStyle (time.Format_clock (Timestamp packet)) in
      let user := remoteUsernameStyle (Sender packet) in
      let msgText := messageStyle (Text packet) in
      Returns (show_line m (line ts user msgText), listenForMessages (conn m), [])
    | None => Returns (m, listenForMessages (conn m), [])
    end
  | errMsg e => Returns (set_err m (errMsg_error e), Cmd_nil, [])
  | otherMsg _ => Returns (m, batch, [])
  end.

Definition View (m : model) : string :=
  match err m with
  | Some e => "Error: " ++ Error e ++ newline
  | None =>
    render_screen (remoteAddr m) (viewport_View (viewport m))
      (textarea_View (textarea m))
  end.

(** *** The runtime ([tea.Program]) as the controller sees it

    Messages are handed to [Update] one at a time, in the order in which the
    runtime receives them; that order is an input of the model.  A key or a
    runtime message can always arrive.  What a command produces arrives as
    the completion of that command: a datagram or a read error while a
    [listenForMessages] command is outstanding, and the quit message while a
    [tea.Quit] command is outstanding.  The loop ends when the quit message
    is received; until then messages are handled as they come.  A panic, in
    [Update] or in a command, ends the handling of messages too; what the
    process does then is the runtime's affair ([Recovery]).  The one command
    that can panic is the receive on a nil connection, and the one model with
    a nil connection is that of a failed startup: its program has panicked
    when it starts ([start]), before any input. *)

Inductive Input :=
| InKey (k : Key)
| InSocket (r : ReadResult)
| InQuit
| InOther (tag : Z).

Fixpoint quits (c : Cmd) : bool :=
  match c with
  | tea_Quit => true
  | tea_Batch cs => existsb quits cs
  | _ => false
  end.

(** The connection of the [listenForMessages] command in [c], if it holds one. *)
Fixpoint listens (c : Cmd) : option (option UDPConn) :=
  match c with
  | listenForMessages conn => Some conn
  | tea_Batch cs =>
    (fix first (cs : list Cmd) : option (option UDPConn) :=
       match cs with
       | [] => None
       | c :: cs' =>
         match listens c with Some conn => Some conn | None => first cs' end
       end) cs
  | _ => None
  end.

Record Program := {
  p_model : model;
  (** the connection of the outstanding [listenForMessages] command, if
      one is outstanding *)
  p_listening : option (option UDPConn);
  (** a [tea.Quit] command is outstanding *)
  p_quitting : bool;
  (** the quit message has been received: the loop has returned (the state
      Terminating) *)
  p_done : bool;
  (** [Update] or a command has panicked *)
  p_panic : bool;
  (** the calls made on the socket, oldest first *)
  p_calls : list SocketCall;
  (** the views drawn, oldest first *)
  p_frames : list string
}.

(** A command runs as soon as the runtime has it.  The body of a receive
    command on a connection blocks until the socket yields something; on the
    nil connection it panics at once, with no input. *)
Definition crashes (c : Cmd) : bool :=
  match listens c with
  | Some None => true
  | _ => false
  end.

(** The program once [Init]'s commands run: with the model of a failed
    startup the receive command has panicked by then. *)
Definition start (m : model) : Program :=
  {| p_model := m; p_listening := listens (Init m); p_quitting := quits (Init m);
     p_done := false; p_panic := crashes (Init m); p_calls := [];
     p_frames := [View m] |}.

(** The state Running. *)
Definition running (p : Program) : bool := negb (p_done p || p_panic p).

Definition panicked (p : Program) : Program :=
  {| p_model := p_model p; p_listening := p_listening p;
     p_quitting := p_quitting p; p_done := p_done p; p_panic := true;
     p_calls := p_calls p; p_frames := p_frames p |}.

Definition finished (p : Program) : Program :=
  {| p_model := p_model p; p_listening := p_listening p;
     p_quitting := p_quitting p; p_done := true; p_panic := p_panic p;
     p_calls := p_calls p; p_frames := p_frames p |}.

(** One turn of the loop on the message [msg]; [completes] says that the
    message is the result of the outstanding [listenForMessages] command.
    The receive command that [Update] returns is on the connection of the
    model, which is not nil in a program that is up after [start]
    ([up_after_start]). *)
Definition handle (p : Program) (now : time.Time) (completes : bool) (msg : Msg)
  : Program :=
  match Update now (p_model p) msg with
  | Panics => panicked p
  | Returns (m', cmd, calls) =>
    {| p_model := m';
       p_listening := match listens cmd with
                      | Some conn => Some conn
                      | None => if completes then None else p_listening p
                      end;
       p_quitting := p_quitting p || quits cmd;
       p_done := false;
       p_panic := false;
       p_calls := (p_calls p ++ calls)%list;
       p_frames := (p_frames p ++ [View m'])%list |}
  end.

Definition step (p : Program) (ev : time.Time * Input) : Program :=
  if running p then
    match snd ev with
    | InKey k => handle p (fst ev) false (KeyMsg k)
    | InOther tag => handle p (fst ev) false (otherMsg tag)
    | InQuit => if p_quitting p then finished p else p
    | InSocket r =>
      match p_listening p with
      | None => p
      | Some conn =>
        match listenForMessages_run conn r with
        | Panics => panicked p
        | Returns msg => handle p (fst ev) true msg
        end
      end
    end
  else p.

Definition run (p : Program) (evs : list (time.Time * Input)) : Program :=
  fold_left step evs p.

(** What the runtime does with a panic: the Go runtime ends the process, or
    Bubble Tea recovers and [Run] returns, with an error or without. *)
Inductive Recovery :=
| Killed
| Recovered (e : option error).

(** What happens to the process: the terminal may fail to start, in which
    case [Run] returns that error; else the inputs arrive in order, each with
    the clock reading at its update. *)
Record World := {
  w_terminal_error : option error;
  w_recovery : Recovery;
  w_inputs : list (time.Time * Input)
}.

Inductive RunResult :=
| StillRunning
| Returned (e : option error)
| ProcessKilled.

(** [p.Run()]: the final state, and how the call ends by the end of the
    inputs. *)
Definition Program_Run (m : model) (w : World) : Program * RunResult :=
  match w_terminal_error w with
  | Some e => (start m, Returned (Some e))
  | None =>
    let p := run (start m) (w_inputs w) in
    (p, if p_panic p then
          match w_recovery w with
          | Killed => ProcessKilled
          | Recovered e => Returned e
          end
        else if p_done p then Returned None
        else StillRunning)
  end.

Record Outcome := {
  (** the exit code, or [None] while the process still runs *)
  exit_code : option Z;
  (** what main printed with [fmt.Println] and [fmt.Printf] *)
  printed : list string;
  (** the views the runtime drew *)
  frames : list string
}.

(** [main], on [os.Args].  A process that the Go runtime ends on a panic has
    exit status 2. *)
Definition main (args : list string) (w : World) : Outcome :=
  if (List.length args <? 3)%nat then
    {| exit_code := Some 1;
       printed := ["Usage: chat <username> <remote-address>" ++ newline;
                   "Example: chat alice 100.64.0.2" ++ newline];
       frames := [] |}
  else
    let username := nth 1 args EmptyString in
    let remoteAddr := nth 2 args EmptyString in
    match Program_Run (initialModel username remoteAddr) w with
    | (p, Returned (Some e)) =>
      {| exit_code := Some 1;
         printed := ["Error: " ++ Error e ++ newline];
         frames := p_frames p |}
    | (p, Returned None) =>
      {| exit_code := Some 0; printed := []; frames := p_frames p |}
    | (p, StillRunning) =>
      {| exit_code := None; printed := []; frames := p_frames p |}
    | (p, ProcessKilled) =>
      {| exit_code := Some 2; printed := []; frames := p_frames p |}
    end.

(** *** Names for what [Update] computes

    The model once both widgets have seen the message, which is where
    [Update] starts from, and the batch of their two commands. *)
Definition seen (m : model) (msg : Msg) : model :=
  with_widgets m (fst (textarea_Update (textarea m) msg))
    (fst (viewport_Update (viewport m) msg)).

Definition batch_of (m : model) (msg : Msg) : Cmd :=
  tea_Batch [widget (snd (textarea_Update (textarea m) msg));
             widget (snd (viewport_Update (viewport m) msg))].

(** The text [Update] reads on Enter: the value of the text area after the
    text area has seen the key, trimmed. *)
Definition submitted (m : model) (k : Key) : string :=
  strings.TrimSpace (textarea_Value (textarea (seen m (KeyMsg k)))).

(** The packet built for a submitted text, and the bytes handed to
    [WriteToUDP] (the error of [Marshal] is dropped, the data is then nil). *)
Definition packet_of (now : time.Time) (m : model) (text : string) : msgPacket :=
  {| Sender := username m; Text := text; Timestamp := now |}.

Definition payload (packet : msgPacket) : string :=
  match json.Marshal packet with Some d => d | None => EmptyString end.

(** The address [Update] resolves from [m.remoteAddr] before it sends. *)
Definition resolved (m : model) : option UDPAddr :=
  match ResolveUDPAddr (remoteAddr m) with inr a => Some a | inl _ => None end.

(** The model [Update] returns, when it returns. *)
Definition updated (now : time.Time) (m : model) (msg : Msg) : option model :=
  match Update now m msg with
  | Returns (m', _, _) => Some m'
  | Panics => None
  end.

(** The transcript line of a local and of a remote message. *)
Definition local_line (now : time.Time) (m : model) (text : string) : string :=
  line (timestampStyle (time.Format_clock now)) (usernameStyle (username m))
    (messageStyle text).

Definition remote_line (packet : msgPacket) : string :=
  line (timestampStyle (time.Format_clock (Timestamp packet)))
    (remoteUsernameStyle (Sender packet)) (messageStyle (Text packet)).

End Chat.

(** ** Reference instances

    A terminal without colour, where [Style.Render] writes the text as it
    is, and a text area that is a line buffer: runes are appended while it
    has the focus, every other message leaves the text alone. *)

Definition plain_textarea_Update (t : string * bool) (msg : Msg)
  : (string * bool) * unit :=
  match msg with
  | KeyMsg k =>
    match Type_ k with
    | KeyRunes =>
      if snd t
      then ((fst t ++ String.concat EmptyString (map utf8.EncodeRune (Runes k)),
             true), tt)
      else (t, tt)
    | _ => (t, tt)
    end
  | _ => (t, tt)
  end.

Lemma plain_textarea_foreign (t : string * bool) (msg : Msg) :
  foreign msg = true -> fst (fst (plain_textarea_Update t msg)) = fst t.
Proof. destruct msg; simpl; intros H; try discriminate H; reflexivity. Qed.

Definition plain : Bubbles :=
  {| textarea_Model := string * bool;
     viewport_Model := string;
     widget_Cmd := unit;
     textarea_zero := (EmptyString, false);
     viewport_zero := EmptyString;
     textarea_New := (EmptyString, true);
     textarea_Blink := tt;
     textarea_Update := plain_textarea_Update;
     textarea_Value := fst;
     textarea_Reset := fun t => (EmptyString, snd t);
     textarea_View := fst;
     viewport_New := fun _ _ => EmptyString;
     viewport_Update := fun v _ => (v, tt);
     viewport_SetContent := fun _ s => s;
     viewport_GotoBottom := fun v => v;
     viewport_View := fun v => v;
     timestampStyle := fun s => s;
     usernameStyle := fun s => s;
     remoteUsernameStyle := fun s => s;
     messageStyle := fun s => s;
     render_screen := fun addr vp ta =>
       "Connected to: " ++ addr ++ newline ++ vp ++ newline ++ ta;
     textarea_Reset_Value := fun _ => eq_refl;
     textarea_Update_foreign := plain_textarea_foreign |}.

Definition peer : UDPAddr := {| IP := "100.64.0.2"; Port := 9999; Zone := EmptyString |}.

Definition addr_text (a : UDPAddr) : string := IP a ++ ":" ++ Itoa (Port a).

(** A network on which the peer 100.64.0.2 resolves and the port is free. *)
Definition lan : Net :=
  {| ResolveUDPAddr := fun s =>
       if String.eqb s "100.64.0.2:9999" then inr peer
       else inl (libError ("lookup " ++ s ++ ": no such host"));
     ListenUDP := fun p => inr {| LocalPort := p |};
     UDPAddr_String := addr_text |}.

Definition port_in_use : error :=
  libError "listen udp :9999: bind: address already in use".

(** The same network with port 9999 taken by another process. *)
Definition lan_port_taken : Net :=
  {| ResolveUDPAddr := @ResolveUDPAddr lan;
     ListenUDP := fun _ => inl port_in_use;
     UDPAddr_String := addr_text |}.

Definition key (t : KeyType) : Key := {| Type_ := t; Runes := []; Alt := false |}.

(** The key message of typed text. *)
Definition typed (s : list Z) : Key := {| Type_ := KeyRunes; Runes := s; Alt := false |}.

(** 12:34:56 on 30 October 2026, at UTC+1. *)
Definition noon : time.Time :=
  {| time.Year := 2026; time.Month := 10; time.Day := 30; time.Hour := 12;
     time.Minute := 34; time.Second := 56; time.Nanosecond := 0;
     time.ZoneOffset := 3600 |}.

(** A peer's well-formed datagram, and one whose text is empty. *)
Definition bob_hi : string :=
  qq "{'sender':'bob','text':'hi','timestamp':'2024-01-01T00:00:00Z'}".

Definition bob_empty : string :=
  qq "{'sender':'bob','text':'','timestamp':'2024-01-01T00:00:00Z'}".

(** What that datagram decodes to, for a text [text]. *)
Definition bob_says (text : string) : msgPacket :=
  {| Sender := "bob"; Text := text;
     Timestamp := {| time.Year := 2024; time.Month := 1; time.Day := 1;
                     time.Hour := 0; time.Minute := 0; time.Second := 0;
                     time.Nanosecond := 0; time.ZoneOffset := 0 |} |}.

(** A host that is not the configured peer. *)
Definition stranger : UDPAddr :=
  {| IP := "203.0.113.7"; Port := 40000; Zone := EmptyString |}.

(** The session of [chat alice 100.64.0.2] on [lan]: as started, and after
    the user has typed [hello]. *)
Definition alice : model (B := plain) :=
  initialModel (N := lan) (B := plain) "alice" "100.64.0.2".

Definition alice_started : Program (B := plain) := start alice.

Definition alice_hello : Program (B := plain) :=
  run (N := lan) alice_started [(noon, InKey (typed [104; 101; 108; 108; 111]))].

Definition port9999 : UDPConn := {| LocalPort := 9999 |}.

(** Errors of the environment: of the resolver, of a read on a closed
    socket, and of a Bubble Tea that has recovered from a panic. *)
Definition no_such_host : error := libError "lookup nohost:9999: no such host".

Definition closed_socket : error := libError "use of closed network connection".

Definition program_panic : error :=
  libError "program was killed: program experienced a panic".

(** A message with HTML characters, quotes, a backslash, a control byte, an
    emoji and a line separator. *)
Definition sample_message : msgPacket :=
  {| Sender := "al<i>ce & co";
     Text := qq "he said 'hi'\ " ++ String (z2b 7) EmptyString
             ++ utf8.EncodeRune 0x1F600 ++ utf8.EncodeRune 0x2028;
     Timestamp := noon |}.


(** A conversation: alice types [hello] and sends it, then a datagram of
    bob arrives from an address that is not the peer's. *)
Definition hello_keys : Key := typed [104; 101; 108; 108; 111].

Definition a_chat : list (time.Time * Input) :=
  [(noon, InKey hello_keys); (noon, InKey (key KeyEnter));
   (noon, InSocket (ReadOK bob_hi stranger))].

(** A second session on the same network. *)
Definition carol_started : Program (B := plain) :=
  start (initialModel (N := lan) (B := plain) "carol" "100.64.0.2").

(** A message of bob with a text of a thousand bytes, and its encoding. *)
Definition long_message : msgPacket :=
  {| Sender := "bob"; Text := String.concat EmptyString (repeat "a" 1000);
     Timestamp := noon |}.

Definition long_datagram : string :=
  match json.Marshal long_message with Some d => d | None => EmptyString end.

(** A message typed in Latin-1: the byte 0xE9 is no UTF-8 encoding. *)
Definition latin1_message : msgPacket :=
  {| Sender := "bob"; Text := "caf" ++ String (z2b 0xE9) EmptyString;
     Timestamp := noon |}.

(** ** Vocabulary of the proofs *)

(** Bytes that stand for themselves inside a JSON string. *)
Definition plain_byte (c : ascii) : bool :=
  (0x20 <=? b2z c) && (b2z c <? 0x80) && negb (b2z c =? 34) && negb (b2z c =? 92).

Fixpoint plain_text (s : string) : bool :=
  match s with
  | EmptyString => true
  | String c r => plain_byte c && plain_text r
  end.

(** A text that does not go on with a digit. *)
Definition stops (tail : string) : Prop :=
  match tail with
  | String c _ => time.isDigit c = false
  | EmptyString => True
  end.

(** What [scan_members] does with a member once its key is read. *)
Definition member_tail (f : nat) (depth : Z) (key : string)
  (x : option (json.value * string)) : option (list (string * json.value) * string) :=
  time.bind x (fun '(v, r3) =>
    match json.skip_ws r3 with
    | String "," r4 =>
      time.bind (json.scan_members f depth (json.skip_ws r4))
        (fun '(ms, r5) => Some ((key, v) :: ms, r5))
    | String "}" r4 => Some ([(key, v)], r4)
    | _ => None
    end).

(** Whether a text holds a double quote that no backslash escapes, which is
    where a string literal that goes on with the text would end; and whether
    a text of escapes and plain bytes holds none and ends outside an
    escape. *)
Fixpoint closes (s : string) : bool :=
  match s with
  | EmptyString => false
  | String c r =>
    if Ascii.eqb c dquote then true
    else if Ascii.eqb c backslash then
      match r with
      | EmptyString => false
      | String _ r' => closes r'
      end
    else closes r
  end.

Fixpoint inert (s : string) : bool :=
  match s with
  | EmptyString => true
  | String c r =>
    if Ascii.eqb c dquote then false
    else if Ascii.eqb c backslash then
      match r with
      | EmptyString => false
      | String _ r' => inert r'
      end
    else inert r
  end.

(** Bytes of a multi-byte encoding. *)
Fixpoint all_high (s : string) : bool :=
  match s with
  | EmptyString => true
  | String c r => (0x80 <=? b2z c) && all_high r
  end.

(** What is left for [scan_members] after the value of a member is such
    that the object cannot be read. *)
Definition tail_dead (t : string) : Prop :=
  forall f depth key v, member_tail f depth key (Some (v, t)) = None.

(** The text between the quotes of a string literal that the scanner reads
    to its closing quote: it holds no quote of its own, and is read up to
    the quote that follows it. *)
Definition literal (body : string) : Prop :=
  inert body = true /\
  forall f rest, (String.length body < f)%nat ->
    exists dec raw,
      json.scan_string f (body ++ String dquote rest) = Some (dec, raw, rest).

(** A member of an object whose key and value are string literals, followed
    by [tail]. *)
Definition member_text (key body tail : string) : string :=
  String dquote (key ++ String dquote (String ":"
    (String dquote (body ++ String dquote tail)))).

(** A text of which no proper prefix is read as the members of an object. *)
Definition uncuttable (m : string) : Prop :=
  forall k, (k < String.length m)%nat ->
  forall f depth, json.scan_members f depth (take k m) = None.

(** A text of white space only: every rune decoded from its front is a
    space. *)
Fixpoint all_space (fuel : nat) (s : string) : bool :=
  match s, fuel with
  | EmptyString, _ => true
  | _, O => false
  | _, S fuel' =>
    let d := utf8.DecodeRuneInString s in
    strings.IsSpace (fst d) && all_space fuel' (drop (snd d) s)
  end.

Definition blank (s : string) : bool := all_space (String.length s) s.

(** Continuation bytes only. *)
Fixpoint all_cont (s : string) : bool :=
  match s with
  | EmptyString => true
  | String c r => utf8.is_cont (b2z c) && all_cont r
  end.

(** A text with every byte that is not part of a valid UTF-8 encoding
    replaced by the encoding of U+FFFD. *)
Fixpoint coerce (fuel : nat) (src : string) : string :=
  match src, fuel with
  | EmptyString, _ => EmptyString
  | _, O => EmptyString
  | String c rest, S fuel' =>
    let d := utf8.DecodeRuneInString src in
    if utf8.bad d then utf8.EncodeRune utf8.RuneError ++ coerce fuel' rest
    else take (snd d) src ++ coerce fuel' (drop (snd d) src)
  end.

Definition ToValid (s : string) : string := coerce (String.length s) s.

(** ** Vocabulary of the session *)

Section SessionVocabulary.
Context {N : Net} {B : Bubbles}.

(** The message an input hands to [Update], and whether it completes the
    outstanding receive: a key and a runtime message always arrive, what the
    socket yields arrives while a [listenForMessages] command is outstanding
    and its body returns.  The quit message is not handed to [Update]. *)
Definition message_of (p : Program) (i : Input) : option (Msg * bool) :=
  match i with
  | InKey k => Some (KeyMsg k, false)
  | InOther tag => Some (otherMsg tag, false)
  | InQuit => None
  | InSocket r =>
    match p_listening p with
    | Some conn =>
      match listenForMessages_run conn r with
      | Returns msg => Some (msg, true)
      | Panics => None
      end
    | None => None
    end
  end.

(** Esc and Ctrl-C. *)
Definition quit_key (k : Key) : bool :=
  match Type_ k with
  | KeyEsc | KeyCtrlC => true
  | _ => false
  end.

Definition enter_key (k : Key) : bool :=
  match Type_ k with
  | KeyEnter => true
  | _ => false
  end.

(** The line of the error screen. *)
Definition error_screen (e : error) : string := "Error: " ++ Error e ++ newline.

(** The address a datagram of the session goes to: what the text of the
    address resolved at startup resolves to at the time of the send. *)
Definition destination (a : UDPAddr) : option UDPAddr :=
  match ResolveUDPAddr (UDPAddr_String a) with inr a' => Some a' | inl _ => None end.

(** The viewport holds the transcript: what [content] reads of it is what
    the library keeps ([shown]) of the greeting, and of the lines joined by
    newlines once there is one. *)
Definition shows_transcript (content : viewport_Model -> string)
    (shown : string -> string) (m : model) : Prop :=
  content (viewport m)
  = shown match messages m with
          | [] => "Connected. Waiting for messages..."
          | _ => strings.Join (messages m) newline
          end.

End SessionVocabulary.

(** * Proofs *)

(** ** Strings and bytes *)


Lemma app_nil_r (s : string) : s ++ "" = s.
Proof. induction s; simpl; congruence. Qed.

Lemma app_assoc (a b c : string) : (a ++ b) ++ c = a ++ (b ++ c).
Proof. induction a; simpl; congruence. Qed.

Lemma length_app (a b : string) :
  String.length (a ++ b) = (String.length a + String.length b)%nat.
Proof. induction a; simpl; congruence. Qed.

Lemma take_app (a b : string) : take (String.length a) (a ++ b) = a.
Proof. induction a; simpl; congruence. Qed.

Lemma drop_app (a b : string) : drop (String.length a) (a ++ b) = b.
Proof. induction a; simpl; congruence. Qed.

Lemma take_drop (n : nat) (s : string) : take n s ++ drop n s = s.
Proof. revert s; induction n; intros [|c s]; simpl; try rewrite IHn; reflexivity. Qed.

Lemma length_drop (n : nat) (s : string) :
  String.length (drop n s) = (String.length s - n)%nat.
Proof. revert s; induction n; intros [|c s]; simpl; try rewrite IHn; lia. Qed.

Lemma drop_take_app (n : nat) (s x : string) :
  String.length (take n s) = n -> drop n (take n s ++ x) = x.
Proof. intros H. rewrite <- H at 1. apply drop_app. Qed.

Lemma b2z_range (c : ascii) : 0 <= b2z c < 256.
Proof.
  unfold b2z. pose proof (N_ascii_bounded c). lia.
Qed.

Lemma z2b_b2z (c : ascii) : z2b (b2z c) = c.
Proof.
  unfold z2b. pose proof (b2z_range c).
  rewrite Z.mod_small by lia. unfold b2z.
  rewrite N2Z.id. apply ascii_N_embedding.
Qed.

Lemma b2z_z2b (x : Z) : 0 <= x < 256 -> b2z (z2b x) = x.
Proof.
  intros H. unfold z2b, b2z. rewrite Z.mod_small by lia.
  rewrite N_ascii_embedding by lia. lia.
Qed.

Ltac case_cmp :=
  match goal with
  | |- context [Z.ltb ?a ?b] => destruct (Z.ltb_spec a b)
  | |- context [Z.leb ?a ?b] => destruct (Z.leb_spec a b)
  | |- context [Z.eqb ?a ?b] => destruct (Z.eqb_spec a b)
  end.


Lemma first_spec (s0 : Z) (sz : nat) (lo hi : Z) :
  utf8.first s0 = Some (sz, lo, hi) ->
  0x80 <= lo /\ hi <= 0xBF /\
  ((sz = 2%nat /\ 0xC2 <= s0 <= 0xDF) \/
   (sz = 3%nat /\ 0xE0 <= s0 <= 0xEF /\ (s0 = 0xE0 -> lo = 0xA0)
    /\ (s0 = 0xED -> hi = 0x9F)) \/
   (sz = 4%nat /\ 0xF0 <= s0 <= 0xF4 /\ (s0 = 0xF0 -> lo = 0x90)
    /\ (s0 = 0xF4 -> hi = 0x8F))).
Proof.
  unfold utf8.first.
  repeat case_cmp; intros E; inversion E; subst; lia.
Qed.

Lemma encode2 (r : Z) :
  0x80 <= r <= 0x7FF ->
  utf8.EncodeRune r =
  String (z2b (0xC0 + r / 64)) (String (z2b (0x80 + r mod 64)) EmptyString).
Proof.
  intros H. unfold utf8.EncodeRune.
  repeat case_cmp; try lia; reflexivity.
Qed.

Lemma encode3 (r : Z) :
  0x800 <= r <= 0xFFFF -> ~ (0xD800 <= r <= 0xDFFF) ->
  utf8.EncodeRune r =
  String (z2b (0xE0 + r / 4096))
    (String (z2b (0x80 + (r / 64) mod 64))
      (String (z2b (0x80 + r mod 64)) EmptyString)).
Proof.
  intros H S. unfold utf8.EncodeRune, utf8.MaxRune, utf8.surrogateMin, utf8.surrogateMax.
  replace (r <=? 127) with false by lia.
  replace (r <=? 2047) with false by lia.
  replace (r <? 0) with false by lia.
  replace (1114111 <? r) with false by lia.
  replace ((55296 <=? r) && (r <=? 57343)) with false by lia.
  rewrite !andb_false_r. cbn [orb].
  replace (r <=? 65535) with true by lia. reflexivity.
Qed.

Lemma encode4 (r : Z) :
  0x10000 <= r <= 0x10FFFF ->
  utf8.EncodeRune r =
  String (z2b (0xF0 + r / 262144))
    (String (z2b (0x80 + (r / 4096) mod 64))
      (String (z2b (0x80 + (r / 64) mod 64))
        (String (z2b (0x80 + r mod 64)) EmptyString))).
Proof.
  intros H. unfold utf8.EncodeRune, utf8.MaxRune, utf8.surrogateMin, utf8.surrogateMax.
  replace (r <=? 127) with false by lia.
  replace (r <=? 2047) with false by lia.
  replace (r <? 0) with false by lia.
  replace (1114111 <? r) with false by lia.
  replace ((55296 <=? r) && (r <=? 57343)) with false by lia.
  rewrite !andb_false_r. cbn [orb].
  replace (r <=? 65535) with false by lia. reflexivity.
Qed.

Ltac byte_eq c :=
  match goal with
  | |- z2b ?e = c =>
    let H := fresh in
    assert (H : e = b2z c) by (Z.div_mod_to_equations; lia);
    rewrite H; apply z2b_b2z
  end.

Lemma decode_ok (c0 : ascii) (r : string) :
  let s := String c0 r in
  let d := utf8.DecodeRuneInString s in
  utf8.bad d = false ->
  (1 <= snd d)%nat /\ String.length (take (snd d) s) = snd d /\
  utf8.EncodeRune (fst d) = take (snd d) s /\
  forall x, utf8.DecodeRuneInString (take (snd d) s ++ x) = d.
Proof.
  intros s d. subst d s.
  pose proof (b2z_range c0) as R0.
  unfold utf8.DecodeRuneInString, utf8.RuneSelf.
  destruct (Z.ltb_spec (b2z c0) 128) as [A|A].
  - intros _. cbn [fst snd take String.length append].
    repeat split; try lia.
    + unfold utf8.EncodeRune.
      destruct (Z.leb_spec 0 (b2z c0)); destruct (Z.leb_spec (b2z c0) 127); try lia.
      cbn [andb]. now rewrite z2b_b2z.
    + intros x. destruct (Z.ltb_spec (b2z c0) 128); [reflexivity|lia].
  - destruct (utf8.first (b2z c0)) as [[[sz lo] hi]|] eqn:E; [|discriminate].
    destruct (first_spec _ _ _ _ E) as (Hlo & Hhi & F).
    destruct r as [|c1 r1]; [discriminate|].
    pose proof (b2z_range c1) as R1.
    destruct (Z.ltb_spec (b2z c1) lo) as [|L1]; [discriminate|].
    destruct (Z.ltb_spec hi (b2z c1)) as [|L2]; [discriminate|].
    cbn [orb].
    destruct F as [(-> & F)|[(-> & F & Fa & Fb)|(-> & F & Fa & Fb)]].
    + intros _. cbn [Nat.leb fst snd take String.length append].
      repeat split; try lia.
      * rewrite encode2 by (Z.div_mod_to_equations; lia).
        f_equal; [byte_eq c0|f_equal; byte_eq c1].
      * intros x. replace (b2z c0 <? 128) with false by lia.
        rewrite E.
        replace (b2z c1 <? lo) with false by lia.
        replace (hi <? b2z c1) with false by lia. reflexivity.
    + cbn [Nat.leb].
      destruct r1 as [|c2 r2]; [discriminate|].
      pose proof (b2z_range c2) as R2.
      unfold utf8.is_cont.
      destruct (Z.leb_spec 128 (b2z c2)); [|discriminate].
      destruct (Z.leb_spec (b2z c2) 191); [|discriminate].
      intros _. cbn [andb negb fst snd take String.length append].
      repeat split; try lia.
      * rewrite encode3 by (Z.div_mod_to_equations; lia).
        f_equal; [byte_eq c0|f_equal; [byte_eq c1|f_equal; byte_eq c2]].
      * intros x. replace (b2z c0 <? 128) with false by lia.
        rewrite E.
        replace (b2z c1 <? lo) with false by lia.
        replace (hi <? b2z c1) with false by lia.
        replace (128 <=? b2z c2) with true by lia.
        replace (b2z c2 <=? 191) with true by lia.
        reflexivity.
    + cbn [Nat.leb].
      destruct r1 as [|c2 r2]; [discriminate|].
      pose proof (b2z_range c2) as R2.
      unfold utf8.is_cont.
      destruct (Z.leb_spec 128 (b2z c2)); [|discriminate].
      destruct (Z.leb_spec (b2z c2) 191); [|discriminate].
      cbn [andb negb].
      destruct r2 as [|c3 r3]; [discriminate|].
      pose proof (b2z_range c3) as R3.
      destruct (Z.leb_spec 128 (b2z c3)); [|discriminate].
      destruct (Z.leb_spec (b2z c3) 191); [|discriminate].
      intros _. cbn [andb negb fst snd take String.length append].
      repeat split; try lia.
      * rewrite encode4 by (Z.div_mod_to_equations; lia).
        f_equal; [byte_eq c0|f_equal; [byte_eq c1|f_equal; [byte_eq c2|f_equal; byte_eq c3]]].
      * intros x. replace (b2z c0 <? 128) with false by lia.
        rewrite E.
        replace (b2z c1 <? lo) with false by lia.
        replace (hi <? b2z c1) with false by lia.
        replace (128 <=? b2z c2) with true by lia.
        replace (b2z c2 <=? 191) with true by lia.
        replace (128 <=? b2z c3) with true by lia.
        replace (b2z c3 <=? 191) with true by lia.
        reflexivity.
Qed.

Lemma eqb_b2z (c k : ascii) : b2z c <> b2z k -> Ascii.eqb c k = false.
Proof. intros H. apply Ascii.eqb_neq. congruence. Qed.

Lemma scan_escape_byte (c : ascii) :
  (b2z c <? 128) = true -> json.htmlSafe (b2z c) = false ->
  forall f x,
    json.scan_string (S f) (json.escape_byte c ++ x)
    = json.emit (String c EmptyString) (json.escape_byte c) (json.scan_string f x).
Proof.
  destruct c as [[] [] [] [] [] [] [] []]; intros H1 H2;
    try (vm_compute in H1; discriminate H1);
    try (vm_compute in H2; discriminate H2);
    intros f x; reflexivity.
Qed.

Lemma escape_byte_length (c : ascii) : (1 <= String.length (json.escape_byte c))%nat.
Proof.
  unfold json.escape_byte. repeat case_cmp; cbn; lia.
Qed.

Lemma string_roundtrip (fuel : nat) :
  forall src, (String.length src <= fuel)%nat ->
  utf8.valid_loop fuel src = true ->
  forall f rest, (String.length (json.appendString_loop fuel src) < f)%nat ->
  exists raw,
    json.scan_string f (json.appendString_loop fuel src ++ String dquote rest)
    = Some (src, raw, rest).
Proof.
  induction fuel as [|fuel IH]; intros src Hlen Hval f rest Hf.
  - destruct src; [|simpl in Hlen; lia].
    destruct f; [simpl in Hf; lia|]. simpl. eauto.
  - destruct src as [|c r].
    { destruct f; [simpl in Hf; lia|]. simpl. eauto. }
    destruct f as [|f]; [lia|].
    cbn [utf8.valid_loop] in Hval.
    cbn [json.appendString_loop] in Hf |- *.
    pose proof (b2z_range c) as Rc.
    destruct (b2z c <? utf8.RuneSelf) eqn:A.
    + (* ASCII *)
      assert (D : utf8.DecodeRuneInString (String c r) = (b2z c, 1%nat)).
      { unfold utf8.DecodeRuneInString. now rewrite A. }
      rewrite D in Hval. cbn [snd drop] in Hval.
      destruct (utf8.bad (b2z c, 1%nat)); [discriminate|].
      rewrite length_app in Hf. rewrite app_assoc.
      destruct (json.htmlSafe (b2z c)) eqn:S.
      * cbn [append String.length] in Hf |- *.
        destruct (IH r ltac:(simpl in Hlen; lia) Hval f rest ltac:(lia)) as [raw IHr].
        unfold json.htmlSafe in S. unfold utf8.RuneSelf in A.
        cbn [json.scan_string].
        rewrite (eqb_b2z c dquote) by (change (b2z dquote) with 34; lia).
        rewrite (eqb_b2z c backslash) by (change (b2z backslash) with 92; lia).
        replace (b2z c <? 32) with false by lia. unfold utf8.RuneSelf. rewrite A.
        rewrite IHr. cbn. eauto.
      * pose proof (escape_byte_length c).
        destruct (IH r ltac:(simpl in Hlen; lia) Hval f rest ltac:(lia)) as [raw IHr].
        rewrite scan_escape_byte by assumption.
        rewrite IHr. cbn. eauto.
    + (* multi-byte *)
      destruct (utf8.bad (utf8.DecodeRuneInString (String c r))) eqn:Bad; [discriminate|].
      destruct (decode_ok c r Bad) as (N1 & N2 & N3 & N4).
      remember (utf8.DecodeRuneInString (String c r)) as d eqn:Ed.
      assert (Hd : (String.length (drop (snd d) (String c r)) <= fuel)%nat).
      { rewrite length_drop. cbn [String.length] in Hlen |- *. lia. }
      assert (Hc1 : Ascii.eqb c dquote = false).
      { apply eqb_b2z. change (b2z dquote) with 34. unfold utf8.RuneSelf in A. lia. }
      assert (Hc2 : Ascii.eqb c backslash = false).
      { apply eqb_b2z. change (b2z backslash) with 92. unfold utf8.RuneSelf in A. lia. }
      destruct ((fst d =? 8232) || (fst d =? 8233)) eqn:LS.
      * (* U+2028, U+2029 *)
        rewrite !length_app in Hf. cbn [String.length] in Hf.
        destruct (IH _ Hd Hval f rest ltac:(lia)) as [raw IHr].
        rewrite !app_assoc.
        assert (X : fst d = 8232 \/ fst d = 8233) by lia.
        destruct X as [X|X]; rewrite X in *; cbn; rewrite IHr; cbn;
          eexists; apply f_equal;
          (apply (f_equal2 pair); [apply (f_equal2 pair); [|reflexivity]|reflexivity]);
          (transitivity (take (snd d) (String c r) ++ drop (snd d) (String c r));
           [rewrite <- N3; reflexivity | apply take_drop]).
      * rewrite length_app in Hf.
        destruct (IH _ Hd Hval f rest ltac:(lia)) as [raw IHr].
        rewrite app_assoc.
        remember (json.appendString_loop fuel (drop (snd d) (String c r)) ++ String dquote rest) as X.
        assert (T : exists t, take (snd d) (String c r) = String c t).
        { destruct (snd d); [lia|]. cbn. eauto. }
        destruct T as [t T]. 
        rewrite T. cbn [append json.scan_string].
        rewrite Hc1, Hc2.
        replace (b2z c <? 32) with false by (unfold utf8.RuneSelf in A; lia).
        rewrite A. change (String c (t ++ X)) with (String c t ++ X). rewrite <- T.
        rewrite N4.
        rewrite (drop_take_app _ _ _ N2). rewrite IHr.
        cbn. rewrite N3. rewrite take_drop. eauto.
Qed.

(** ** time: reading back what was written *)


Lemma isDigit_digit (k : Z) : 0 <= k < 10 -> time.isDigit (time.digit k) = true.
Proof.
  intros H. unfold time.isDigit, time.digit. rewrite b2z_z2b by lia. lia.
Qed.

Lemma digit_val_digit (k : Z) : 0 <= k < 10 -> time.digit_val (time.digit k) = k.
Proof.
  intros H. unfold time.digit_val, time.digit. rewrite b2z_z2b by lia. lia.
Qed.

Lemma mod10 (x : Z) : 0 <= x mod 10 < 10.
Proof. apply Z.mod_pos_bound. lia. Qed.

Lemma getyear_digits (y : Z) (rest : string) :
  0 <= y <= 9999 -> time.getyear (time.digits 4 y ++ rest) = Some (y, rest).
Proof.
  intros H. cbn [time.digits append time.getyear].
  rewrite !isDigit_digit by apply mod10. cbn [andb].
  rewrite !digit_val_digit by apply mod10.
  do 2 f_equal. Z.div_mod_to_equations. lia.
Qed.

Lemma getnum_digits (x : Z) (fixed : bool) (rest : string) :
  0 <= x < 100 -> time.getnum (time.digits 2 x ++ rest) fixed = Some (x, rest).
Proof.
  intros H. cbn [time.digits append time.getnum].
  rewrite !isDigit_digit by apply mod10.
  rewrite !digit_val_digit by apply mod10.
  do 2 f_equal. Z.div_mod_to_equations. lia.
Qed.

Lemma fraction_digits (w : nat) :
  forall x room acc tail, 0 <= x < 10 ^ Z.of_nat w -> (w <= room)%nat ->
  time.fraction (time.digits w x ++ tail) room acc
  = time.fraction tail (room - w) (acc * 10 ^ Z.of_nat w + x).
Proof.
  induction w as [|w IH]; intros x room acc tail Hx Hr.
  - cbn. rewrite Nat.sub_0_r. f_equal. change (10 ^ 0) with 1 in Hx. lia.
  - cbn [time.digits]. rewrite app_assoc.
    rewrite Nat2Z.inj_succ, Z.pow_succ_r in Hx by lia.
    rewrite IH by (try lia; Z.div_mod_to_equations; lia).
    cbn [append time.fraction].
    rewrite isDigit_digit by apply mod10.
    destruct (room - w)%nat as [|k] eqn:K; [lia|].
    replace (room - S w)%nat with k by lia.
    rewrite digit_val_digit by apply mod10.
    f_equal. rewrite Nat2Z.inj_succ, Z.pow_succ_r by lia.
    Z.div_mod_to_equations. lia.
Qed.

Lemma fraction_stops (tail : string) (room : nat) (acc : Z) :
  stops tail -> time.fraction tail room acc = (acc * 10 ^ Z.of_nat room, tail).
Proof.
  destruct tail as [|c r]; cbn; intros H; [reflexivity|now rewrite H].
Qed.

Lemma fraction_trim (w : nat) :
  forall x room acc tail, 0 <= x < 10 ^ Z.of_nat w -> (w <= room)%nat ->
  stops tail ->
  time.fraction (time.trim_zeros w x ++ tail) room acc
  = ((acc * 10 ^ Z.of_nat w + x) * 10 ^ Z.of_nat (room - w), tail).
Proof.
  induction w as [|w IH]; intros x room acc tail Hx Hr Ht.
  - cbn [time.trim_zeros append]. rewrite fraction_stops by assumption.
    rewrite Nat.sub_0_r. change (10 ^ Z.of_nat 0) with 1 in *.
    f_equal. f_equal. lia.
  - cbn [time.trim_zeros].
    pose proof Hx as Hx'.
    rewrite Nat2Z.inj_succ, Z.pow_succ_r in Hx' by lia.
    destruct (Z.eqb_spec (x mod 10) 0) as [Z0|Z0].
    + rewrite IH by (try assumption; try lia; Z.div_mod_to_equations; lia).
      f_equal.
      replace (room - w)%nat with (S (room - S w)) by lia.
      rewrite !Nat2Z.inj_succ, !Z.pow_succ_r by lia.
      Z.div_mod_to_equations. nia.
    + rewrite fraction_digits by (assumption || lia).
      now rewrite fraction_stops.
Qed.

Lemma digits_head (w : nat) (x : Z) :
  exists c r, time.digits (S w) x = String c r /\ time.isDigit c = true.
Proof.
  revert x. induction w as [|w IH]; intros x.
  - cbn. eexists _, _. split; [reflexivity|]. apply isDigit_digit, mod10.
  - destruct (IH (x / 10)) as (c & r & E & D).
    change (time.digits (S (S w)) x)
      with (time.digits (S w) (x / 10) ++ String (time.digit (x mod 10)) EmptyString).
    rewrite E. cbn. eauto.
Qed.

Lemma trim_zeros_head (w : nat) :
  forall x, 0 < x < 10 ^ Z.of_nat w ->
  exists c r, time.trim_zeros w x = String c r /\ time.isDigit c = true.
Proof.
  induction w as [|w IH]; intros x Hx.
  - change (10 ^ Z.of_nat 0) with 1 in Hx. lia.
  - cbn [time.trim_zeros].
    rewrite Nat2Z.inj_succ, Z.pow_succ_r in Hx by lia.
    destruct (Z.eqb_spec (x mod 10) 0).
    + apply IH. Z.div_mod_to_equations. lia.
    + apply digits_head.
Qed.

Lemma getfraction_nano (ns : Z) (tail : string) :
  0 <= ns < 1000000000 -> stops tail ->
  (forall r, tail <> String "." r) -> (forall r, tail <> String "," r) ->
  time.getfraction (time.appendNano ns ++ tail) = (ns, tail).
Proof.
  intros H St P1 P2. unfold time.appendNano.
  destruct (Z.eqb_spec ns 0) as [->|NZ].
  - cbn [append]. destruct tail as [|c [|c' r]]; try reflexivity.
    cbn.
    destruct (Ascii.eqb_spec c "."); [subst; exfalso; eapply P1; reflexivity|].
    destruct (Ascii.eqb_spec c ","); [subst; exfalso; eapply P2; reflexivity|].
    reflexivity.
  - assert (P9 : 10 ^ Z.of_nat 9 = 1000000000) by reflexivity.
    destruct (trim_zeros_head 9 ns) as (c & r & E & D); [lia|].
    cbn [append]. rewrite E. cbn [append time.getfraction].
    change (Ascii.eqb "." ".") with true. cbn [orb andb]. rewrite D.
    change (String c (r ++ tail)) with (String c r ++ tail). rewrite <- E.
    rewrite fraction_trim by (auto; lia).
    f_equal. cbn. lia.
Qed.

Lemma getzone_appendZone (off : Z) :
  Z.abs off < 86400 -> off mod 60 = 0 ->
  time.getzone (time.appendZone off) = Some (off, EmptyString).
Proof.
  intros H M. unfold time.appendZone.
  destruct (Z.eqb_spec off 0) as [->|NZ]; [reflexivity|].
  assert (Q : off = 60 * Z.quot off 60).
  { assert (E : off = off / 60 * 60) by (Z.div_mod_to_equations; lia).
    rewrite E at 2. rewrite Z.quot_mul by lia. lia. }
  remember (Z.quot off 60) as zone eqn:Ez. clear Ez.
  assert (Hh : 0 <= Z.abs zone / 60 < 24) by (Z.div_mod_to_equations; lia).
  assert (Hm : 0 <= Z.abs zone mod 60 < 60) by (Z.div_mod_to_equations; lia).
  destruct (Z.ltb_spec zone 0);
    cbn [time.digits append time.getzone];
    rewrite !isDigit_digit by apply mod10; cbn [andb];
    rewrite !digit_val_digit by apply mod10;
    replace (Z.abs zone / 60 / 10 mod 10 * 10 + (Z.abs zone / 60) mod 10)
      with (Z.abs zone / 60) by (Z.div_mod_to_equations; lia);
    replace ((Z.abs zone mod 60) / 10 mod 10 * 10 + (Z.abs zone mod 60) mod 10)
      with (Z.abs zone mod 60) by (Z.div_mod_to_equations; lia);
    replace (24 <? Z.abs zone / 60) with false by lia;
    replace (60 <? Z.abs zone mod 60) with false by lia;
    cbn; do 2 f_equal; Z.div_mod_to_equations; lia.
Qed.

Lemma appendZone_stops (off : Z) :
  stops (time.appendZone off) /\
  (forall r, time.appendZone off <> String "." r) /\
  (forall r, time.appendZone off <> String "," r).
Proof.
  unfold time.appendZone.
  destruct (off =? 0); [cbn; repeat split; discriminate|].
  destruct (Z.quot off 60 <? 0); cbn; repeat split; discriminate.
Qed.

Lemma parse_format (t : time.Time) :
  time.representable t -> time.Parse_RFC3339 (time.formatRFC3339Nano t) = Some t.
Proof.
  intros (W & Y & O & M). destruct t as [y mo d h mi s ns off].
  unfold time.wf in W. cbn [time.Year time.Month time.Day time.Hour time.Minute
    time.Second time.Nanosecond time.ZoneOffset] in *.
  destruct W as (W1 & W2 & W3 & W4 & W5 & W6).
  assert (D31 : time.daysIn mo y <= 31).
  { unfold time.daysIn. repeat case_cmp; cbn; try lia; destruct (time.isLeap y); lia. }
  unfold time.Parse_RFC3339, time.formatRFC3339Nano.
  cbn [time.Year time.Month time.Day time.Hour time.Minute
    time.Second time.Nanosecond time.ZoneOffset].
  rewrite getyear_digits by lia. cbn [time.bind append time.expect].
  change (Ascii.eqb "-" "-") with true. cbn [time.bind].
  rewrite getnum_digits by lia. cbn [time.bind append time.expect].
  change (Ascii.eqb "-" "-") with true. cbn [time.bind].
  rewrite getnum_digits by lia. cbn [time.bind append time.expect].
  change (Ascii.eqb "T" "T") with true. cbn [time.bind].
  rewrite getnum_digits by lia. cbn [time.bind append time.expect].
  change (Ascii.eqb ":" ":") with true. cbn [time.bind].
  rewrite getnum_digits by lia. cbn [time.bind append time.expect].
  change (Ascii.eqb ":" ":") with true. cbn [time.bind].
  rewrite getnum_digits by lia. cbn [time.bind].
  destruct (appendZone_stops off) as (Z1 & Z2 & Z3).
  rewrite getfraction_nano by assumption.
  rewrite getzone_appendZone by assumption. cbn [time.bind].
  replace (1 <=? mo) with true by lia. replace (mo <=? 12) with true by lia.
  replace (h <? 24) with true by lia. replace (mi <? 60) with true by lia.
  replace (s <? 60) with true by lia. replace (1 <=? d) with true by lia.
  replace (d <=? time.daysIn mo y) with true by lia.
  reflexivity.
Qed.

(** ** encoding/json: reading back what was written *)


Lemma plain_text_app (a b : string) :
  plain_text (a ++ b) = plain_text a && plain_text b.
Proof. induction a; cbn; [reflexivity|]. rewrite IHa. now rewrite andb_assoc. Qed.

Lemma plain_digit (k : Z) : 0 <= k < 10 -> plain_byte (time.digit k) = true.
Proof.
  intros H. unfold plain_byte, time.digit. rewrite b2z_z2b by lia. lia.
Qed.

Lemma plain_digits (w : nat) (x : Z) : plain_text (time.digits w x) = true.
Proof.
  revert x. induction w as [|w IH]; intros x; cbn [time.digits]; [reflexivity|].
  rewrite plain_text_app, IH. cbn. rewrite plain_digit by apply mod10. reflexivity.
Qed.

Lemma plain_trim_zeros (w : nat) (x : Z) : plain_text (time.trim_zeros w x) = true.
Proof.
  revert x. induction w as [|w IH]; intros x; cbn [time.trim_zeros]; [reflexivity|].
  destruct (x mod 10 =? 0); [apply IH|apply plain_digits].
Qed.

Lemma plain_format (t : time.Time) : plain_text (time.formatRFC3339Nano t) = true.
Proof.
  unfold time.formatRFC3339Nano, time.appendNano, time.appendZone.
  repeat (rewrite plain_text_app || rewrite plain_digits).
  destruct (time.Nanosecond t =? 0); destruct (time.ZoneOffset t =? 0);
    destruct (Z.quot (time.ZoneOffset t) 60 <? 0);
    repeat (rewrite plain_text_app || rewrite plain_digits || rewrite plain_trim_zeros);
    reflexivity.
Qed.

Lemma scan_plain (s : string) :
  plain_text s = true ->
  forall f rest, (String.length s < f)%nat ->
  json.scan_string f (s ++ String dquote rest) = Some (s, s, rest).
Proof.
  induction s as [|c r IH]; intros P f rest Hf.
  - destruct f; [simpl in Hf; lia|]. reflexivity.
  - destruct f as [|f]; [lia|]. cbn [plain_text] in P.
    apply andb_prop in P. destruct P as [Pc Pr].
    unfold plain_byte in Pc.
    cbn [append json.scan_string].
    rewrite (eqb_b2z c dquote) by (change (b2z dquote) with 34; lia).
    rewrite (eqb_b2z c backslash) by (change (b2z backslash) with 92; lia).
    replace (b2z c <? 32) with false by lia.
    unfold utf8.RuneSelf. replace (b2z c <? 128) with true by lia.
    rewrite IH by (simpl in Hf; auto; lia). reflexivity.
Qed.

Lemma MarshalJSON_ok (t : time.Time) :
  time.representable t ->
  time.MarshalJSON t
  = Some (String dquote (time.formatRFC3339Nano t) ++ String dquote EmptyString).
Proof.
  intros (W & Y & O & M). unfold time.MarshalJSON.
  replace (time.Year t <? 0) with false by lia.
  replace (9999 <? time.Year t) with false by lia. cbn [orb].
  assert (Q : time.ZoneOffset t = 60 * Z.quot (time.ZoneOffset t) 60).
  { assert (E : time.ZoneOffset t = time.ZoneOffset t / 60 * 60)
      by (Z.div_mod_to_equations; lia).
    rewrite E at 2. rewrite Z.quot_mul by lia. lia. }
  replace (24 <=? Z.abs (Z.quot (time.ZoneOffset t) 60) / 60) with false
    by (Z.div_mod_to_equations; lia).
  reflexivity.
Qed.

Lemma scan_value_string (s : string) :
  utf8.ValidString s = true ->
  forall f depth rest,
  exists raw,
    json.scan_value (S f) depth (json.appendString s ++ rest)
    = Some (json.VString s raw, rest).
Proof.
  intros V f depth rest. unfold json.appendString.
  cbn [append json.scan_value]. rewrite app_assoc. cbn [append].
  change (Ascii.eqb dquote "{") with false.
  change (Ascii.eqb dquote "[") with false.
  change (Ascii.eqb dquote dquote) with true. cbn iota.
  destruct (string_roundtrip (String.length s) s (le_n _) V
              (String.length (json.appendString_loop (String.length s) s
                              ++ String dquote rest)) rest) as [raw E].
  { rewrite length_app. cbn [String.length]. lia. }
  rewrite E. cbn. eauto.
Qed.

Lemma scan_value_time (t : time.Time) (f : nat) (depth : Z) (rest : string) :
  json.scan_value (S f) depth
    ((String dquote (time.formatRFC3339Nano t) ++ String dquote EmptyString) ++ rest)
  = Some (json.VString (time.formatRFC3339Nano t) (time.formatRFC3339Nano t), rest).
Proof.
  cbn [append json.scan_value]. rewrite app_assoc. cbn [append].
  change (Ascii.eqb dquote "{") with false.
  change (Ascii.eqb dquote "[") with false.
  change (Ascii.eqb dquote dquote) with true. cbn iota.
  rewrite scan_plain.
  - reflexivity.
  - apply plain_format.
  - rewrite length_app. cbn [String.length]. lia.
Qed.

Lemma skip_ws_dquote (r : string) : json.skip_ws (String dquote r) = String dquote r.
Proof. reflexivity. Qed.

Lemma skip_ws_quoted (s rest : string) :
  json.skip_ws (json.appendString s ++ rest) = json.appendString s ++ rest.
Proof. reflexivity. Qed.

Lemma scan_object (f : nat) (r : string) :
  json.scan_value (S f) 0 (String "{" (String dquote r))
  = time.bind (json.scan_members f 1 (String dquote r))
      (fun '(ms, r') => Some (json.VObject ms, r')).
Proof. reflexivity. Qed.

Lemma scan_member (f : nat) (depth : Z) (key rest : string) :
  plain_text key = true ->
  json.scan_members (S f) depth (String dquote (key ++ String dquote (String ":" rest)))
  = member_tail f depth key (json.scan_value f depth (json.skip_ws rest)).
Proof.
  intros P. cbn [json.scan_members].
  change (Ascii.eqb dquote dquote) with true. cbn iota.
  rewrite scan_plain by (auto; rewrite length_app; cbn [String.length]; lia).
  reflexivity.
Qed.

Lemma Marshal_shape (p : msgPacket) :
  time.representable (Timestamp p) ->
  json.Marshal p =
  Some (String "{" (String dquote ("sender" ++ String dquote (String ":"
    (json.appendString (Sender p) ++ String "," (String dquote ("text"
      ++ String dquote (String ":"
    (json.appendString (Text p) ++ String "," (String dquote ("timestamp"
      ++ String dquote (String ":"
    ((String dquote (time.formatRFC3339Nano (Timestamp p)) ++ String dquote EmptyString)
      ++ "}"))))))))))))).
Proof.
  intros R. unfold json.Marshal. rewrite (MarshalJSON_ok _ R).
  cbn [qq append Ascii.eqb Bool.eqb]. reflexivity.
Qed.

Lemma Unmarshal_Marshal (p : msgPacket) :
  valid_message p ->
  exists data, json.Marshal p = Some data /\ json.Unmarshal data = Some p.
Proof.
  intros (Vs & Vt & R).
  rewrite (Marshal_shape _ R).
  eexists. split; [reflexivity|].
  unfold json.Unmarshal, json.parse.
  match goal with |- context [String.length ?x] =>
    assert (L : exists n, String.length x = S (S (S (S (S n)))))
      by (cbn [String.length append]; eauto)
  end.
  destruct L as [n ->].
  change (json.skip_ws (String "{" ?r)) with (String "{" r).
  rewrite scan_object.
  rewrite scan_member by reflexivity. rewrite skip_ws_quoted.
  destruct (scan_value_string _ Vs (S (S (S n))) 1
    (String "," (String dquote ("text" ++ String dquote (String ":"
      (json.appendString (Text p) ++ String "," (String dquote ("timestamp"
        ++ String dquote (String ":"
      ((String dquote (time.formatRFC3339Nano (Timestamp p)) ++ String dquote EmptyString)
        ++ "}")))))))))) as [raw1 ->].
  unfold member_tail at 1. cbn [time.bind].
  change (json.skip_ws (String "," ?r)) with (String "," r). cbn iota.
  change (json.skip_ws (String dquote ?r)) with (String dquote r).
  rewrite scan_member by reflexivity. rewrite skip_ws_quoted.
  destruct (scan_value_string _ Vt (S (S n)) 1
    (String "," (String dquote ("timestamp"
        ++ String dquote (String ":"
      ((String dquote (time.formatRFC3339Nano (Timestamp p)) ++ String dquote EmptyString)
        ++ "}")))))) as [raw2 ->].
  unfold member_tail at 1. cbn [time.bind].
  change (json.skip_ws (String "," ?r)) with (String "," r). cbn iota.
  change (json.skip_ws (String dquote ?r)) with (String dquote r).
  rewrite scan_member by reflexivity.
  change (json.skip_ws ((String dquote ?a ++ ?b) ++ ?c)) with ((String dquote a ++ b) ++ c).
  rewrite scan_value_time.
  unfold member_tail. cbn [time.bind].
  change (json.skip_ws "}") with "}". cbn iota. cbn [time.bind].
  change (json.skip_ws EmptyString) with EmptyString. cbn iota.
  cbn [json.decode_members].
  change (json.field_of_key "sender") with (Some json.FSender).
  change (json.field_of_key "text") with (Some json.FText).
  change (json.field_of_key "timestamp") with (Some json.FTimestamp).
  cbn [json.store_string json.store_time time.bind Sender Text Timestamp msgPacket_zero].
  unfold time.UnmarshalJSON_string. rewrite (parse_format _ R).
  cbn [time.bind]. destruct p; reflexivity.
Qed.

(** ** UTF-8 validity under trimming *)


Lemma valid_loop_fuel2 (f : nat) :
  forall s f2, (String.length s <= f)%nat -> (String.length s <= f2)%nat ->
  utf8.valid_loop f s = utf8.valid_loop f2 s.
Proof.
  induction f as [|f IH]; intros s f2 H H2.
  - destruct s; [now destruct f2|simpl in H; lia].
  - destruct s as [|c r]; [now destruct f2|].
    destruct f2 as [|f2]; [simpl in H2; lia|].
    cbn [utf8.valid_loop].
    destruct (utf8.bad (utf8.DecodeRuneInString (String c r))) eqn:Bad; [reflexivity|].
    destruct (decode_ok c r Bad) as (N1 & _).
    assert (L : (String.length (drop (snd (utf8.DecodeRuneInString (String c r)))
                   (String c r)) <= String.length r)%nat).
    { rewrite length_drop. cbn [String.length]. lia. }
    cbn [String.length] in H, H2.
    apply IH; lia.
Qed.

Lemma valid_loop_fuel (f : nat) (s : string) :
  (String.length s <= f)%nat -> utf8.valid_loop f s = utf8.ValidString s.
Proof. intros H. apply valid_loop_fuel2; [assumption|lia]. Qed.

Lemma valid_step (c : ascii) (r : string) :
  utf8.ValidString (String c r) = true ->
  utf8.bad (utf8.DecodeRuneInString (String c r)) = false /\
  utf8.ValidString
    (drop (snd (utf8.DecodeRuneInString (String c r))) (String c r)) = true.
Proof.
  unfold utf8.ValidString at 1. cbn [String.length utf8.valid_loop].
  intros H.
  destruct (utf8.bad (utf8.DecodeRuneInString (String c r))) eqn:Bad; [discriminate|].
  split; [reflexivity|].
  destruct (decode_ok c r Bad) as (N1 & _).
  rewrite valid_loop_fuel in H; [assumption|].
  rewrite length_drop. cbn [String.length]. lia.
Qed.

Lemma valid_chunk (c : ascii) (r x : string) :
  utf8.bad (utf8.DecodeRuneInString (String c r)) = false ->
  utf8.ValidString x = true ->
  utf8.ValidString
    (take (snd (utf8.DecodeRuneInString (String c r))) (String c r) ++ x) = true.
Proof.
  intros Bad V.
  destruct (decode_ok c r Bad) as (N1 & N2 & N3 & N4).
  remember (utf8.DecodeRuneInString (String c r)) as d eqn:Ed.
  assert (T : exists t, take (snd d) (String c r) = String c t).
  { destruct (snd d); [lia|]. cbn. eauto. }
  destruct T as [t T].
  unfold utf8.ValidString. rewrite T. cbn [append String.length utf8.valid_loop].
  change (String c (t ++ x)) with (String c t ++ x). rewrite <- T.
  rewrite N4, Bad. rewrite (drop_take_app _ _ _ N2).
  rewrite valid_loop_fuel; [exact V|].
  rewrite length_app. lia.
Qed.

Lemma trim_left_valid (f : nat) :
  forall s, utf8.ValidString s = true ->
  utf8.ValidString (strings.trim_left f s) = true.
Proof.
  induction f as [|f IH]; intros s V.
  - destruct s; assumption.
  - destruct s as [|c r]; [assumption|].
    cbn [strings.trim_left].
    destruct (strings.IsSpace _); [|assumption].
    apply IH. apply (valid_step c r V).
Qed.

Lemma trim_right_valid (f : nat) :
  forall s, utf8.ValidString s = true ->
  utf8.ValidString (strings.trim_right f s) = true.
Proof.
  induction f as [|f IH]; intros s V.
  - destruct s; assumption.
  - destruct s as [|c r]; [assumption|].
    cbn [strings.trim_right].
    destruct (valid_step c r V) as [Bad V'].
    specialize (IH _ V').
    destruct (strings.trim_right f _) as [|c' r'] eqn:E.
    + destruct (strings.IsSpace _); [reflexivity|].
      rewrite <- (app_nil_r (take _ _)). now apply valid_chunk.
    + now apply valid_chunk.
Qed.

Lemma TrimSpace_valid (s : string) :
  utf8.ValidString s = true -> utf8.ValidString (strings.TrimSpace s) = true.
Proof.
  intros V. unfold strings.TrimSpace. apply trim_right_valid, trim_left_valid, V.
Qed.


(** ** encoding/json: what a cut-off encoding reads as *)

Lemma take_app_le (k : nat) (a b : string) :
  (k <= String.length a)%nat -> take k (a ++ b) = take k a.
Proof.
  revert k. induction a as [|c a IH]; intros [|k] H; cbn in *; try reflexivity.
  - lia.
  - now rewrite IH by lia.
Qed.

Lemma take_app_ge (k : nat) (a b : string) :
  take (String.length a + k) (a ++ b) = a ++ take k b.
Proof. induction a as [|c a IH]; cbn; [reflexivity|now rewrite IH]. Qed.

Lemma take_all (k : nat) (s : string) :
  (String.length s <= k)%nat -> take k s = s.
Proof.
  revert k. induction s as [|c s IH]; intros [|k] H; cbn in *; try reflexivity.
  - lia.
  - now rewrite IH by lia.
Qed.

Lemma length_take (k : nat) (s : string) :
  String.length (take k s) = Nat.min k (String.length s).
Proof.
  revert k. induction s as [|c s IH]; intros [|k]; cbn; try reflexivity.
  now rewrite IH.
Qed.

Lemma closes_app (a b : string) : inert a = true -> closes (a ++ b) = closes b.
Proof.
  remember (String.length a) as n eqn:L.
  assert (H : (String.length a <= n)%nat) by lia. clear L.
  revert a H. induction n as [|n IH]; intros [|c a] H I; cbn in *;
    try reflexivity; try lia.
  destruct (Ascii.eqb c dquote); [discriminate|].
  destruct (Ascii.eqb c backslash).
  - destruct a as [|e a]; [discriminate|]. cbn in *. apply IH; [lia|assumption].
  - apply IH; [lia|assumption].
Qed.

Lemma inert_app (a b : string) : inert a = true -> inert (a ++ b) = inert b.
Proof.
  remember (String.length a) as n eqn:L.
  assert (H : (String.length a <= n)%nat) by lia. clear L.
  revert a H. induction n as [|n IH]; intros [|c a] H I; cbn in *;
    try reflexivity; try lia.
  destruct (Ascii.eqb c dquote); [discriminate|].
  destruct (Ascii.eqb c backslash).
  - destruct a as [|e a]; [discriminate|]. cbn in *. apply IH; [lia|assumption].
  - apply IH; [lia|assumption].
Qed.

Lemma inert_open (a : string) : inert a = true -> closes a = false.
Proof.
  intros I. rewrite <- (app_nil_r a). now rewrite closes_app.
Qed.

(** A quote that closes a prefix closes the whole text. *)
Lemma closes_take (s : string) :
  forall k, closes (take k s) = true -> closes s = true.
Proof.
  remember (String.length s) as n eqn:L.
  assert (H : (String.length s <= n)%nat) by lia. clear L.
  revert s H. induction n as [|n IH]; intros [|c s] H [|k]; cbn in *;
    try discriminate; try lia.
  destruct (Ascii.eqb c dquote); [reflexivity|].
  destruct (Ascii.eqb c backslash).
  - destruct s as [|e s]; [now destruct k|].
    destruct k as [|k]; [discriminate|]. cbn in *. apply IH. lia.
  - apply IH. lia.
Qed.

Lemma high_inert (a : string) : all_high a = true -> inert a = true.
Proof.
  induction a as [|c a IH]; cbn; [reflexivity|].
  intros H. apply andb_prop in H. destruct H as [Hc Ha].
  rewrite (eqb_b2z c dquote) by (change (b2z dquote) with 34; lia).
  rewrite (eqb_b2z c backslash) by (change (b2z backslash) with 92; lia).
  auto.
Qed.

(** The bytes a rune of a multi-byte leading byte is decoded from. *)
Lemma decode_high (c0 : ascii) (r : string) :
  0x80 <= b2z c0 ->
  all_high (take (snd (utf8.DecodeRuneInString (String c0 r))) (String c0 r)) = true.
Proof.
  intros H.
  assert (One : all_high (take 1 (String c0 r)) = true).
  { cbn. replace (128 <=? b2z c0) with true by lia. reflexivity. }
  unfold utf8.DecodeRuneInString, utf8.RuneSelf.
  replace (b2z c0 <? 128) with false by lia.
  destruct (utf8.first (b2z c0)) as [[[sz lo] hi]|] eqn:E; [|exact One].
  destruct (first_spec _ _ _ _ E) as (Hlo & Hhi & F).
  destruct r as [|c1 r1]; [exact One|].
  destruct (Z.ltb_spec (b2z c1) lo) as [|L1]; [exact One|].
  destruct (Z.ltb_spec hi (b2z c1)) as [|L2]; [exact One|].
  cbn [orb].
  destruct (sz <=? 2)%nat.
  { cbn. replace (128 <=? b2z c0) with true by lia.
    replace (128 <=? b2z c1) with true by lia. reflexivity. }
  destruct r1 as [|c2 r2]; [exact One|].
  unfold utf8.is_cont.
  destruct (Z.leb_spec 128 (b2z c2)); [|exact One].
  destruct (Z.leb_spec (b2z c2) 191); [|exact One].
  cbn [andb negb].
  destruct (sz <=? 3)%nat.
  { cbn. replace (128 <=? b2z c0) with true by lia.
    replace (128 <=? b2z c1) with true by lia.
    replace (128 <=? b2z c2) with true by lia. reflexivity. }
  destruct r2 as [|c3 r3]; [exact One|].
  destruct (Z.leb_spec 128 (b2z c3)); [|exact One].
  destruct (Z.leb_spec (b2z c3) 191); [|exact One].
  cbn. replace (128 <=? b2z c0) with true by lia.
  replace (128 <=? b2z c1) with true by lia.
  replace (128 <=? b2z c2) with true by lia.
  replace (128 <=? b2z c3) with true by lia. reflexivity.
Qed.

Lemma hexval_plain (c : ascii) (x : Z) :
  json.hexval c = Some x ->
  Ascii.eqb c dquote = false /\ Ascii.eqb c backslash = false.
Proof.
  unfold json.hexval. intros H.
  assert (R : b2z c <> 34 /\ b2z c <> 92).
  { destruct ((48 <=? b2z c) && (b2z c <=? 57)) eqn:A; [lia|].
    destruct ((97 <=? b2z c) && (b2z c <=? 102)) eqn:B; [lia|].
    destruct ((65 <=? b2z c) && (b2z c <=? 70)) eqn:C; [lia|discriminate]. }
  split; apply eqb_b2z; [change (b2z dquote) with 34|change (b2z backslash) with 92];
    lia.
Qed.

Lemma closes_hex4 (r : string) (x : Z) :
  json.hex4 r = Some x -> closes r = closes (drop 4 r).
Proof.
  destruct r as [|a [|b [|c [|d r]]]]; try discriminate.
  cbn [json.hex4 drop].
  destruct (json.hexval a) eqn:A; [|discriminate].
  destruct (json.hexval b) eqn:B; [|discriminate].
  destruct (json.hexval c) eqn:C; [|discriminate].
  destruct (json.hexval d) eqn:D; [|discriminate].
  intros _. cbn [closes].
  destruct (hexval_plain _ _ A) as [-> ->].
  destruct (hexval_plain _ _ B) as [-> ->].
  destruct (hexval_plain _ _ C) as [-> ->].
  destruct (hexval_plain _ _ D) as [-> ->].
  reflexivity.
Qed.

Lemma getu4_some (c0 u : ascii) (r : string) :
  json.getu4 (String c0 (String u r)) <> -1 ->
  c0 = backslash /\ exists x, json.hex4 r = Some x.
Proof.
  destruct u as [[] [] [] [] [] [] [] []]; cbn [json.getu4];
    try (intros X; now contradiction X).
  destruct (Ascii.eqb_spec c0 backslash) as [->|]; [|intros X; now contradiction X].
  destruct (json.hex4 r); [eauto|intros X; now contradiction X].
Qed.

(** The second half of a surrogate pair is an escape of six bytes. *)
Lemma pair_closes (rr : Z) (r3 : string) :
  (json.utf16_DecodeRune rr (json.getu4 r3) =? utf8.RuneError) = false ->
  closes r3 = closes (drop 6 r3).
Proof.
  unfold json.utf16_DecodeRune.
  destruct ((55296 <=? rr) && (rr <? 56320) && (56320 <=? json.getu4 r3)
            && (json.getu4 r3 <? 57344)) eqn:P; [|discriminate].
  intros _.
  assert (G : json.getu4 r3 <> -1) by lia.
  destruct r3 as [|c0 [|u r4]]; try (now contradiction G).
  destruct (getu4_some _ _ _ G) as (-> & x & H).
  cbn [closes drop]. change (Ascii.eqb backslash dquote) with false.
  change (Ascii.eqb backslash backslash) with true. cbn iota.
  exact (closes_hex4 _ _ H).
Qed.

(** A string literal that is read to its end holds the quote that ends it. *)
Lemma scan_closes (f : nat) :
  forall s x, json.scan_string f s = Some x -> closes s = true.
Proof.
  induction f as [|f IH]; intros s x E; [discriminate|].
  destruct s as [|c r]; [discriminate|].
  cbn [json.scan_string] in E.
  destruct (Ascii.eqb c dquote) eqn:Q; [cbn; now rewrite Q|].
  destruct (Ascii.eqb c backslash) eqn:BS.
  - cbn [closes]. rewrite Q, BS.
    destruct r as [|e r2]; [discriminate|].
    destruct (json.unescape e) as [ch|].
    + destruct (json.scan_string f r2) as [y|] eqn:S2; [|discriminate].
      exact (IH _ _ S2).
    + destruct (Ascii.eqb e "u"); [|discriminate].
      destruct (json.hex4 r2) as [rr|] eqn:H4; [|discriminate].
      rewrite (closes_hex4 _ _ H4). cbv zeta in E.
      destruct (json.IsSurrogate rr).
      * destruct (json.utf16_DecodeRune rr (json.getu4 (drop 4 r2)) =? utf8.RuneError)
          eqn:D; cbn [negb] in E.
        -- destruct (json.scan_string f (drop 4 r2)) as [y|] eqn:S2; [|discriminate].
           exact (IH _ _ S2).
        -- destruct (json.scan_string f (drop 6 (drop 4 r2))) as [y|] eqn:S2;
             [|discriminate].
           rewrite (pair_closes _ _ D). exact (IH _ _ S2).
      * destruct (json.scan_string f (drop 4 r2)) as [y|] eqn:S2; [|discriminate].
        exact (IH _ _ S2).
  - destruct (b2z c <? 32); [discriminate|].
    destruct (b2z c <? utf8.RuneSelf) eqn:A.
    + destruct (json.scan_string f r) as [y|] eqn:S2; [|discriminate].
      cbn [closes]. rewrite Q, BS. exact (IH _ _ S2).
    + cbv zeta in E.
      destruct (json.scan_string f
                  (drop (snd (utf8.DecodeRuneInString (String c r))) (String c r)))
        as [y|] eqn:S2; [|discriminate].
      rewrite <- (take_drop (snd (utf8.DecodeRuneInString (String c r))) (String c r)).
      rewrite closes_app; [exact (IH _ _ S2)|].
      apply high_inert, decode_high. unfold utf8.RuneSelf in A. lia.
Qed.

Lemma inert_escape_byte (c : ascii) :
  (b2z c <? 128) = true -> json.htmlSafe (b2z c) = false ->
  inert (json.escape_byte c) = true.
Proof.
  destruct c as [[] [] [] [] [] [] [] []]; intros H1 H2;
    try (vm_compute in H1; discriminate H1);
    try (vm_compute in H2; discriminate H2);
    reflexivity.
Qed.

(** What [appendString] writes between the quotes holds no quote of its
    own. *)
Lemma inert_loop (n : nat) :
  forall s, inert (json.appendString_loop n s) = true.
Proof.
  induction n as [|n IH]; intros [|c rest]; cbn [json.appendString_loop];
    try reflexivity.
  destruct (b2z c <? utf8.RuneSelf) eqn:A.
  - destruct (json.htmlSafe (b2z c)) eqn:S.
    + cbn [append inert]. unfold json.htmlSafe in S.
      rewrite (eqb_b2z c dquote) by (change (b2z dquote) with 34; lia).
      rewrite (eqb_b2z c backslash) by (change (b2z backslash) with 92; lia).
      apply IH.
    + rewrite inert_app by (apply inert_escape_byte; assumption). apply IH.
  - destruct (utf8.bad _).
    + rewrite inert_app by reflexivity. apply IH.
    + destruct ((fst (utf8.DecodeRuneInString (String c rest)) =? 8232)
                || (fst (utf8.DecodeRuneInString (String c rest)) =? 8233)) eqn:LS.
      * assert (X : fst (utf8.DecodeRuneInString (String c rest)) = 8232 \/
                    fst (utf8.DecodeRuneInString (String c rest)) = 8233) by lia.
        rewrite inert_app by reflexivity.
        destruct X as [-> | ->]; (rewrite inert_app by reflexivity); apply IH.
      * rewrite inert_app; [apply IH|].
        apply high_inert, decode_high. unfold utf8.RuneSelf in A. lia.
Qed.

(** A string literal cut before its closing quote is not read. *)
Lemma scan_cut (body : string) (k f : nat) :
  inert body = true -> json.scan_string f (take k body) = None.
Proof.
  intros I. destruct (json.scan_string f (take k body)) as [x|] eqn:E; [|reflexivity].
  apply scan_closes, closes_take in E. rewrite (inert_open _ I) in E. discriminate.
Qed.

Lemma plain_inert (s : string) : plain_text s = true -> inert s = true.
Proof.
  induction s as [|c s IH]; cbn; [reflexivity|].
  intros H. apply andb_prop in H. destruct H as [Hc Hs]. unfold plain_byte in Hc.
  rewrite (eqb_b2z c dquote) by (change (b2z dquote) with 34; lia).
  rewrite (eqb_b2z c backslash) by (change (b2z backslash) with 92; lia).
  auto.
Qed.

Lemma literal_plain (s : string) : plain_text s = true -> literal s.
Proof.
  intros P. split; [now apply plain_inert|].
  intros f rest Hf. exists s, s. now apply scan_plain.
Qed.

Lemma literal_loop (s : string) :
  utf8.ValidString s = true -> literal (json.appendString_loop (String.length s) s).
Proof.
  intros V. split; [apply inert_loop|].
  intros f rest Hf.
  destruct (string_roundtrip (String.length s) s (le_n _) V f rest Hf) as [raw E].
  eauto.
Qed.

Ltac split_at k n :=
  let j := fresh "j" in
  let E := fresh in
  assert (E : exists j, k = (n + S j)%nat) by (exists (k - n - 1)%nat; lia);
  destruct E as [j ->].

Lemma member_cut (key body tail : string) :
  plain_text key = true -> literal body ->
  (forall j, (j < String.length tail)%nat -> tail_dead (take j tail)) ->
  uncuttable (member_text key body tail).
Proof.
  intros P [I Sc] TD k Hk f depth.
  unfold member_text in *. cbn [String.length] in Hk.
  rewrite !length_app in Hk. cbn [String.length] in Hk.
  rewrite !length_app in Hk. cbn [String.length] in Hk.
  destruct f as [|f]; [reflexivity|].
  destruct k as [|k]; [reflexivity|]. cbn [take].
  destruct (Nat.le_gt_cases k (String.length key)) as [Le|Gt].
  { rewrite take_app_le by assumption. cbn [json.scan_members].
    change (Ascii.eqb dquote dquote) with true. cbn iota.
    rewrite scan_cut by (now apply plain_inert). reflexivity. }
  split_at k (String.length key). rewrite take_app_ge. cbn [take].
  destruct j as [|k2].
  { cbn [take json.scan_members].
    change (Ascii.eqb dquote dquote) with true. cbn iota.
    rewrite scan_plain by (auto; rewrite length_app; cbn [String.length]; lia).
    reflexivity. }
  cbn [take]. rewrite scan_member by assumption.
  destruct k2 as [|k3]; [destruct f; reflexivity|].
  cbn [take]. change (json.skip_ws (String dquote ?x)) with (String dquote x).
  destruct f as [|f]; [reflexivity|].
  cbn [json.scan_value].
  change (Ascii.eqb dquote "{") with false.
  change (Ascii.eqb dquote "[") with false.
  change (Ascii.eqb dquote dquote) with true. cbn iota.
  destruct (Nat.le_gt_cases k3 (String.length body)) as [Le|Gt2].
  { rewrite take_app_le by assumption. rewrite scan_cut by assumption. reflexivity. }
  split_at k3 (String.length body). rewrite take_app_ge. cbn [take].
  destruct (Sc (String.length (body ++ String dquote (take j tail))) (take j tail))
    as (dec & raw & E).
  { rewrite length_app. cbn [String.length]. lia. }
  rewrite E. cbn [time.bind]. apply TD. lia.
Qed.

Lemma tail_dead_end : tail_dead EmptyString.
Proof. intros f depth key v. reflexivity. Qed.

Lemma tail_brace (j : nat) : (j < String.length "}")%nat -> tail_dead (take j "}").
Proof.
  intros H. destruct j; [apply tail_dead_end|cbn in H; lia].
Qed.

Lemma tail_comma (key body tail : string) :
  uncuttable (member_text key body tail) ->
  forall j, (j < String.length (String "," (member_text key body tail)))%nat ->
  tail_dead (take j (String "," (member_text key body tail))).
Proof.
  intros D j Hj. destruct j as [|j]; [apply tail_dead_end|].
  cbn [String.length] in Hj.
  intros f depth k v. cbn [take]. unfold member_tail. cbn [time.bind].
  change (json.skip_ws (String "," ?x)) with (String "," x). cbn iota.
  assert (W : json.skip_ws (take j (member_text key body tail))
              = take j (member_text key body tail)).
  { destruct j; reflexivity. }
  rewrite W, D by lia. reflexivity.
Qed.

Lemma appendString_app (s rest : string) :
  json.appendString s ++ rest
  = String dquote (json.appendString_loop (String.length s) s ++ String dquote rest).
Proof. unfold json.appendString. cbn [append]. now rewrite app_assoc. Qed.

Lemma Marshal_members (p : msgPacket) :
  time.representable (Timestamp p) ->
  json.Marshal p =
  Some (String "{"
    (member_text "sender" (json.appendString_loop (String.length (Sender p)) (Sender p))
      (String ","
    (member_text "text" (json.appendString_loop (String.length (Text p)) (Text p))
      (String ","
    (member_text "timestamp" (time.formatRFC3339Nano (Timestamp p)) "}")))))).
Proof.
  intros R. rewrite (Marshal_shape _ R). unfold member_text.
  rewrite !appendString_app. cbn [append]. rewrite app_assoc. reflexivity.
Qed.

Lemma object_cut (x : string) (k : nat) :
  uncuttable (String dquote x) ->
  (k < String.length (String "{" (String dquote x)))%nat ->
  json.Unmarshal (take k (String "{" (String dquote x))) = None.
Proof.
  intros D Hk. cbn [String.length] in Hk.
  destruct k as [|[|k]]; [reflexivity|reflexivity|]. cbn [take].
  unfold json.Unmarshal, json.parse.
  change (json.skip_ws (String "{" ?y)) with (String "{" y).
  rewrite scan_object.
  pose proof (D (S k) ltac:(cbn [String.length]; lia)) as E. cbn [take] in E.
  rewrite E. reflexivity.
Qed.

(** No proper prefix of an encoded message decodes. *)
Lemma Marshal_cut (p : msgPacket) (data : string) (k : nat) :
  valid_message p -> json.Marshal p = Some data ->
  (k < String.length data)%nat -> json.Unmarshal (take k data) = None.
Proof.
  intros (Vs & Vt & R) M Hk.
  rewrite (Marshal_members _ R) in M. inversion M; subst data; clear M.
  set (m3 := member_text "timestamp" (time.formatRFC3339Nano (Timestamp p)) "}") in *.
  set (b2 := json.appendString_loop (String.length (Text p)) (Text p)) in *.
  set (b1 := json.appendString_loop (String.length (Sender p)) (Sender p)) in *.
  assert (D3 : uncuttable m3).
  { apply member_cut; [reflexivity|apply literal_plain, plain_format|apply tail_brace]. }
  assert (D2 : uncuttable (member_text "text" b2 (String "," m3))).
  { apply member_cut; [reflexivity|now apply literal_loop|now apply tail_comma]. }
  assert (D1 : uncuttable (member_text "sender" b1
                             (String "," (member_text "text" b2 (String "," m3))))).
  { apply member_cut; [reflexivity|now apply literal_loop|now apply tail_comma]. }
  exact (object_cut _ k D1 Hk).
Qed.

(** ** encoding/json: the size of what is written *)

Lemma decode_width (s : string) : (snd (utf8.DecodeRuneInString s) <= 4)%nat.
Proof.
  unfold utf8.DecodeRuneInString.
  repeat match goal with
         | |- context [match ?x with _ => _ end] => destruct x
         end; cbn [snd]; lia.
Qed.

Lemma escape_byte_max (c : ascii) : (String.length (json.escape_byte c) <= 6)%nat.
Proof.
  unfold json.escape_byte. repeat case_cmp; cbn; lia.
Qed.

Lemma loop_length (n : nat) :
  forall s, (String.length s <= n)%nat ->
  (String.length s <= String.length (json.appendString_loop n s)
   <= 6 * String.length s)%nat.
Proof.
  induction n as [|n IH]; intros [|c rest] H; cbn [json.appendString_loop];
    cbn [String.length] in *; try lia.
  destruct (b2z c <? utf8.RuneSelf) eqn:A.
  - rewrite length_app. specialize (IH rest ltac:(lia)).
    destruct (json.htmlSafe (b2z c)).
    + cbn [String.length]. lia.
    + pose proof (escape_byte_length c). pose proof (escape_byte_max c). lia.
  - destruct (utf8.bad (utf8.DecodeRuneInString (String c rest))) eqn:Bad.
    + rewrite length_app. specialize (IH rest ltac:(lia)). cbn [String.length]. lia.
    + destruct (decode_ok c rest Bad) as (N1 & N2 & _ & _).
      pose proof (decode_width (String c rest)) as W.
      remember (utf8.DecodeRuneInString (String c rest)) as d eqn:Ed.
      pose proof (length_drop (snd d) (String c rest)) as LD.
      pose proof (length_take (snd d) (String c rest)) as LT.
      cbn [String.length] in LD, LT.
      specialize (IH (drop (snd d) (String c rest)) ltac:(lia)).
      destruct ((fst d =? 8232) || (fst d =? 8233)).
      * rewrite !length_app. cbn [String.length]. lia.
      * rewrite length_app. lia.
Qed.

Lemma digits_length (w : nat) (x : Z) : String.length (time.digits w x) = w.
Proof.
  revert x. induction w as [|w IH]; intros x; cbn [time.digits]; [reflexivity|].
  rewrite length_app, IH. cbn. lia.
Qed.

Lemma trim_zeros_length (w : nat) (x : Z) :
  (String.length (time.trim_zeros w x) <= w)%nat.
Proof.
  revert x. induction w as [|w IH]; intros x; cbn [time.trim_zeros]; [cbn; lia|].
  destruct (x mod 10 =? 0).
  - specialize (IH (x / 10)). lia.
  - rewrite digits_length. lia.
Qed.

Lemma format_length (t : time.Time) :
  (20 <= String.length (time.formatRFC3339Nano t) <= 35)%nat.
Proof.
  unfold time.formatRFC3339Nano, time.appendNano, time.appendZone.
  pose proof (trim_zeros_length 9 (time.Nanosecond t)).
  destruct (time.Nanosecond t =? 0); destruct (time.ZoneOffset t =? 0);
    destruct (Z.quot (time.ZoneOffset t) 60 <? 0);
    repeat (rewrite length_app || rewrite digits_length);
    cbn [String.length]; lia.
Qed.

Lemma MarshalJSON_length (t : time.Time) (ts : string) :
  time.MarshalJSON t = Some ts -> (22 <= String.length ts <= 37)%nat.
Proof.
  unfold time.MarshalJSON.
  destruct (_ || _); [discriminate|]. destruct (24 <=? _); [discriminate|].
  pose proof (format_length t).
  remember (time.formatRFC3339Nano t) as fmt.
  intros E. inversion E; subst ts; clear E.
  cbn [String.length append]. rewrite length_app. cbn [String.length]. lia.
Qed.

Lemma Marshal_length (p : msgPacket) (data : string) :
  json.Marshal p = Some data ->
  (String.length (Sender p) + String.length (Text p) + 58 <= String.length data
   <= 6 * (String.length (Sender p) + String.length (Text p)) + 73)%nat.
Proof.
  unfold json.Marshal.
  destruct (time.MarshalJSON (Timestamp p)) as [ts|] eqn:T; [|discriminate].
  apply MarshalJSON_length in T.
  pose proof (loop_length _ (Sender p) (le_n _)).
  pose proof (loop_length _ (Text p) (le_n _)).
  remember (json.appendString_loop _ (Sender p)) as b1.
  remember (json.appendString_loop _ (Text p)) as b2.
  unfold json.appendString. rewrite <- Heqb1, <- Heqb2.
  intros E. inversion E; subst data; clear E.
  cbn [qq Ascii.eqb Bool.eqb].
  repeat (rewrite length_app || cbn [String.length append]). lia.
Qed.

(** ** strings: what trimming leaves and what it removes *)

Lemma decode_pos (c : ascii) (r : string) :
  (1 <= snd (utf8.DecodeRuneInString (String c r)))%nat.
Proof.
  destruct (utf8.bad (utf8.DecodeRuneInString (String c r))) eqn:Bad.
  - unfold utf8.bad in Bad. apply andb_prop in Bad. destruct Bad as [_ W].
    apply Nat.eqb_eq in W. lia.
  - apply (decode_ok c r Bad).
Qed.

Lemma space_not_bad (d : Z * nat) :
  strings.IsSpace (fst d) = true -> utf8.bad d = false.
Proof.
  intros S. unfold utf8.bad.
  destruct (Z.eqb_spec (fst d) utf8.RuneError) as [E|]; [|reflexivity].
  rewrite E in S. discriminate S.
Qed.

Lemma drop_shorter (c : ascii) (r : string) :
  (String.length (drop (snd (utf8.DecodeRuneInString (String c r))) (String c r))
   <= String.length r)%nat.
Proof.
  pose proof (decode_pos c r). rewrite length_drop. cbn [String.length]. lia.
Qed.

Lemma all_space_fuel2 (f : nat) :
  forall s f2, (String.length s <= f)%nat -> (String.length s <= f2)%nat ->
  all_space f s = all_space f2 s.
Proof.
  induction f as [|f IH]; intros s f2 H H2.
  - destruct s; [now destruct f2|simpl in H; lia].
  - destruct s as [|c r]; [now destruct f2|].
    destruct f2 as [|f2]; [simpl in H2; lia|].
    cbn [all_space]. f_equal.
    pose proof (drop_shorter c r). cbn [String.length] in H, H2.
    apply IH; lia.
Qed.

Lemma all_space_fuel (f : nat) (s : string) :
  (String.length s <= f)%nat -> all_space f s = blank s.
Proof. intros H. apply all_space_fuel2; [assumption|lia]. Qed.

Lemma blank_step (c : ascii) (r : string) :
  blank (String c r)
  = strings.IsSpace (fst (utf8.DecodeRuneInString (String c r)))
    && blank (drop (snd (utf8.DecodeRuneInString (String c r))) (String c r)).
Proof.
  unfold blank at 1. cbn [String.length all_space]. f_equal.
  apply all_space_fuel, drop_shorter.
Qed.

(** The bytes of a rune, as a text [String c t]. *)
Lemma chunk_head (c : ascii) (r : string) :
  exists t,
    take (snd (utf8.DecodeRuneInString (String c r))) (String c r) = String c t.
Proof.
  pose proof (decode_pos c r).
  destruct (snd (utf8.DecodeRuneInString (String c r))); [lia|]. cbn. eauto.
Qed.

Lemma decode_chunk (c : ascii) (r x : string) :
  utf8.bad (utf8.DecodeRuneInString (String c r)) = false ->
  exists t,
    take (snd (utf8.DecodeRuneInString (String c r))) (String c r) = String c t /\
    utf8.DecodeRuneInString (String c (t ++ x)) = utf8.DecodeRuneInString (String c r) /\
    drop (snd (utf8.DecodeRuneInString (String c r))) (String c (t ++ x)) = x.
Proof.
  intros Bad. destruct (decode_ok c r Bad) as (N1 & N2 & N3 & N4).
  destruct (chunk_head c r) as [t T]. exists t. split; [exact T|].
  change (String c (t ++ x)) with (String c t ++ x). rewrite <- T.
  split; [apply N4|apply (drop_take_app _ _ _ N2)].
Qed.

Lemma blank_chunk (c : ascii) (r x : string) :
  strings.IsSpace (fst (utf8.DecodeRuneInString (String c r))) = true ->
  blank x = true ->
  blank (take (snd (utf8.DecodeRuneInString (String c r))) (String c r) ++ x) = true.
Proof.
  intros S Bx.
  destruct (decode_chunk c r x (space_not_bad _ S)) as (t & T & D & Dr).
  rewrite T. cbn [append]. rewrite blank_step, D, Dr, S, Bx. reflexivity.
Qed.

Lemma trim_left_split (f : nat) :
  forall s, exists pre, s = pre ++ strings.trim_left f s /\ blank pre = true.
Proof.
  induction f as [|f IH]; intros s.
  - exists EmptyString. destruct s; split; reflexivity.
  - destruct s as [|c r]; [exists EmptyString; split; reflexivity|].
    cbn [strings.trim_left].
    destruct (strings.IsSpace (fst (utf8.DecodeRuneInString (String c r)))) eqn:S.
    + destruct (IH (drop (snd (utf8.DecodeRuneInString (String c r))) (String c r)))
        as (pre & E & Bp).
      exists (take (snd (utf8.DecodeRuneInString (String c r))) (String c r) ++ pre).
      split; [|now apply blank_chunk].
      rewrite app_assoc, <- E. now rewrite take_drop.
    + exists EmptyString. split; reflexivity.
Qed.

Lemma trim_left_head (f : nat) :
  forall s, (String.length s <= f)%nat ->
  strings.trim_left f s = EmptyString \/
  strings.IsSpace (fst (utf8.DecodeRuneInString (strings.trim_left f s))) = false.
Proof.
  induction f as [|f IH]; intros s H.
  - destruct s; [now left|simpl in H; lia].
  - destruct s as [|c r]; [now left|].
    cbn [strings.trim_left].
    destruct (strings.IsSpace (fst (utf8.DecodeRuneInString (String c r)))) eqn:S.
    + apply IH. pose proof (drop_shorter c r). cbn [String.length] in H. lia.
    + now right.
Qed.

Lemma trim_right_split (f : nat) :
  forall s, exists post, s = strings.trim_right f s ++ post /\ blank post = true.
Proof.
  induction f as [|f IH]; intros s.
  - exists EmptyString. destruct s; cbn; rewrite ?app_nil_r; split; reflexivity.
  - destruct s as [|c r]; [exists EmptyString; split; reflexivity|].
    cbn [strings.trim_right].
    destruct (IH (drop (snd (utf8.DecodeRuneInString (String c r))) (String c r)))
      as (post & E & Bp).
    destruct (strings.trim_right f
                (drop (snd (utf8.DecodeRuneInString (String c r))) (String c r)))
      as [|c' r'] eqn:R.
    + cbn [append] in E.
      destruct (strings.IsSpace (fst (utf8.DecodeRuneInString (String c r)))) eqn:S.
      * exists (String c r). split; [reflexivity|].
        rewrite blank_step, S, E. exact Bp.
      * exists post. split; [|exact Bp]. rewrite <- E. now rewrite take_drop.
    + exists post. split; [|exact Bp].
      rewrite app_assoc, <- E. now rewrite take_drop.
Qed.

Lemma trim_right_empty (f : nat) : strings.trim_right f EmptyString = EmptyString.
Proof. now destruct f. Qed.

Lemma take_chunk (c : ascii) (r t x : string) :
  utf8.bad (utf8.DecodeRuneInString (String c r)) = false ->
  take (snd (utf8.DecodeRuneInString (String c r))) (String c r) = String c t ->
  take (snd (utf8.DecodeRuneInString (String c r))) (String c (t ++ x)) = String c t.
Proof.
  intros Bad T. destruct (decode_ok c r Bad) as (_ & N2 & _).
  change (String c (t ++ x)) with (String c t ++ x). rewrite <- T.
  rewrite take_app_le by lia. apply take_all. lia.
Qed.

(** One turn of [trim_right] on a rune followed by [x]. *)
Lemma trim_right_chunk (f : nat) (c : ascii) (r t x : string) :
  utf8.bad (utf8.DecodeRuneInString (String c r)) = false ->
  take (snd (utf8.DecodeRuneInString (String c r))) (String c r) = String c t ->
  strings.trim_right (S f) (String c (t ++ x))
  = match strings.trim_right f x with
    | EmptyString =>
      if strings.IsSpace (fst (utf8.DecodeRuneInString (String c r)))
      then EmptyString else String c t
    | rest => String c t ++ rest
    end.
Proof.
  intros Bad T. cbn [strings.trim_right].
  destruct (decode_chunk c r x Bad) as (t' & T' & D & Dr).
  assert (t' = t) by congruence. subst t'.
  rewrite D, Dr, (take_chunk c r t x Bad T). reflexivity.
Qed.

Lemma trim_right_unfold (f : nat) (c : ascii) (r : string) :
  exists t,
    take (snd (utf8.DecodeRuneInString (String c r))) (String c r) = String c t /\
    strings.trim_right (S f) (String c r)
    = match strings.trim_right f
              (drop (snd (utf8.DecodeRuneInString (String c r))) (String c r)) with
      | EmptyString =>
        if strings.IsSpace (fst (utf8.DecodeRuneInString (String c r)))
        then EmptyString else String c t
      | rest => String c t ++ rest
      end.
Proof.
  destruct (chunk_head c r) as [t T]. exists t. split; [exact T|].
  cbn [strings.trim_right]. now rewrite T.
Qed.

Lemma trim_right_idem (f : nat) :
  forall s, utf8.ValidString s = true -> (String.length s <= f)%nat ->
  strings.trim_right f (strings.trim_right f s) = strings.trim_right f s.
Proof.
  induction f as [|f IH]; intros s V H.
  - destruct s; [reflexivity|simpl in H; lia].
  - destruct s as [|c r]; [reflexivity|].
    destruct (valid_step c r V) as [Bad V'].
    pose proof (drop_shorter c r) as Sh. cbn [String.length] in H.
    specialize (IH _ V' ltac:(lia)).
    destruct (trim_right_unfold f c r) as (t & T & ->).
    destruct (strings.trim_right f
                (drop (snd (utf8.DecodeRuneInString (String c r))) (String c r)))
      as [|c' r'] eqn:R.
    + destruct (strings.IsSpace (fst (utf8.DecodeRuneInString (String c r)))) eqn:S;
        [reflexivity|].
      rewrite <- (app_nil_r t) at 1.
      rewrite (trim_right_chunk f c r t EmptyString Bad T), trim_right_empty, S.
      reflexivity.
    + cbn [append].
      rewrite (trim_right_chunk f c r t (String c' r') Bad T), IH. reflexivity.
Qed.

Lemma trim_right_blank (f : nat) :
  forall b, blank b = true -> (String.length b <= f)%nat ->
  strings.trim_right f b = EmptyString.
Proof.
  induction f as [|f IH]; intros b B H.
  - destruct b; [reflexivity|simpl in H; lia].
  - destruct b as [|c r]; [reflexivity|].
    rewrite blank_step in B. apply andb_prop in B. destruct B as [S B].
    pose proof (drop_shorter c r) as Sh. cbn [String.length] in H.
    cbn [strings.trim_right]. rewrite (IH _ B) by lia. now rewrite S.
Qed.

(** White space after a text does not change what trimming leaves of it. *)
Lemma trim_right_suffix (f : nat) :
  forall a b, utf8.ValidString a = true -> blank b = true ->
  (String.length (a ++ b) <= f)%nat ->
  strings.trim_right f (a ++ b) = strings.trim_right f a.
Proof.
  induction f as [|f IH]; intros a b V B H.
  - destruct a; [destruct b; [reflexivity|simpl in H; lia]|simpl in H; lia].
  - destruct a as [|c r].
    { cbn [append]. rewrite trim_right_empty. now apply trim_right_blank. }
    destruct (valid_step c r V) as [Bad V'].
    pose proof (drop_shorter c r) as Sh.
    rewrite length_app in H. cbn [String.length] in H.
    destruct (trim_right_unfold f c r) as (t & T & ->).
    assert (E : String c r ++ b
                = String c (t ++ (drop (snd (utf8.DecodeRuneInString (String c r)))
                                    (String c r) ++ b))).
    { rewrite <- (take_drop (snd (utf8.DecodeRuneInString (String c r))) (String c r))
        at 1.
      rewrite T. cbn [append]. now rewrite app_assoc. }
    rewrite E, (trim_right_chunk f c r t _ Bad T).
    rewrite IH; [reflexivity|assumption|assumption|].
    rewrite length_app. lia.
Qed.

Lemma trim_right_length (f : nat) (s : string) :
  (String.length (strings.trim_right f s) <= String.length s)%nat.
Proof.
  destruct (trim_right_split f s) as (post & E & _).
  rewrite E at 2. rewrite length_app. lia.
Qed.

(** *** Where a text can be cut *)

Lemma app_split (a b c d : string) :
  a ++ b = c ++ d ->
  (exists x, a = c ++ x /\ d = x ++ b) \/
  (exists x, x <> EmptyString /\ c = a ++ x /\ b = x ++ d).
Proof.
  revert c. induction a as [|a0 a IH]; intros c E.
  - destruct c as [|c0 c].
    + left. exists EmptyString. auto.
    + right. exists (String c0 c). cbn in *. split; [discriminate|auto].
  - destruct c as [|c0 c].
    + left. exists (String a0 a). cbn in *. auto.
    + cbn in E. inversion E; subst c0.
      destruct (IH _ H1) as [(x & -> & ->)|(x & N & -> & ->)].
      * left. exists x. auto.
      * right. exists x. auto.
Qed.

Lemma all_cont_suffix (a x : string) :
  all_cont (a ++ x) = true -> all_cont x = true.
Proof.
  induction a as [|c a IH]; cbn; [auto|].
  intros H. apply andb_prop in H. now apply IH.
Qed.

(** The bytes of a rune after the first are continuation bytes. *)
Lemma decode_tail (c0 : ascii) (r t : string) :
  utf8.bad (utf8.DecodeRuneInString (String c0 r)) = false ->
  take (snd (utf8.DecodeRuneInString (String c0 r))) (String c0 r) = String c0 t ->
  all_cont t = true.
Proof.
  unfold utf8.DecodeRuneInString, utf8.RuneSelf.
  destruct (Z.ltb_spec (b2z c0) 128) as [A|A].
  { cbn. intros _ E. now inversion E. }
  destruct (utf8.first (b2z c0)) as [[[sz lo] hi]|] eqn:E; [|discriminate].
  destruct (first_spec _ _ _ _ E) as (Hlo & Hhi & F).
  destruct r as [|c1 r1]; [discriminate|].
  destruct (Z.ltb_spec (b2z c1) lo) as [|L1]; [discriminate|].
  destruct (Z.ltb_spec hi (b2z c1)) as [|L2]; [discriminate|].
  cbn [orb].
  assert (C1 : utf8.is_cont (b2z c1) = true) by (unfold utf8.is_cont; lia).
  destruct (sz <=? 2)%nat.
  { cbn. intros _ T. inversion T. cbn. now rewrite C1. }
  destruct r1 as [|c2 r2]; [discriminate|].
  destruct (utf8.is_cont (b2z c2)) eqn:C2; [|discriminate]. cbn [negb].
  destruct (sz <=? 3)%nat.
  { cbn. intros _ T. inversion T. cbn. now rewrite C1, C2. }
  destruct r2 as [|c3 r3]; [discriminate|].
  destruct (utf8.is_cont (b2z c3)) eqn:C3; [|discriminate]. cbn [negb].
  cbn. intros _ T. inversion T. cbn. now rewrite C1, C2, C3.
Qed.

Lemma cont_decode (c : ascii) (r : string) :
  utf8.is_cont (b2z c) = true ->
  utf8.DecodeRuneInString (String c r) = (utf8.RuneError, 1%nat).
Proof.
  unfold utf8.is_cont. intros H.
  unfold utf8.DecodeRuneInString, utf8.RuneSelf, utf8.first.
  replace (b2z c <? 128) with false by lia.
  replace (b2z c <? 194) with true by lia. reflexivity.
Qed.

Lemma cont_not_blank (c : ascii) (r : string) :
  utf8.is_cont (b2z c) = true -> blank (String c r) = false.
Proof. intros H. rewrite blank_step, (cont_decode c r H). reflexivity. Qed.

(** A valid text is cut between two runes, or else the second part starts
    with a continuation byte. *)
Lemma valid_split (f : nat) :
  forall t a b, (String.length t <= f)%nat -> utf8.ValidString t = true ->
  t = a ++ b ->
  utf8.ValidString a = true \/
  exists c r, b = String c r /\ utf8.is_cont (b2z c) = true.
Proof.
  induction f as [|f IH]; intros t a b H V E.
  - destruct t; [|simpl in H; lia]. destruct a; [now left|discriminate].
  - destruct t as [|c r]; [destruct a; [now left|discriminate]|].
    destruct (valid_step c r V) as [Bad V'].
    pose proof (drop_shorter c r) as Sh. cbn [String.length] in H.
    destruct (chunk_head c r) as [t T].
    pose proof (decode_tail c r t Bad T) as Ct.
    rewrite <- (take_drop (snd (utf8.DecodeRuneInString (String c r))) (String c r))
      in E.
    symmetry in E. apply app_split in E.
    destruct E as [(x & -> & Ex)|(x & Nx & Ea & ->)].
    + assert (Hd : (String.length (drop (snd (utf8.DecodeRuneInString (String c r)))
                                      (String c r)) <= f)%nat) by lia.
      destruct (IH _ x b Hd V' Ex) as [Vx|Cb]; [left|now right].
      now apply valid_chunk.
    + destruct a as [|a0 a]; [now left|]. right.
      rewrite T in Ea. cbn in Ea. inversion Ea; subst a0.
      rewrite H2 in Ct. apply all_cont_suffix in Ct.
      destruct x as [|x0 x]; [now contradiction Nx|].
      cbn in Ct. apply andb_prop in Ct. destruct Ct as [C0 _].
      exists x0, (x ++ drop (snd (utf8.DecodeRuneInString (String c r))) (String c r)).
      auto.
Qed.

(** What [TrimSpace] returns does not end in white space. *)
Lemma trim_right_tail (f : nat) (s a b : string) :
  utf8.ValidString s = true -> (String.length s <= f)%nat ->
  strings.trim_right f s = a ++ b -> b <> EmptyString -> blank b = false.
Proof.
  intros V H E Nb.
  destruct (blank b) eqn:B; [|reflexivity]. exfalso.
  pose proof (trim_right_valid f s V) as Vt.
  pose proof (trim_right_length f s) as Lt.
  destruct (valid_split (String.length (strings.trim_right f s)) _ a b (le_n _) Vt E)
    as [Va|(c & r & -> & C)].
  - pose proof (trim_right_idem f s V H) as I.
    rewrite E in I at 1 2.
    rewrite trim_right_suffix in I; try assumption; [|rewrite <- E; lia].
    pose proof (trim_right_length f a) as La.
    rewrite I, length_app in La.
    destruct b; [now contradiction Nb|cbn [String.length] in La; lia].
  - rewrite (cont_not_blank c r C) in B. discriminate.
Qed.

Lemma trim_right_head (f : nat) (s : string) :
  utf8.ValidString s = true ->
  strings.IsSpace (fst (utf8.DecodeRuneInString s)) = false ->
  strings.trim_right f s = EmptyString \/
  strings.IsSpace (fst (utf8.DecodeRuneInString (strings.trim_right f s))) = false.
Proof.
  intros V S. destruct f as [|f]; [destruct s; auto|].
  destruct s as [|c r]; [now left|]. right.
  destruct (valid_step c r V) as [Bad _].
  destruct (trim_right_unfold f c r) as (t & T & ->).
  destruct (decode_chunk c r EmptyString Bad) as (t1 & T1 & D1 & _).
  assert (t1 = t) by congruence. subst t1. rewrite app_nil_r in D1.
  destruct (strings.trim_right f _) as [|c' r'].
  - rewrite S, D1. exact S.
  - destruct (decode_chunk c r (String c' r') Bad) as (t2 & T2 & D2 & _).
    assert (t2 = t) by congruence. subst t2. cbn [append]. rewrite D2. exact S.
Qed.

Lemma trim_right_fuel2 (f : nat) :
  forall s f2, (String.length s <= f)%nat -> (String.length s <= f2)%nat ->
  strings.trim_right f s = strings.trim_right f2 s.
Proof.
  induction f as [|f IH]; intros s f2 H H2.
  - destruct s; [now destruct f2|simpl in H; lia].
  - destruct s as [|c r]; [now destruct f2|].
    destruct f2 as [|f2]; [simpl in H2; lia|].
    cbn [strings.trim_right].
    pose proof (drop_shorter c r). cbn [String.length] in H, H2.
    rewrite (IH _ f2) by lia. reflexivity.
Qed.

Lemma trim_left_fixed (f : nat) (s : string) :
  s = EmptyString \/ strings.IsSpace (fst (utf8.DecodeRuneInString s)) = false ->
  strings.trim_left f s = s.
Proof.
  intros [->|S]; [now destruct f|].
  destruct f; destruct s; try reflexivity.
  cbn [strings.trim_left]. now rewrite S.
Qed.

Lemma TrimSpace_split (s : string) :
  exists pre post,
    s = pre ++ strings.TrimSpace s ++ post /\ blank pre = true /\ blank post = true.
Proof.
  unfold strings.TrimSpace.
  destruct (trim_left_split (String.length s) s) as (pre & E & Bp).
  destruct (trim_right_split (String.length (strings.trim_left (String.length s) s))
              (strings.trim_left (String.length s) s)) as (post & E2 & Bq).
  exists pre, post. rewrite <- E2. auto.
Qed.

Lemma TrimSpace_head (s : string) :
  utf8.ValidString s = true ->
  strings.TrimSpace s = EmptyString \/
  strings.IsSpace (fst (utf8.DecodeRuneInString (strings.TrimSpace s))) = false.
Proof.
  intros V. unfold strings.TrimSpace.
  destruct (trim_left_head (String.length s) s (le_n _)) as [->|S]; [now left|].
  apply trim_right_head; [now apply trim_left_valid|exact S].
Qed.

Lemma TrimSpace_tail (s a b : string) :
  utf8.ValidString s = true ->
  strings.TrimSpace s = a ++ b -> b <> EmptyString -> blank b = false.
Proof.
  intros V. unfold strings.TrimSpace.
  apply trim_right_tail; [now apply trim_left_valid|apply le_n].
Qed.

Lemma TrimSpace_idem (s : string) :
  utf8.ValidString s = true ->
  strings.TrimSpace (strings.TrimSpace s) = strings.TrimSpace s.
Proof.
  intros V. pose proof (TrimSpace_head s V) as Hd.
  unfold strings.TrimSpace at 1. rewrite (trim_left_fixed _ _ Hd).
  unfold strings.TrimSpace.
  set (l := strings.trim_left (String.length s) s).
  pose proof (trim_right_length (String.length l) l) as Le.
  rewrite (trim_right_fuel2 _ _ (String.length l) (le_n _) Le).
  apply trim_right_idem; [now apply trim_left_valid|apply le_n].
Qed.

(** ** The codec on its own *)

(** X1: no proper prefix of an encoded message decodes.  Cut anywhere
    before its last byte, the encoding of a valid message is rejected by
    [json.Unmarshal]: a truncated datagram is never taken for a message. *)
Theorem truncated_message_does_not_decode (p : msgPacket) (data : string)
    (k : nat) :
  valid_message p ->
  json.Marshal p = Some data ->
  (k < String.length data)%nat ->
  json.Unmarshal (take k data) = None.
Proof. exact (Marshal_cut p data k). Qed.

(** X2: the size of an encoded message.  The encoding is at least 58 bytes
    longer than sender and text together and at most 73 bytes longer than
    six times their length; so a message whose sender and text have up to
    158 bytes always fits a buffer of 1024 bytes, and one with 967 bytes or
    more never does. *)
Theorem encoded_size (p : msgPacket) (data : string) :
  json.Marshal p = Some data ->
  (String.length (Sender p) + String.length (Text p) + 58 <= String.length data
   <= 6 * (String.length (Sender p) + String.length (Text p)) + 73)%nat /\
  ((String.length (Sender p) + String.length (Text p) <= 158)%nat ->
   (String.length data <= 1024)%nat) /\
  ((967 <= String.length (Sender p) + String.length (Text p))%nat ->
   (1024 < String.length data)%nat).
Proof.
  intros M. pose proof (Marshal_length p data M) as B.
  split; [exact B|]. split; intros H; lia.
Qed.

(** ** encoding/json: bytes that are not UTF-8 *)

Lemma string_coerce (fuel : nat) :
  forall src, (String.length src <= fuel)%nat ->
  forall f rest, (String.length (json.appendString_loop fuel src) < f)%nat ->
  exists raw,
    json.scan_string f (json.appendString_loop fuel src ++ String dquote rest)
    = Some (coerce fuel src, raw, rest).
Proof.
  induction fuel as [|fuel IH]; intros src Hlen f rest Hf.
  - destruct src; [|simpl in Hlen; lia].
    destruct f; [simpl in Hf; lia|]. simpl. eauto.
  - destruct src as [|c r].
    { destruct f; [simpl in Hf; lia|]. simpl. eauto. }
    destruct f as [|f]; [lia|].
    cbn [json.appendString_loop coerce] in Hf |- *.
    pose proof (b2z_range c) as Rc.
    destruct (b2z c <? utf8.RuneSelf) eqn:A.
    + (* ASCII *)
      assert (D : utf8.DecodeRuneInString (String c r) = (b2z c, 1%nat)).
      { unfold utf8.DecodeRuneInString. now rewrite A. }
      rewrite D. cbn [snd take drop append].
      replace (utf8.bad (b2z c, 1%nat)) with false
        by (unfold utf8.bad, utf8.RuneError, utf8.RuneSelf in *; cbn [fst]; lia).
      rewrite length_app in Hf. rewrite app_assoc.
      destruct (json.htmlSafe (b2z c)) eqn:S.
      * cbn [append String.length] in Hf |- *.
        destruct (IH r ltac:(simpl in Hlen; lia) f rest ltac:(lia)) as [raw IHr].
        unfold json.htmlSafe in S. unfold utf8.RuneSelf in A.
        cbn [json.scan_string].
        rewrite (eqb_b2z c dquote) by (change (b2z dquote) with 34; lia).
        rewrite (eqb_b2z c backslash) by (change (b2z backslash) with 92; lia).
        replace (b2z c <? 32) with false by lia. unfold utf8.RuneSelf. rewrite A.
        rewrite IHr. cbn. eauto.
      * pose proof (escape_byte_length c).
        destruct (IH r ltac:(simpl in Hlen; lia) f rest ltac:(lia)) as [raw IHr].
        rewrite scan_escape_byte by assumption.
        rewrite IHr. cbn. eauto.
    + (* multi-byte *)
      destruct (utf8.bad (utf8.DecodeRuneInString (String c r))) eqn:Bad.
      { (* a byte that is no encoding *)
        rewrite length_app in Hf. cbn [String.length] in Hf.
        destruct (IH r ltac:(simpl in Hlen; lia) f rest ltac:(lia)) as [raw IHr].
        rewrite app_assoc. cbn [append].
        change (json.scan_string (S f)
                  (String backslash (String "u" (String "f" (String "f" (String "f"
                    (String "d" ?x)))))))
          with (json.emit (utf8.EncodeRune utf8.RuneError)
                  (String backslash "ufffd") (json.scan_string f x)).
        rewrite IHr. cbn [json.emit]. eauto. }
      destruct (decode_ok c r Bad) as (N1 & N2 & N3 & N4).
      remember (utf8.DecodeRuneInString (String c r)) as d eqn:Ed.
      assert (Hd : (String.length (drop (snd d) (String c r)) <= fuel)%nat).
      { rewrite length_drop. cbn [String.length] in Hlen |- *. lia. }
      assert (Hc1 : Ascii.eqb c dquote = false).
      { apply eqb_b2z. change (b2z dquote) with 34. unfold utf8.RuneSelf in A. lia. }
      assert (Hc2 : Ascii.eqb c backslash = false).
      { apply eqb_b2z. change (b2z backslash) with 92. unfold utf8.RuneSelf in A. lia. }
      destruct ((fst d =? 8232) || (fst d =? 8233)) eqn:LS.
      * (* U+2028, U+2029 *)
        rewrite !length_app in Hf. cbn [String.length] in Hf.
        destruct (IH _ Hd f rest ltac:(lia)) as [raw IHr].
        rewrite !app_assoc.
        assert (X : fst d = 8232 \/ fst d = 8233) by lia.
        destruct X as [X|X]; rewrite X in *; cbn; rewrite IHr; cbn;
          eexists; apply f_equal;
          (apply (f_equal2 pair); [apply (f_equal2 pair); [|reflexivity]|reflexivity]);
          rewrite <- N3; reflexivity.
      * rewrite length_app in Hf.
        destruct (IH _ Hd f rest ltac:(lia)) as [raw IHr].
        rewrite app_assoc.
        remember (json.appendString_loop fuel (drop (snd d) (String c r))
                  ++ String dquote rest) as X.
        assert (T : exists t, take (snd d) (String c r) = String c t).
        { destruct (snd d); [lia|]. cbn. eauto. }
        destruct T as [t T].
        rewrite T. cbn [append json.scan_string].
        rewrite Hc1, Hc2.
        replace (b2z c <? 32) with false by (unfold utf8.RuneSelf in A; lia).
        rewrite A. change (String c (t ++ X)) with (String c t ++ X). rewrite <- T.
        rewrite N4.
        rewrite (drop_take_app _ _ _ N2). rewrite IHr.
        cbn. rewrite N3, T. cbn [append]. eauto.
Qed.

Lemma scan_value_coerce (s : string) (f : nat) (depth : Z) (rest : string) :
  exists raw,
    json.scan_value (S f) depth (json.appendString s ++ rest)
    = Some (json.VString (ToValid s) raw, rest).
Proof.
  unfold json.appendString, ToValid.
  cbn [append json.scan_value]. rewrite app_assoc. cbn [append].
  change (Ascii.eqb dquote "{") with false.
  change (Ascii.eqb dquote "[") with false.
  change (Ascii.eqb dquote dquote) with true. cbn iota.
  destruct (string_coerce (String.length s) s (le_n _)
              (String.length (json.appendString_loop (String.length s) s
                              ++ String dquote rest)) rest) as [raw E].
  { rewrite length_app. cbn [String.length]. lia. }
  rewrite E. cbn. eauto.
Qed.

(** What an encoded message decodes to, whatever bytes its strings hold. *)
Lemma Unmarshal_Marshal_any (p : msgPacket) :
  time.representable (Timestamp p) ->
  exists data,
    json.Marshal p = Some data /\
    json.Unmarshal data
    = Some {| Sender := ToValid (Sender p); Text := ToValid (Text p);
              Timestamp := Timestamp p |}.
Proof.
  intros R.
  rewrite (Marshal_shape _ R).
  eexists. split; [reflexivity|].
  unfold json.Unmarshal, json.parse.
  match goal with |- context [String.length ?x] =>
    assert (L : exists n, String.length x = S (S (S (S (S n)))))
      by (cbn [String.length append]; eauto)
  end.
  destruct L as [n ->].
  change (json.skip_ws (String "{" ?r)) with (String "{" r).
  rewrite scan_object.
  rewrite scan_member by reflexivity. rewrite skip_ws_quoted.
  destruct (scan_value_coerce (Sender p) (S (S (S n))) 1
    (String "," (String dquote ("text" ++ String dquote (String ":"
      (json.appendString (Text p) ++ String "," (String dquote ("timestamp"
        ++ String dquote (String ":"
      ((String dquote (time.formatRFC3339Nano (Timestamp p)) ++ String dquote EmptyString)
        ++ "}")))))))))) as [raw1 ->].
  unfold member_tail at 1. cbn [time.bind].
  change (json.skip_ws (String "," ?r)) with (String "," r). cbn iota.
  change (json.skip_ws (String dquote ?r)) with (String dquote r).
  rewrite scan_member by reflexivity. rewrite skip_ws_quoted.
  destruct (scan_value_coerce (Text p) (S (S n)) 1
    (String "," (String dquote ("timestamp"
        ++ String dquote (String ":"
      ((String dquote (time.formatRFC3339Nano (Timestamp p)) ++ String dquote EmptyString)
        ++ "}")))))) as [raw2 ->].
  unfold member_tail at 1. cbn [time.bind].
  change (json.skip_ws (String "," ?r)) with (String "," r). cbn iota.
  change (json.skip_ws (String dquote ?r)) with (String dquote r).
  rewrite scan_member by reflexivity.
  change (json.skip_ws ((String dquote ?a ++ ?b) ++ ?c)) with ((String dquote a ++ b) ++ c).
  rewrite scan_value_time.
  unfold member_tail. cbn [time.bind].
  change (json.skip_ws "}") with "}". cbn iota. cbn [time.bind].
  change (json.skip_ws EmptyString) with EmptyString. cbn iota.
  cbn [json.decode_members].
  change (json.field_of_key "sender") with (Some json.FSender).
  change (json.field_of_key "text") with (Some json.FText).
  change (json.field_of_key "timestamp") with (Some json.FTimestamp).
  cbn [json.store_string json.store_time time.bind Sender Text Timestamp msgPacket_zero].
  unfold time.UnmarshalJSON_string. rewrite (parse_format _ R).
  reflexivity.
Qed.

Lemma coerce_valid (fuel : nat) :
  forall s, (String.length s <= fuel)%nat ->
  utf8.valid_loop fuel s = true -> coerce fuel s = s.
Proof.
  induction fuel as [|fuel IH]; intros s H V.
  - destruct s; [reflexivity|simpl in H; lia].
  - destruct s as [|c r]; [reflexivity|].
    cbn [utf8.valid_loop coerce] in *.
    destruct (utf8.bad (utf8.DecodeRuneInString (String c r))) eqn:Bad;
      [discriminate|].
    pose proof (drop_shorter c r). cbn [String.length] in H.
    rewrite IH by (assumption || lia). apply take_drop.
Qed.

Lemma replacement_valid (x : string) :
  utf8.ValidString x = true ->
  utf8.ValidString (utf8.EncodeRune utf8.RuneError ++ x) = true.
Proof.
  intros V.
  change (utf8.EncodeRune utf8.RuneError ++ x)
    with (String (z2b 239) (String (z2b 191) (String (z2b 189) x))).
  set (s := String (z2b 239) (String (z2b 191) (String (z2b 189) x))).
  change (utf8.ValidString s)
    with (if utf8.bad (utf8.DecodeRuneInString s) then false
          else utf8.valid_loop (S (S (String.length x)))
                 (drop (snd (utf8.DecodeRuneInString s)) s)).
  change (utf8.DecodeRuneInString s) with (65533, 3%nat).
  change (utf8.bad (65533, 3%nat)) with false. cbn iota.
  change (drop (snd (65533, 3%nat)) s) with x.
  rewrite valid_loop_fuel by lia. exact V.
Qed.

(** The text that arrives is UTF-8 whatever was sent. *)
Lemma coerce_is_valid (fuel : nat) :
  forall s, (String.length s <= fuel)%nat ->
  utf8.ValidString (coerce fuel s) = true.
Proof.
  induction fuel as [|fuel IH]; intros s H.
  - destruct s; reflexivity.
  - destruct s as [|c r]; [reflexivity|].
    cbn [coerce]. pose proof (drop_shorter c r). cbn [String.length] in H.
    destruct (utf8.bad (utf8.DecodeRuneInString (String c r))) eqn:Bad.
    + apply replacement_valid, IH. lia.
    + apply valid_chunk; [exact Bad|]. apply IH. lia.
Qed.

(** X3: bytes that are not UTF-8 arrive as U+FFFD.  Whatever bytes the
    sender and the text of a message hold, the message is encoded, and what
    the encoding decodes to has each byte that is no part of a valid
    encoding replaced by the encoding of U+FFFD, the rest and the timestamp
    as they were: the strings that arrive are always UTF-8, and are the
    strings sent when those were. *)
Theorem invalid_bytes_are_replaced (p : msgPacket) :
  time.representable (Timestamp p) ->
  exists data,
    json.Marshal p = Some data /\
    json.Unmarshal data
    = Some {| Sender := ToValid (Sender p); Text := ToValid (Text p);
              Timestamp := Timestamp p |} /\
    utf8.ValidString (ToValid (Sender p)) = true /\
    utf8.ValidString (ToValid (Text p)) = true /\
    (utf8.ValidString (Sender p) = true -> ToValid (Sender p) = Sender p) /\
    (utf8.ValidString (Text p) = true -> ToValid (Text p) = Text p).
Proof.
  intros R. destruct (Unmarshal_Marshal_any p R) as (data & M & U).
  exists data. repeat split; try assumption.
  - apply coerce_is_valid, le_n.
  - apply coerce_is_valid, le_n.
  - intros V. apply coerce_valid; [apply le_n|exact V].
  - intros V. apply coerce_valid; [apply le_n|exact V].
Qed.

(** ** encoding/json: what is taken for a message *)

(** The branch of [scan_value] for an opening bracket gives an array or
    nothing, and the one for an opening brace an object or nothing. *)
Ltac not_this_kind :=
  match goal with
  | |- context [json.maxNestingDepth <=? ?d] =>
    destruct (json.maxNestingDepth <=? d); [discriminate|]
  end;
  match goal with
  | |- context [json.skip_ws ?r0] =>
    let c1 := fresh "c" in
    let r1 := fresh "r" in
    destruct (json.skip_ws r0) as [|c1 r1];
    [|destruct c1 as [[] [] [] [] [] [] [] []]]
  end;
  cbn [time.bind];
  try discriminate;
  match goal with
  | |- context [json.scan_elements ?f ?d ?x] =>
    destruct (json.scan_elements f d x) as [[? ?]|]; discriminate
  | |- context [json.scan_members ?f ?d ?x] =>
    destruct (json.scan_members f d x) as [[? ?]|]; discriminate
  end.

Lemma scan_value_object (f : nat) (depth : Z) (s r : string)
    (ms : list (string * json.value)) :
  json.scan_value f depth s = Some (json.VObject ms, r) ->
  exists r0, s = String "{" r0.
Proof.
  destruct f as [|f]; [discriminate|].
  destruct s as [|c r0]; [discriminate|].
  cbn [json.scan_value].
  destruct (Ascii.eqb_spec c "{") as [->|_]; [eauto|].
  destruct (Ascii.eqb c "["); [not_this_kind|].
  destruct (Ascii.eqb c dquote).
  { destruct (json.scan_string (String.length r0) r0) as [[[dec raw] r']|];
      discriminate. }
  destruct (Ascii.eqb c "-" || time.isDigit c).
  { destruct (json.scan_number (String c r0)); discriminate. }
  destruct (String.prefix "true" (String c r0)); [discriminate|].
  destruct (String.prefix "false" (String c r0)); [discriminate|].
  destruct (String.prefix "null" (String c r0)); discriminate.
Qed.

Lemma scan_value_null (f : nat) (depth : Z) (s r : string) :
  json.scan_value f depth s = Some (json.VNull, r) ->
  String.prefix "null" s = true.
Proof.
  destruct f as [|f]; [discriminate|].
  destruct s as [|c r0]; [discriminate|].
  cbn [json.scan_value].
  destruct (Ascii.eqb c "{"); [not_this_kind|].
  destruct (Ascii.eqb c "["); [not_this_kind|].
  destruct (Ascii.eqb c dquote).
  { destruct (json.scan_string (String.length r0) r0) as [[[dec raw] r']|];
      discriminate. }
  destruct (Ascii.eqb c "-" || time.isDigit c).
  { destruct (json.scan_number (String c r0)); discriminate. }
  destruct (String.prefix "true" (String c r0)); [discriminate|].
  destruct (String.prefix "false" (String c r0)); [discriminate|].
  destruct (String.prefix "null" (String c r0)); [reflexivity|discriminate].
Qed.

(** X4: only a JSON object is taken for a message.  What [json.Unmarshal]
    accepts into a [msgPacket] is, after leading white space, an object; or
    the literal [null], which leaves the message at its zero value.  An
    array, a string, a number, [true] or [false] is never a message. *)
Theorem only_an_object_is_a_message (data : string) (p : msgPacket) :
  json.Unmarshal data = Some p ->
  (exists r, json.skip_ws data = String "{" r) \/
  (String.prefix "null" (json.skip_ws data) = true /\ p = msgPacket_zero).
Proof.
  unfold json.Unmarshal, json.parse.
  destruct (json.scan_value _ 0 (json.skip_ws data)) as [[v r]|] eqn:S;
    [|discriminate].
  destruct (json.skip_ws r); [|discriminate].
  destruct v as [|b| |s raw|vs|ms]; try discriminate.
  - intros E. inversion E. right. split; [|reflexivity].
    exact (scan_value_null _ _ _ _ S).
  - intros _. left. exact (scan_value_object _ _ _ _ _ S).
Qed.
(** ** The controller *)

Section Controller.
Context {N : Net} {B : Bubbles}.

Lemma Update_quit (now : time.Time) (m : model) (k : Key) :
  Type_ k = KeyEsc \/ Type_ k = KeyCtrlC ->
  Update now m (KeyMsg k) = Returns (seen m (KeyMsg k), tea_Quit, []).
Proof.
  intros H. unfold Update, seen.
  destruct (textarea_Update _ _), (viewport_Update _ _).
  destruct H as [-> | ->]; reflexivity.
Qed.

Lemma Update_enter (now : time.Time) (m : model) (k : Key) :
  Type_ k = KeyEnter ->
  Update now m (KeyMsg k) =
  if String.eqb (submitted m k) EmptyString
  then Returns (seen m (KeyMsg k), batch_of m (KeyMsg k), [])
  else
    match conn m with
    | None => Panics
    | Some c =>
      Returns (reset_textarea (show_line (seen m (KeyMsg k))
                                 (local_line now m (submitted m k))),
               batch_of m (KeyMsg k),
               [WriteToUDP c (payload (packet_of now m (submitted m k))) (resolved m)])
    end.
Proof.
  intros H. unfold Update, seen, submitted, batch_of, seen.
  destruct (textarea_Update _ _), (viewport_Update _ _).
  rewrite H. cbn [fst snd with_widgets textarea username remoteAddr conn].
  destruct (String.eqb _ _); [reflexivity|]. cbn [negb].
  destruct (conn m); reflexivity.
Qed.

Lemma Update_key_other (now : time.Time) (m : model) (k : Key) :
  Type_ k = KeyRunes \/ (exists code, Type_ k = KeyOther code) ->
  Update now m (KeyMsg k) = Returns (seen m (KeyMsg k), batch_of m (KeyMsg k), []).
Proof.
  intros H. unfold Update, seen, batch_of.
  destruct (textarea_Update _ _), (viewport_Update _ _).
  destruct H as [-> | [code ->]]; reflexivity.
Qed.

Lemma Update_udp (now : time.Time) (m : model) (data : string) (addr : UDPAddr) :
  Update now m (udpMsg data addr) =
  match json.Unmarshal data with
  | Some packet =>
    Returns (show_line (seen m (udpMsg data addr)) (remote_line packet),
             listenForMessages (conn m), [])
  | None => Returns (seen m (udpMsg data addr), listenForMessages (conn m), [])
  end.
Proof.
  unfold Update, seen.
  destruct (textarea_Update _ _), (viewport_Update _ _).
  destruct (json.Unmarshal data); reflexivity.
Qed.

Lemma Update_err (now : time.Time) (m : model) (e : error) :
  Update now m (errMsg e)
  = Returns (set_err (seen m (errMsg e)) (errMsg_error e), Cmd_nil, []).
Proof.
  unfold Update, seen.
  destruct (textarea_Update _ _), (viewport_Update _ _). reflexivity.
Qed.

Lemma Update_other (now : time.Time) (m : model) (tag : Z) :
  Update now m (otherMsg tag)
  = Returns (seen m (otherMsg tag), batch_of m (otherMsg tag), []).
Proof.
  unfold Update, seen, batch_of.
  destruct (textarea_Update _ _), (viewport_Update _ _). reflexivity.
Qed.

(** What one update can do to the transcript: nothing, or one line more. *)
Lemma Update_messages (now : time.Time) (m m' : model) (msg : Msg)
    (cmd : Cmd) (calls : list SocketCall) :
  Update now m msg = Returns (m', cmd, calls) ->
  exists added, messages m' = (messages m ++ added)%list.
Proof.
  assert (Same : forall m1 c1 k1, Returns (seen m msg, c1, k1) = Returns (m', cmd, calls)
                 -> m1 = m -> exists added, messages m' = (messages m1 ++ added)%list).
  { intros m1 c1 k1 E ->. inversion E; subst. exists []. cbn. now rewrite List.app_nil_r. }
  destruct msg as [k|data addr|e|tag].
  - destruct (Type_ k) eqn:T.
    + rewrite Update_quit by auto. eauto.
    + rewrite Update_quit by auto. eauto.
    + rewrite Update_enter by auto.
      destruct (String.eqb _ _); [eauto|].
      destruct (conn m); [|discriminate].
      intros E. inversion E; subst. eexists. cbn. reflexivity.
    + rewrite Update_key_other by auto. eauto.
    + rewrite Update_key_other by eauto. eauto.
  - rewrite Update_udp. destruct (json.Unmarshal data); [|eauto].
    intros E. inversion E; subst. eexists. cbn. reflexivity.
  - rewrite Update_err. intros E. inversion E; subst.
    exists []. cbn. now rewrite List.app_nil_r.
  - rewrite Update_other. eauto.
Qed.

Lemma handle_messages (p : Program) (now : time.Time) (completes : bool) (msg : Msg) :
  exists added,
    messages (p_model (handle p now completes msg))
    = (messages (p_model p) ++ added)%list.
Proof.
  unfold handle.
  destruct (Update now (p_model p) msg) as [[[m' cmd] calls]|] eqn:U.
  - apply (Update_messages _ _ _ _ _ _ U).
  - exists []. cbn. now rewrite List.app_nil_r.
Qed.

Lemma step_messages (p : Program) (ev : time.Time * Input) :
  exists added,
    messages (p_model (step p ev)) = (messages (p_model p) ++ added)%list.
Proof.
  assert (Same : exists added,
            messages (p_model p) = (messages (p_model p) ++ added)%list).
  { exists []. now rewrite List.app_nil_r. }
  unfold step. destruct (running p); [|exact Same].
  destruct (snd ev) as [k|r| |tag].
  - apply handle_messages.
  - destruct (p_listening p) as [c|]; [|exact Same].
    destruct (listenForMessages_run c r); [apply handle_messages|exact Same].
  - destruct (p_quitting p); exact Same.
  - apply handle_messages.
Qed.

Lemma run_messages (evs : list (time.Time * Input)) :
  forall p, exists added,
    messages (p_model (run p evs)) = (messages (p_model p) ++ added)%list.
Proof.
  induction evs as [|ev evs IH]; intros p.
  - exists []. cbn. now rewrite List.app_nil_r.
  - cbn [run fold_left]. destruct (IH (step p ev)) as [a2 E2].
    destruct (step_messages p ev) as [a1 E1].
    exists (a1 ++ a2)%list. unfold run in E2. rewrite E2, E1.
    now rewrite List.app_assoc.
Qed.

(** C8: the transcript is append-only.  Across every sequence of events the
    transcript after is the transcript before followed by the lines added:
    its length does not decrease and every entry it held is still there, at
    the same place and unchanged. *)
Theorem transcript_append_only (p : Program) (evs : list (time.Time * Input)) :
  (exists added,
     messages (p_model (run p evs)) = (messages (p_model p) ++ added)%list) /\
  (List.length (messages (p_model p))
   <= List.length (messages (p_model (run p evs))))%nat /\
  (forall i l, nth_error (messages (p_model p)) i = Some l ->
               nth_error (messages (p_model (run p evs))) i = Some l).
Proof.
  destruct (run_messages evs p) as [added E].
  split; [eauto|]. rewrite E. split.
  - rewrite List.length_app. lia.
  - intros i l H. rewrite nth_error_app1; [assumption|].
    apply nth_error_Some. congruence.
Qed.

Lemma step_stopped (p : Program) (ev : time.Time * Input) :
  running p = false -> step p ev = p.
Proof. intros Q. unfold step. now rewrite Q. Qed.

Lemma run_stopped (evs : list (time.Time * Input)) (p : Program) :
  running p = false -> run p evs = p.
Proof.
  induction evs as [|ev evs IH]; intros Q; [reflexivity|].
  cbn [run fold_left]. rewrite step_stopped by assumption. now apply IH.
Qed.


Lemma step_key (p : Program) (now : time.Time) (k : Key) :
  running p = true ->
  step p (now, InKey k) = handle p now false (KeyMsg k).
Proof. intros R. unfold step. now rewrite R. Qed.

Lemma step_datagram (p : Program) (now : time.Time) (c : UDPConn)
    (datagram : string) (addr : UDPAddr) :
  running p = true -> p_listening p = Some (Some c) ->
  step p (now, InSocket (ReadOK datagram addr))
  = handle p now true (udpMsg (take 1024 datagram) addr).
Proof. intros R L. unfold step. cbn [snd fst]. now rewrite R, L. Qed.


(** C5: an inbound datagram whose payload does not decode changes nothing
    in the state (transcript, input text, error, connection, peer address,
    username), makes no call on the socket, leaves the program running, and
    re-arms the receive: the next well-formed datagram is appended. *)
Theorem malformed_datagram_dropped (p : Program) (now : time.Time)
    (datagram : string) (addr : UDPAddr) (c : UDPConn) :
  running p = true ->
  p_listening p = Some (Some c) ->
  conn (p_model p) = Some c ->
  json.Unmarshal (take 1024 datagram) = None ->
  let p' := step p (now, InSocket (ReadOK datagram addr)) in
  messages (p_model p') = messages (p_model p) /\
  textarea_Value (textarea (p_model p')) = textarea_Value (textarea (p_model p)) /\
  err (p_model p') = err (p_model p) /\
  conn (p_model p') = conn (p_model p) /\
  remoteAddr (p_model p') = remoteAddr (p_model p) /\
  username (p_model p') = username (p_model p) /\
  p_calls p' = p_calls p /\
  running p' = true /\
  p_listening p' = Some (Some c) /\
  forall now2 datagram2 addr2 packet,
    json.Unmarshal (take 1024 datagram2) = Some packet ->
    messages (p_model (step p' (now2, InSocket (ReadOK datagram2 addr2))))
    = (messages (p_model p) ++ [remote_line packet])%list.
Proof.
  intros Q L C U p'.
  assert (E : p' =
    {| p_model := seen (p_model p) (udpMsg (take 1024 datagram) addr);
       p_listening := Some (Some c); p_quitting := p_quitting p;
       p_done := false; p_panic := false; p_calls := p_calls p;
       p_frames := (p_frames p
                    ++ [View (seen (p_model p) (udpMsg (take 1024 datagram) addr))])%list |}).
  { subst p'. rewrite (step_datagram p now c _ _ Q L). unfold handle.
    rewrite Update_udp, U.
    cbn [listens quits]. rewrite C, List.app_nil_r, orb_false_r. reflexivity. }
  rewrite E. cbn [p_model p_calls p_listening].
  repeat split; try reflexivity.
  - cbn. now apply textarea_Update_foreign.
  - intros now2 datagram2 addr2 packet U2.
    rewrite (step_datagram _ now2 c) by reflexivity. unfold handle.
    rewrite Update_udp, U2. reflexivity.
Qed.

Lemma handle_key_listening (p : Program) (now : time.Time) (k : Key) :
  p_listening p = None -> p_listening (handle p now false (KeyMsg k)) = None.
Proof.
  intros L. unfold handle. destruct (Type_ k) eqn:T.
  - now rewrite Update_quit by auto.
  - now rewrite Update_quit by auto.
  - rewrite Update_enter by auto.
    destruct (String.eqb _ _); [assumption|]. now destruct (conn (p_model p)).
  - now rewrite Update_key_other by auto.
  - now rewrite Update_key_other by eauto.
Qed.

Lemma step_not_listening (p : Program) (ev : time.Time * Input) :
  p_listening p = None -> p_listening (step p ev) = None.
Proof.
  intros L. destruct ev as [now i]. unfold step. cbn [fst snd].
  destruct (running p); [|assumption].
  destruct i as [k|r| |tag].
  - now apply handle_key_listening.
  - now rewrite L.
  - now destruct (p_quitting p).
  - unfold handle. now rewrite Update_other.
Qed.

Lemma run_not_listening (evs : list (time.Time * Input)) (p : Program) :
  p_listening p = None -> p_listening (run p evs) = None.
Proof.
  revert p. induction evs as [|ev evs IH]; intros p L; [assumption|].
  cbn [run fold_left]. apply IH, step_not_listening, L.
Qed.

Lemma step_socket_idle (p : Program) (now : time.Time) (r : ReadResult) :
  p_listening p = None -> step p (now, InSocket r) = p.
Proof.
  intros L. unfold step. cbn [fst snd]. rewrite L. now destruct (running p).
Qed.

(** C7: when the outstanding receive fails, the error is stored in the
    model's [err] field; no receive is outstanding afterwards and none ever
    is again, so whatever the socket yields later is not delivered; the
    transcript is untouched, and the program neither quits nor is told to. *)
Theorem receive_error_degrades (p : Program) (now : time.Time)
    (c : UDPConn) (e : error) :
  running p = true ->
  p_listening p = Some (Some c) ->
  let p' := step p (now, InSocket (ReadErr e)) in
  err (p_model p') = Some (errMsg_error e) /\
  Error (errMsg_error e) = Error e /\
  p_listening p' = None /\
  running p' = true /\
  p_quitting p' = p_quitting p /\
  messages (p_model p') = messages (p_model p) /\
  p_calls p' = p_calls p /\
  (forall evs, p_listening (run p' evs) = None) /\
  (forall evs now2 r2, step (run p' evs) (now2, InSocket r2) = run p' evs).
Proof.
  intros Q L p'.
  assert (E : p' =
    {| p_model := set_err (seen (p_model p) (errMsg e)) (errMsg_error e);
       p_listening := None; p_quitting := p_quitting p;
       p_done := false; p_panic := false; p_calls := p_calls p;
       p_frames := (p_frames p
         ++ [View (set_err (seen (p_model p) (errMsg e)) (errMsg_error e))])%list |}).
  { subst p'. unfold step. cbn [fst snd]. rewrite Q, L.
    cbn [listenForMessages_run]. unfold handle. rewrite Update_err.
    cbn [listens quits]. now rewrite List.app_nil_r, orb_false_r. }
  rewrite E. cbn [p_model p_calls p_quitting p_listening].
  repeat split; try reflexivity.
  - intros evs. now apply run_not_listening.
  - intros evs now2 r2. apply step_socket_idle. now apply run_not_listening.
Qed.

(** C10: a datagram that decodes is appended as a remote line whatever
    address it came from: the line is made of the decoded packet alone, and
    neither the sender address nor the configured peer address enters it. *)
Theorem any_sender_is_displayed (p : Program) (now : time.Time)
    (datagram : string) (addr : UDPAddr) (c : UDPConn) (packet : msgPacket) :
  running p = true ->
  p_listening p = Some (Some c) ->
  json.Unmarshal (take 1024 datagram) = Some packet ->
  messages (p_model (step p (now, InSocket (ReadOK datagram addr))))
  = (messages (p_model p) ++ [remote_line packet])%list.
Proof.
  intros Q L U.
  rewrite (step_datagram p now c _ _ Q L). unfold handle.
  rewrite Update_udp, U. reflexivity.
Qed.


(** C9, as the code has it: a message built at send time has a non-empty
    text, since Enter on an input that trims to nothing sends nothing and
    adds no line; a message built at decode time is taken as it comes, and
    its line is appended whether its text is empty or not. *)
Theorem only_sent_text_is_checked (now : time.Time) (m : model) (c : UDPConn) :
  conn m = Some c ->
  (forall k, Type_ k = KeyEnter ->
     if String.eqb (submitted m k) EmptyString
     then Update now m (KeyMsg k)
          = Returns (seen m (KeyMsg k), batch_of m (KeyMsg k), [])
          /\ messages (seen m (KeyMsg k)) = messages m
     else exists m',
          Update now m (KeyMsg k)
          = Returns (m', batch_of m (KeyMsg k),
                     [WriteToUDP c (payload (packet_of now m (submitted m k)))
                        (resolved m)])
          /\ Text (packet_of now m (submitted m k)) <> EmptyString
          /\ messages m' = (messages m ++ [local_line now m (submitted m k)])%list) /\
  (forall data addr packet, json.Unmarshal data = Some packet ->
     exists m',
       Update now m (udpMsg data addr) = Returns (m', listenForMessages (conn m), [])
       /\ messages m' = (messages m ++ [remote_line packet])%list).
Proof.
  intros C. split.
  - intros k T. rewrite Update_enter by assumption. rewrite C.
    destruct (String.eqb_spec (submitted m k) EmptyString) as [E|NE].
    + split; reflexivity.
    + eexists. repeat split; try reflexivity. exact NE.
  - intros data addr packet U. rewrite Update_udp, U.
    eexists. split; reflexivity.
Qed.

(** C2, as the code has it: a transcript line is the styled clock reading
    [HH:MM:SS], a space, the styled sender name, a colon and a space, and the
    styled text; there are no square brackets.  A local and a remote line are
    built the same way and differ in the style of the sender name alone. *)
Theorem transcript_line_format (now : time.Time) (m : model) (c : UDPConn) :
  conn m = Some c ->
  let fmt (style : string -> string) (t : time.Time) (sender text : string) :=
    timestampStyle (time.digits 2 (time.Hour t) ++ ":"
                    ++ time.digits 2 (time.Minute t) ++ ":"
                    ++ time.digits 2 (time.Second t))
    ++ " " ++ style sender ++ ": " ++ messageStyle text in
  (forall k, Type_ k = KeyEnter -> submitted m k <> EmptyString ->
     exists m', updated now m (KeyMsg k) = Some m' /\
       messages m'
       = (messages m ++ [fmt usernameStyle now (username m) (submitted m k)])%list) /\
  (forall data addr packet, json.Unmarshal data = Some packet ->
     exists m', updated now m (udpMsg data addr) = Some m' /\
       messages m'
       = (messages m
          ++ [fmt remoteUsernameStyle (Timestamp packet) (Sender packet)
                (Text packet)])%list) /\
  (forall t, String.length (time.Format_clock t) = 8%nat).
Proof.
  intros C. cbv zeta. repeat split.
  - intros k T NE. unfold updated. rewrite Update_enter by assumption. rewrite C.
    destruct (String.eqb_spec (submitted m k) EmptyString); [contradiction|].
    eexists. split; reflexivity.
  - intros data addr packet U. unfold updated. rewrite Update_udp, U.
    eexists. split; reflexivity.
Qed.

(** C1, as the code has it: when the peer address does not resolve or the
    socket cannot be bound, [initialModel] tries nothing else and returns
    the model that holds the error and nothing more, whose view is the
    error text.  [main] does not look at that error: it exits with code 1
    only when [Run] returns an error, and the text it prints is that
    error's. *)
Theorem startup_failure_is_shown (prog user remote : string) (e : error) :
  ResolveUDPAddr (remote ++ ":" ++ Itoa port) = inl e \/
  ((exists a, ResolveUDPAddr (remote ++ ":" ++ Itoa port) = inr a) /\
   ListenUDP port = inl e) ->
  initialModel user remote = model_err e /\
  View (initialModel user remote) = "Error: " ++ Error e ++ newline /\
  (forall w, exit_code (main [prog; user; remote] w) = Some 1 ->
     exists e',
       printed (main [prog; user; remote] w) = ["Error: " ++ Error e' ++ newline] /\
       (w_terminal_error w = Some e' \/ w_recovery w = Recovered (Some e'))).
Proof.
  intros H.
  assert (I : initialModel user remote = model_err e).
  { unfold initialModel. destruct H as [-> | [[a ->] ->]]; reflexivity. }
  split; [exact I|]. split; [now rewrite I|].
  intros w. unfold main, Program_Run.
  cbn [List.length Nat.ltb Nat.leb nth].
  destruct (w_terminal_error w) as [e'|].
  - intros _. exists e'. split; [reflexivity|now left].
  - destruct (p_panic _).
    + destruct (w_recovery w) as [|[e'|]]; cbn; try discriminate.
      intros _. exists e'. split; [reflexivity|now right].
    + destruct (p_done _); cbn; discriminate.
Qed.

End Controller.


(** ** The session as a whole *)

Section Session.
Context {N : Net} {B : Bubbles}.

(** The branches of [Update], by the message. *)
Ltac by_message m msg :=
  let k := fresh "k" in
  let T := fresh "T" in
  let S := fresh "S" in
  let C := fresh "C" in
  let U := fresh "U" in
  destruct msg as [k| ? ? | ? | ?];
  [ destruct (Type_ k) eqn:T;
    [ rewrite Update_quit by auto
    | rewrite Update_quit by auto
    | rewrite Update_enter by auto;
      destruct (String.eqb (submitted m k) EmptyString) eqn:S;
      [|destruct (conn m) eqn:C]
    | rewrite Update_key_other by auto
    | rewrite Update_key_other by eauto ]
  | rewrite Update_udp; destruct (json.Unmarshal _) eqn:U
  | rewrite Update_err
  | rewrite Update_other ].

Ltac returned :=
  let E := fresh in
  intros E; first [discriminate E | inversion E; subst; clear E].

Lemma Update_config (now : time.Time) (m m' : model) (msg : Msg)
    (cmd : Cmd) (calls : list SocketCall) :
  Update now m msg = Returns (m', cmd, calls) ->
  username m' = username m /\ remoteAddr m' = remoteAddr m /\ conn m' = conn m.
Proof. by_message m msg; returned; cbn; auto. Qed.

Lemma Update_calls (now : time.Time) (m m' : model) (msg : Msg)
    (cmd : Cmd) (calls : list SocketCall) :
  Update now m msg = Returns (m', cmd, calls) ->
  calls = [] \/
  exists k c data,
    msg = KeyMsg k /\ enter_key k = true /\ conn m = Some c /\
    calls = [WriteToUDP c data (resolved m)].
Proof.
  by_message m msg; returned; auto.
  right. unfold enter_key. eexists _, _, _. repeat split; eauto.
  now rewrite T.
Qed.

Lemma Update_panics (now : time.Time) (m : model) (msg : Msg) :
  Update now m msg = Panics -> conn m = None.
Proof. by_message m msg; intros E; first [discriminate E | reflexivity]. Qed.

Lemma Update_keeps_err (now : time.Time) (m m' : model) (msg : Msg)
    (cmd : Cmd) (calls : list SocketCall) :
  Update now m msg = Returns (m', cmd, calls) ->
  (forall e, msg <> errMsg e) -> err m' = err m.
Proof.
  by_message m msg; returned; intros NE; try reflexivity.
  match goal with H : forall e, errMsg ?x <> errMsg e |- _ => now contradiction (H x) end.
Qed.

Lemma Update_quits (now : time.Time) (m m' : model) (msg : Msg)
    (cmd : Cmd) (calls : list SocketCall) :
  Update now m msg = Returns (m', cmd, calls) ->
  quits cmd = true -> exists k, msg = KeyMsg k /\ quit_key k = true.
Proof.
  by_message m msg; returned; cbn; try discriminate;
    intros _; exists k; unfold quit_key; now rewrite T.
Qed.

Lemma Update_listens (now : time.Time) (m m' : model) (msg : Msg)
    (cmd : Cmd) (calls : list SocketCall) :
  Update now m msg = Returns (m', cmd, calls) ->
  listens cmd = match msg with udpMsg _ _ => Some (conn m) | _ => None end.
Proof. by_message m msg; returned; reflexivity. Qed.

Lemma Update_lines (now : time.Time) (m m' : model) (msg : Msg)
    (cmd : Cmd) (calls : list SocketCall) :
  Update now m msg = Returns (m', cmd, calls) ->
  messages m' = messages m \/
  (exists l, messages m' = (messages m ++ [l])%list /\
     ((exists k, msg = KeyMsg k /\ enter_key k = true) \/
      (exists data addr, msg = udpMsg data addr))).
Proof.
  by_message m msg; returned; auto; right; eexists; (split; [reflexivity|]).
  - left. exists k. unfold enter_key. now rewrite T.
  - right. eauto.
Qed.

(** *** One turn of the loop *)

Lemma step_handle (p : Program) (now : time.Time) (i : Input) (msg : Msg)
    (completes : bool) :
  running p = true -> message_of p i = Some (msg, completes) ->
  step p (now, i) = handle p now completes msg.
Proof.
  intros R M. unfold step. rewrite R. cbn [fst snd].
  destruct i as [k|r| |tag]; cbn in M.
  - now inversion M.
  - destruct (p_listening p) as [c|]; [|discriminate].
    destruct (listenForMessages_run c r); [|discriminate]. now inversion M.
  - discriminate.
  - now inversion M.
Qed.

Lemma step_no_message (p : Program) (now : time.Time) (i : Input) :
  message_of p i = None ->
  step p (now, i) = p \/
  (i = InQuit /\ p_quitting p = true /\ step p (now, i) = finished p) \/
  (p_listening p = Some None /\ step p (now, i) = panicked p).
Proof.
  intros M. unfold step. cbn [fst snd]. destruct (running p); [|now left].
  destruct i as [k|r| |tag]; cbn in M; try discriminate.
  - destruct (p_listening p) as [[c|]|]; [| |now left].
    + cbn in M. now destruct r.
    + right. right. split; reflexivity.
  - destruct (p_quitting p); [|now left]. right. left. repeat split.
Qed.

(** What an input can be when [Update] sees the message [msg]. *)
Lemma message_of_key (p : Program) (i : Input) (k : Key) (completes : bool) :
  message_of p i = Some (KeyMsg k, completes) -> i = InKey k /\ completes = false.
Proof.
  destruct i as [k'|r| |tag]; cbn; intros E; try discriminate.
  - now inversion E.
  - destruct (p_listening p) as [[c|]|]; try discriminate.
    destruct r; cbn in E; discriminate.
Qed.

Lemma message_of_other (p : Program) (i : Input) (tag : Z) (completes : bool) :
  message_of p i = Some (otherMsg tag, completes) -> completes = false.
Proof.
  destruct i as [k'|r| |tag']; cbn; intros E; try discriminate.
  - destruct (p_listening p) as [[c|]|]; try discriminate.
    destruct r; cbn in E; discriminate.
  - now inversion E.
Qed.

Lemma message_of_udp (p : Program) (i : Input) (data : string) (addr : UDPAddr)
    (completes : bool) :
  message_of p i = Some (udpMsg data addr, completes) ->
  completes = true /\
  exists c datagram,
    p_listening p = Some (Some c) /\ i = InSocket (ReadOK datagram addr) /\
    data = take 1024 datagram.
Proof.
  destruct i as [k'|r| |tag]; cbn; intros E; try discriminate.
  destruct (p_listening p) as [[c|]|]; try discriminate.
  destruct r; cbn in E; inversion E; subst. split; [reflexivity|]. eauto.
Qed.

Lemma message_of_err (p : Program) (i : Input) (e : error) (completes : bool) :
  message_of p i = Some (errMsg e, completes) ->
  completes = true /\ i = InSocket (ReadErr e).
Proof.
  destruct i as [k'|r| |tag]; cbn; intros E; try discriminate.
  destruct (p_listening p) as [[c|]|]; try discriminate.
  destruct r; cbn in E; inversion E; subst. auto.
Qed.

(** A property of the state that every turn of the loop keeps holds at the
    end of every run. *)
Lemma run_keeps (P : Program -> Prop) :
  (forall p ev, P p -> P (step p ev)) ->
  forall evs p, P p -> P (run p evs).
Proof.
  intros K evs. induction evs as [|ev evs IH]; intros p H; [exact H|].
  cbn [run fold_left]. apply IH, K, H.
Qed.

Lemma step_config (p : Program) (ev : time.Time * Input) :
  username (p_model (step p ev)) = username (p_model p) /\
  remoteAddr (p_model (step p ev)) = remoteAddr (p_model p) /\
  conn (p_model (step p ev)) = conn (p_model p).
Proof.
  destruct ev as [now i].
  destruct (running p) eqn:R; [|now rewrite step_stopped].
  destruct (message_of p i) as [[msg completes]|] eqn:M.
  - rewrite (step_handle _ _ _ _ _ R M). unfold handle.
    destruct (Update now (p_model p) msg) as [[[m' cmd] calls]|] eqn:U.
    + apply (Update_config _ _ _ _ _ _ U).
    + now cbn.
  - destruct (step_no_message p now i M) as [->|[(_ & _ & ->)|(_ & ->)]];
      now cbn.
Qed.

Lemma run_config (evs : list (time.Time * Input)) (p : Program) :
  username (p_model (run p evs)) = username (p_model p) /\
  remoteAddr (p_model (run p evs)) = remoteAddr (p_model p) /\
  conn (p_model (run p evs)) = conn (p_model p).
Proof.
  apply (run_keeps (fun q =>
    username (p_model q) = username (p_model p) /\
    remoteAddr (p_model q) = remoteAddr (p_model p) /\
    conn (p_model q) = conn (p_model p))); [|auto].
  intros q ev (H1 & H2 & H3).
  destruct (step_config q ev) as (E1 & E2 & E3). rewrite E1, E2, E3. auto.
Qed.

Lemma run_keeps_on (P : Program -> Prop) (Q : time.Time * Input -> Prop) :
  (forall p ev, Q ev -> P p -> P (step p ev)) ->
  forall evs p, (forall ev, In ev evs -> Q ev) -> P p -> P (run p evs).
Proof.
  intros K evs. induction evs as [|ev evs IH]; intros p A H; [exact H|].
  cbn [run fold_left]. apply IH.
  - intros ev' I. apply A. now right.
  - apply K; [apply A; now left|exact H].
Qed.

(** X5: the configuration of a session never changes.  Whatever arrives, in
    whatever order, the username, the text of the peer address and the
    connection held by the model are those of the beginning. *)
Theorem configuration_is_fixed (p : Program) (evs : list (time.Time * Input)) :
  username (p_model (run p evs)) = username (p_model p) /\
  remoteAddr (p_model (run p evs)) = remoteAddr (p_model p) /\
  conn (p_model (run p evs)) = conn (p_model p).
Proof. exact (run_config evs p). Qed.

(** *** Where the datagrams go *)

Lemma step_calls (p : Program) (ev : time.Time * Input) (c : UDPConn) :
  conn (p_model p) = Some c ->
  exists added,
    p_calls (step p ev) = (p_calls p ++ added)%list /\
    Forall (fun call => exists data,
              call = WriteToUDP c data (resolved (p_model p))) added.
Proof.
  intros C. destruct ev as [now i].
  assert (Same : forall q, p_calls q = p_calls p ->
            exists added, p_calls q = (p_calls p ++ added)%list /\
              Forall (fun call => exists data,
                        call = WriteToUDP c data (resolved (p_model p))) added).
  { intros q E. exists []. rewrite List.app_nil_r. auto. }
  destruct (running p) eqn:R; [|rewrite step_stopped by assumption; now apply Same].
  destruct (message_of p i) as [[msg completes]|] eqn:M.
  - rewrite (step_handle _ _ _ _ _ R M). unfold handle.
    destruct (Update now (p_model p) msg) as [[[m' cmd] calls]|] eqn:U;
      [|now apply Same].
    cbn [p_calls]. exists calls. split; [reflexivity|].
    destruct (Update_calls _ _ _ _ _ _ U) as [->|(k & c' & data & _ & _ & C' & ->)];
      [constructor|].
    rewrite C in C'. inversion C'; subst c'.
    constructor; [eauto|constructor].
  - destruct (step_no_message p now i M) as [->|[(_ & _ & ->)|(_ & ->)]];
      now apply Same.
Qed.

Lemma run_calls (evs : list (time.Time * Input)) :
  forall (p : Program) (c : UDPConn),
  conn (p_model p) = Some c ->
  exists added,
    p_calls (run p evs) = (p_calls p ++ added)%list /\
    Forall (fun call => exists data,
              call = WriteToUDP c data (resolved (p_model p))) added.
Proof.
  induction evs as [|ev evs IH]; intros p c C.
  - exists []. cbn. rewrite List.app_nil_r. auto.
  - cbn [run fold_left].
    destruct (step_calls p ev c C) as (a1 & E1 & F1).
    destruct (step_config p ev) as (_ & A & C1).
    assert (C2 : conn (p_model (step p ev)) = Some c) by congruence.
    destruct (IH (step p ev) c C2) as (a2 & E2 & F2).
    exists (a1 ++ a2)%list. unfold run in E2. rewrite E2, E1, List.app_assoc.
    split; [reflexivity|]. apply Forall_app. split; [exact F1|].
    unfold resolved in *. now rewrite A in F2.
Qed.

(** A session that has started: the peer address resolved and the socket
    bound. *)
Lemma initialModel_ok (user remote : string) (a : UDPAddr) (c : UDPConn) :
  ResolveUDPAddr (remote ++ ":" ++ Itoa port) = inr a ->
  ListenUDP port = inr c ->
  initialModel user remote
  = {| textarea := textarea_New;
       viewport := viewport_SetContent (viewport_New 76 16)
                     "Connected. Waiting for messages...";
       messages := []; username := user; remoteAddr := UDPAddr_String a;
       conn := Some c; err := None |}.
Proof. intros R L. unfold initialModel. now rewrite R, L. Qed.

Lemma start_listening (m : model) : p_listening (start m) = Some (conn m).
Proof. reflexivity. Qed.

(** X6: every datagram of a session goes out through the socket bound at
    startup and to the peer given on the command line: the address passed to
    [WriteToUDP] is always the one that the text of the address resolved at
    startup resolves to, whoever has sent datagrams to the session in
    between. *)
Theorem datagrams_go_to_the_peer (user remote : string) (a : UDPAddr)
    (c : UDPConn) (evs : list (time.Time * Input)) :
  ResolveUDPAddr (remote ++ ":" ++ Itoa port) = inr a ->
  ListenUDP port = inr c ->
  Forall (fun call => exists data, call = WriteToUDP c data (destination a))
    (p_calls (run (start (initialModel user remote)) evs)).
Proof.
  intros R L.
  destruct (run_calls evs (start (initialModel user remote)) c) as (added & E & F).
  { cbn. now rewrite (initialModel_ok user remote a c R L). }
  rewrite E. cbn [start p_calls app].
  unfold resolved in F. cbn [start p_model] in F.
  rewrite (initialModel_ok user remote a c R L) in F. exact F.
Qed.

(** *** Panics *)

Lemma step_no_panic (p : Program) (ev : time.Time * Input) (c : UDPConn) :
  conn (p_model p) = Some c -> p_panic p = false -> p_listening p <> Some None ->
  p_panic (step p ev) = false /\ p_listening (step p ev) <> Some None.
Proof.
  intros C P L. destruct ev as [now i].
  destruct (running p) eqn:R; [|rewrite step_stopped by assumption; auto].
  destruct (message_of p i) as [[msg completes]|] eqn:M.
  - rewrite (step_handle _ _ _ _ _ R M). unfold handle.
    destruct (Update now (p_model p) msg) as [[[m' cmd] calls]|] eqn:U.
    + cbn [p_panic p_listening]. split; [reflexivity|].
      rewrite (Update_listens _ _ _ _ _ _ U).
      destruct msg; try (destruct completes; [discriminate|assumption]).
      rewrite C. discriminate.
    + apply Update_panics in U. congruence.
  - destruct (step_no_message p now i M) as [->|[(_ & _ & ->)|(L' & _)]];
      [auto|auto|contradiction].
Qed.

Lemma run_no_panic (evs : list (time.Time * Input)) (p : Program) (c : UDPConn) :
  conn (p_model p) = Some c -> p_panic p = false -> p_listening p <> Some None ->
  p_panic (run p evs) = false.
Proof.
  intros C P L.
  apply (run_keeps (fun q => conn (p_model q) = Some c /\ p_panic q = false
                             /\ p_listening q <> Some None)); [|auto].
  intros q ev (C' & P' & L').
  destruct (step_config q ev) as (_ & _ & E).
  destruct (step_no_panic q ev c C' P' L'). split; [congruence|auto].
Qed.

Lemma start_panic (m : model) :
  p_panic (start m) = match conn m with None => true | Some _ => false end.
Proof. cbn. now destruct (conn m). Qed.

(** A program that is up after [start] has a bound connection, and the
    receive outstanding in it, if any, is not on the nil connection: the
    panic of a receive on the nil connection is never still to come. *)
Lemma up_after_start (m : model) (evs : list (time.Time * Input)) :
  running (run (start m) evs) = true ->
  exists c, conn m = Some c /\ p_listening (run (start m) evs) <> Some None.
Proof.
  intros Up. destruct (conn m) as [c|] eqn:C.
  - exists c. split; [reflexivity|].
    apply (run_keeps (fun q => conn (p_model q) = Some c /\ p_panic q = false
                               /\ p_listening q <> Some None)).
    + intros q ev (C' & P' & L').
      destruct (step_config q ev) as (_ & _ & E).
      destruct (step_no_panic q ev c C' P' L'). split; [congruence|auto].
    + cbn [start p_model]. split; [exact C|]. split.
      * now rewrite start_panic, C.
      * rewrite start_listening, C. discriminate.
  - assert (S : running (start m) = false).
    { unfold running. rewrite start_panic, C. reflexivity. }
    rewrite (run_stopped evs _ S), S in Up. discriminate.
Qed.

(** X7: a session that has started never panics.  When the peer address
    resolved and the socket was bound, no sequence of keys, datagrams,
    receive errors and runtime messages makes [Update] or the receive
    command panic: the connection they call is never nil. *)
Theorem started_session_never_panics (user remote : string) (a : UDPAddr)
    (c : UDPConn) (evs : list (time.Time * Input)) :
  ResolveUDPAddr (remote ++ ":" ++ Itoa port) = inr a ->
  ListenUDP port = inr c ->
  p_panic (run (start (initialModel user remote)) evs) = false.
Proof.
  intros R L. apply (run_no_panic evs _ c).
  - cbn. now rewrite (initialModel_ok user remote a c R L).
  - rewrite (initialModel_ok user remote a c R L). reflexivity.
  - rewrite start_listening, (initialModel_ok user remote a c R L).
    discriminate.
Qed.

(** *** How a session ends *)

Lemma step_quitting (p : Program) (ev : time.Time * Input) :
  p_quitting (step p ev) = true ->
  p_quitting p = true \/ exists k, snd ev = InKey k /\ quit_key k = true.
Proof.
  destruct ev as [now i]. cbn [snd].
  destruct (running p) eqn:R; [|rewrite step_stopped by assumption; auto].
  destruct (message_of p i) as [[msg completes]|] eqn:M.
  - rewrite (step_handle _ _ _ _ _ R M). unfold handle.
    destruct (Update now (p_model p) msg) as [[[m' cmd] calls]|] eqn:U; [|auto].
    cbn [p_quitting]. intros Q. apply orb_prop in Q. destruct Q as [Q|Q]; [auto|].
    destruct (Update_quits _ _ _ _ _ _ U Q) as (k & -> & K).
    apply message_of_key in M. destruct M as [-> _]. eauto.
  - destruct (step_no_message p now i M) as [->|[(_ & _ & ->)|(_ & ->)]]; auto.
Qed.

Lemma run_quitting (evs : list (time.Time * Input)) :
  forall p, p_quitting (run p evs) = true ->
  p_quitting p = true \/
  exists a t k b, evs = (a ++ (t, InKey k) :: b)%list /\ quit_key k = true.
Proof.
  induction evs as [|ev evs IH]; intros p Q; [now left|].
  cbn [run fold_left] in Q. destruct (IH _ Q) as [Q1|(a & t & k & b & -> & K)].
  - destruct (step_quitting _ _ Q1) as [Q0|(k & E & K)]; [now left|].
    right. destruct ev as [t i]. cbn in E. subst i.
    exists [], t, k, evs. auto.
  - right. exists (ev :: a), t, k, b. auto.
Qed.

(** X8: only Esc and Ctrl-C make the program ask to quit.  If after a run
    from the start a [tea.Quit] command has been returned, then one of the
    inputs of the run was an Esc or a Ctrl-C key: no datagram, receive
    error, other key or runtime message makes [Update] return it, and
    [Init] does not either. *)
Theorem only_a_quit_key_quits (m : model) (evs : list (time.Time * Input)) :
  p_quitting (run (start m) evs) = true ->
  exists a t k b, evs = (a ++ (t, InKey k) :: b)%list /\ quit_key k = true.
Proof.
  intros Q. destruct (run_quitting _ _ Q) as [Q0|H]; [discriminate Q0|exact H].
Qed.

(** *** The error screen *)

Lemma idle_message (p : Program) (i : Input) (msg : Msg) (completes : bool) :
  p_listening p = None -> message_of p i = Some (msg, completes) ->
  (forall e, msg <> errMsg e) /\ (forall data addr, msg <> udpMsg data addr).
Proof.
  intros L M. split.
  - intros e ->. destruct (message_of_err _ _ _ _ M) as [_ ->].
    cbn in M. rewrite L in M. discriminate.
  - intros data addr ->. apply message_of_udp in M.
    destruct M as (_ & c & d & L' & _). congruence.
Qed.

Lemma View_err (m : model) (e : error) : err m = Some e -> View m = error_screen e.
Proof. intros E. unfold View. now rewrite E. Qed.

Lemma step_idle (p : Program) (ev : time.Time * Input) :
  p_listening p = None ->
  err (p_model (step p ev)) = err (p_model p) /\
  (p_frames (step p ev) = p_frames p \/
   p_frames (step p ev) = (p_frames p ++ [View (p_model (step p ev))])%list).
Proof.
  intros L. destruct ev as [now i].
  destruct (running p) eqn:R; [|rewrite step_stopped by assumption; auto].
  destruct (message_of p i) as [[msg completes]|] eqn:M.
  - rewrite (step_handle _ _ _ _ _ R M). unfold handle.
    destruct (Update now (p_model p) msg) as [[[m' cmd] calls]|] eqn:U; [|auto].
    cbn [p_model p_frames]. split; [|auto].
    apply (Update_keeps_err _ _ _ _ _ _ U), (idle_message p i msg completes L M).
  - destruct (step_no_message p now i M) as [->|[(_ & _ & ->)|(_ & ->)]]; auto.
Qed.

(** Once a receive has failed: nothing is outstanding, the error is the
    one of the failure, and the views since are the error screen. *)
Lemma after_read_error (p : Program) (now : time.Time) (c : UDPConn)
    (e : error) (evs : list (time.Time * Input)) :
  running p = true ->
  p_listening p = Some (Some c) ->
  let p' := run (step p (now, InSocket (ReadErr e))) evs in
  p_listening p' = None /\ err (p_model p') = Some (errMsg_error e) /\
  exists n, p_frames p' = (p_frames p ++ repeat (error_screen e) (S n))%list.
Proof.
  intros R L p'. subst p'. apply run_keeps.
  - intros q ev (L1 & E1 & n & F1).
    destruct (step_idle q ev L1) as (E2 & F2).
    split; [now apply step_not_listening|]. split; [congruence|].
    destruct F2 as [F2|F2]; rewrite F2; [eauto|].
    exists (S n). rewrite F1, <- List.app_assoc. f_equal.
    rewrite (View_err _ (errMsg_error e)) by congruence.
    change (error_screen (errMsg_error e)) with (error_screen e).
    change (repeat (error_screen e) (S (S n)))
      with (error_screen e :: repeat (error_screen e) (S n)).
    now rewrite repeat_cons.
  - unfold step. cbn [fst snd]. rewrite R, L. cbn [listenForMessages_run].
    unfold handle. rewrite Update_err. cbn. repeat split. now exists O.
Qed.

(** X9: the error screen stays.  After a failed receive every view is the
    one line [Error: ] followed by the text of that error: whatever arrives
    afterwards, the error is not cleared or replaced and the chat screen is
    not drawn again. *)
Theorem error_screen_persists (p : Program) (now : time.Time) (c : UDPConn)
    (e : error) (evs : list (time.Time * Input)) :
  running p = true ->
  p_listening p = Some (Some c) ->
  let p' := run (step p (now, InSocket (ReadErr e))) evs in
  err (p_model p') = Some (errMsg_error e) /\
  View (p_model p') = error_screen e /\
  exists n, p_frames p' = (p_frames p ++ repeat (error_screen e) (S n))%list.
Proof.
  intros R L p'.
  destruct (after_read_error p now c e evs R L) as (_ & E & F).
  split; [exact E|]. split; [|exact F].
  exact (View_err _ (errMsg_error e) E).
Qed.

(** X10: sending goes on behind the error screen.  After a failed receive,
    for as long as the program is up, Enter on a non-empty input still hands
    the datagram to the socket and appends the local line to the transcript;
    the view stays the error line, so the line is not shown. *)
Theorem sending_goes_on_after_a_read_error (p : Program) (now now2 : time.Time)
    (c : UDPConn) (e : error) (evs : list (time.Time * Input)) (k : Key) :
  running p = true ->
  p_listening p = Some (Some c) ->
  conn (p_model p) = Some c ->
  let p' := run (step p (now, InSocket (ReadErr e))) evs in
  running p' = true ->
  Type_ k = KeyEnter ->
  submitted (p_model p') k <> EmptyString ->
  p_calls (step p' (now2, InKey k))
  = (p_calls p'
     ++ [WriteToUDP c (payload (packet_of now2 (p_model p') (submitted (p_model p') k)))
           (resolved (p_model p))])%list /\
  messages (p_model (step p' (now2, InKey k)))
  = (messages (p_model p')
     ++ [local_line now2 (p_model p') (submitted (p_model p') k)])%list /\
  View (p_model (step p' (now2, InKey k))) = error_screen e.
Proof.
  intros R L C p' R' T NE.
  destruct (after_read_error p now c e evs R L) as (_ & E & _). fold p' in E.
  assert (Cfg : remoteAddr (p_model p') = remoteAddr (p_model p) /\
                conn (p_model p') = Some c).
  { subst p'.
    destruct (run_config evs (step p (now, InSocket (ReadErr e)))) as (_ & A1 & C1).
    destruct (step_config p (now, InSocket (ReadErr e))) as (_ & A2 & C2).
    split; congruence. }
  destruct Cfg as [A C'].
  rewrite (step_key p' now2 k R'). unfold handle.
  rewrite Update_enter by assumption. rewrite C'.
  destruct (String.eqb_spec (submitted (p_model p') k) EmptyString);
    [contradiction|].
  cbn [p_calls p_model]. repeat split.
  - unfold resolved. now rewrite A.
  - apply (View_err _ (errMsg_error e)). exact E.
Qed.

Lemma step_keeps_err (p : Program) (ev : time.Time * Input) :
  (forall e, snd ev <> InSocket (ReadErr e)) ->
  err (p_model (step p ev)) = err (p_model p).
Proof.
  destruct ev as [now i]. cbn [snd]. intros NE.
  destruct (running p) eqn:R; [|rewrite step_stopped by assumption; auto].
  destruct (message_of p i) as [[msg completes]|] eqn:M.
  - rewrite (step_handle _ _ _ _ _ R M). unfold handle.
    destruct (Update now (p_model p) msg) as [[[m' cmd] calls]|] eqn:U; [|auto].
    cbn [p_model]. apply (Update_keeps_err _ _ _ _ _ _ U).
    intros e ->. apply message_of_err in M. destruct M as [_ ->].
    now contradiction (NE e).
  - destruct (step_no_message p now i M) as [->|[(_ & _ & ->)|(_ & ->)]]; auto.
Qed.

(** X11: the error field is written by a failed receive and by nothing else.
    Across a run in which no read of the socket fails the field is what it
    was; in particular a datagram that does not decode, an address that does
    not resolve at send time and a failed send leave no trace in it. *)
Theorem error_only_from_a_failed_read (p : Program)
    (evs : list (time.Time * Input)) :
  (forall t e, ~ In (t, InSocket (ReadErr e)) evs) ->
  err (p_model (run p evs)) = err (p_model p).
Proof.
  intros NE.
  apply (run_keeps_on (fun q => err (p_model q) = err (p_model p))
           (fun ev => forall e, snd ev <> InSocket (ReadErr e))).
  - intros q ev Q E. now rewrite step_keeps_err.
  - intros [t i] I e E. cbn in E. subst i. exact (NE t e I).
  - reflexivity.
Qed.

(** *** What sends *)

Lemma step_sends (p : Program) (ev : time.Time * Input) :
  (forall k, snd ev = InKey k -> enter_key k = false) ->
  p_calls (step p ev) = p_calls p /\
  ((forall r, snd ev <> InSocket r) ->
   messages (p_model (step p ev)) = messages (p_model p)).
Proof.
  destruct ev as [now i]. cbn [snd]. intros NK.
  destruct (running p) eqn:R; [|rewrite step_stopped by assumption; auto].
  destruct (message_of p i) as [[msg completes]|] eqn:M.
  - rewrite (step_handle _ _ _ _ _ R M). unfold handle.
    destruct (Update now (p_model p) msg) as [[[m' cmd] calls]|] eqn:U; [|auto].
    cbn [p_calls p_model]. split.
    + destruct (Update_calls _ _ _ _ _ _ U) as [->|(k & c & data & -> & K & _)].
      * apply List.app_nil_r.
      * apply message_of_key in M. destruct M as [-> _].
        rewrite (NK k eq_refl) in K. discriminate.
    + intros NS.
      destruct (Update_lines _ _ _ _ _ _ U)
        as [E|(l & _ & [(k & -> & K)|(data & addr & ->)])]; [exact E| |].
      * apply message_of_key in M. destruct M as [-> _].
        rewrite (NK k eq_refl) in K. discriminate.
      * apply message_of_udp in M. destruct M as (_ & c & d & _ & -> & _).
        now contradiction (NS (ReadOK d addr)).
  - destruct (step_no_message p now i M) as [->|[(_ & _ & ->)|(_ & ->)]]; auto.
Qed.

(** X12: nothing is sent but on Enter.  Across a run without an Enter key no
    call is made on the socket, whatever is typed and whatever arrives; and
    if no datagram arrives either, the transcript is what it was. *)
Theorem only_enter_sends (p : Program) (evs : list (time.Time * Input)) :
  (forall t k, In (t, InKey k) evs -> enter_key k = false) ->
  p_calls (run p evs) = p_calls p /\
  ((forall t r, ~ In (t, InSocket r) evs) ->
   messages (p_model (run p evs)) = messages (p_model p)).
Proof.
  intros NK. split.
  - apply (run_keeps_on (fun q => p_calls q = p_calls p)
             (fun ev => forall k, snd ev = InKey k -> enter_key k = false)).
    + intros q ev Q E. now rewrite (proj1 (step_sends q ev Q)).
    + intros [t i] I k E. cbn in E. subst i. exact (NK t k I).
    + reflexivity.
  - intros NS.
    apply (run_keeps_on (fun q => messages (p_model q) = messages (p_model p))
             (fun ev => (forall k, snd ev = InKey k -> enter_key k = false) /\
                        (forall r, snd ev <> InSocket r))).
    + intros q ev (Q1 & Q2) E. now rewrite (proj2 (step_sends q ev Q1) Q2).
    + intros [t i] I. split.
      * intros k E. cbn in E. subst i. exact (NK t k I).
      * intros r E. cbn in E. subst i. exact (NS t r I).
    + reflexivity.
Qed.

(** *** The receive command *)

Lemma step_armed (p : Program) (ev : time.Time * Input) (c : UDPConn) :
  p_listening p = Some (Some c) -> conn (p_model p) = Some c ->
  (forall e, snd ev <> InSocket (ReadErr e)) ->
  p_listening (step p ev) = Some (Some c).
Proof.
  destruct ev as [now i]. cbn [snd]. intros L C NE.
  destruct (running p) eqn:R; [|rewrite step_stopped by assumption; auto].
  destruct (message_of p i) as [[msg completes]|] eqn:M.
  - rewrite (step_handle _ _ _ _ _ R M). unfold handle.
    destruct (Update now (p_model p) msg) as [[[m' cmd] calls]|] eqn:U; [|auto].
    cbn [p_listening]. rewrite (Update_listens _ _ _ _ _ _ U).
    destruct msg as [k|data addr|e|tag].
    + apply message_of_key in M. destruct M as [_ ->]. exact L.
    + now rewrite C.
    + apply message_of_err in M. destruct M as [_ ->]. now contradiction (NE e).
    + apply message_of_other in M. subst completes. exact L.
  - destruct (step_no_message p now i M) as [->|[(_ & _ & ->)|(L' & _)]];
      [auto|auto|congruence].
Qed.

(** X13: the receive stays armed.  From a state with the receive command
    outstanding on the session's socket, across a run in which no read
    fails, the command is outstanding at the end; if the program is then
    still up, the next datagram that decodes is appended to the
    transcript. *)
Theorem receive_stays_armed (p : Program) (c : UDPConn)
    (evs : list (time.Time * Input)) :
  p_listening p = Some (Some c) ->
  conn (p_model p) = Some c ->
  (forall t e, ~ In (t, InSocket (ReadErr e)) evs) ->
  p_listening (run p evs) = Some (Some c) /\
  forall now datagram addr packet,
    running (run p evs) = true ->
    json.Unmarshal (take 1024 datagram) = Some packet ->
    messages (p_model (step (run p evs) (now, InSocket (ReadOK datagram addr))))
    = (messages (p_model (run p evs)) ++ [remote_line packet])%list.
Proof.
  intros L C NE.
  assert (A : p_listening (run p evs) = Some (Some c)).
  { apply (run_keeps_on
             (fun q => p_listening q = Some (Some c) /\ conn (p_model q) = Some c)
             (fun ev => forall e, snd ev <> InSocket (ReadErr e))); [| |auto].
    - intros q ev Q (L1 & C1). split; [now apply step_armed|].
      destruct (step_config q ev) as (_ & _ & E). congruence.
    - intros [t i] I e E. cbn in E. subst i. exact (NE t e I). }
  split; [exact A|].
  intros now datagram addr packet R U.
  rewrite (step_datagram _ now c _ _ R A). unfold handle.
  now rewrite Update_udp, U.
Qed.

(** *** The viewport *)

Section Viewport.

(** The text a viewport holds: [shown s] once [SetContent] was given [s]
    (the library may normalise line ends), and neither scrolling nor a
    message changes it. *)
Variable content : viewport_Model -> string.
Variable shown : string -> string.
Hypothesis content_SetContent :
  forall v s, content (viewport_SetContent v s) = shown s.
Hypothesis content_GotoBottom :
  forall v, content (viewport_GotoBottom v) = content v.
Hypothesis content_Update :
  forall v msg, content (fst (viewport_Update v msg)) = content v.

Lemma Update_shows (now : time.Time) (m m' : model) (msg : Msg)
    (cmd : Cmd) (calls : list SocketCall) :
  Update now m msg = Returns (m', cmd, calls) ->
  shows_transcript content shown m -> shows_transcript content shown m'.
Proof.
  assert (Shown : forall m1 l,
            shows_transcript content shown (show_line (seen m1 msg) l)).
  { intros m1 l. unfold shows_transcript. cbn.
    rewrite content_GotoBottom, content_SetContent.
    now destruct (messages m1). }
  assert (Seen : shows_transcript content shown m ->
                 shows_transcript content shown (seen m msg)).
  { unfold shows_transcript. cbn. now rewrite content_Update. }
  by_message m msg; returned; intros H; first [exact (Seen H) | apply (Shown m)].
Qed.

Lemma step_shows (p : Program) (ev : time.Time * Input) :
  shows_transcript content shown (p_model p) ->
  shows_transcript content shown (p_model (step p ev)).
Proof.
  intros H. destruct ev as [now i].
  destruct (running p) eqn:R; [|rewrite step_stopped by assumption; auto].
  destruct (message_of p i) as [[msg completes]|] eqn:M.
  - rewrite (step_handle _ _ _ _ _ R M). unfold handle.
    destruct (Update now (p_model p) msg) as [[[m' cmd] calls]|] eqn:U; [|auto].
    exact (Update_shows _ _ _ _ _ _ U H).
  - destruct (step_no_message p now i M) as [->|[(_ & _ & ->)|(_ & ->)]]; auto.
Qed.

(** X14: the viewport shows the transcript.  In a session that has started,
    after any run, the text held by the viewport is the greeting while the
    transcript is empty and from then on all the lines of the transcript,
    joined by newlines. *)
Theorem viewport_shows_the_transcript (user remote : string) (a : UDPAddr)
    (c : UDPConn) (evs : list (time.Time * Input)) :
  ResolveUDPAddr (remote ++ ":" ++ Itoa port) = inr a ->
  ListenUDP port = inr c ->
  let m := p_model (run (start (initialModel user remote)) evs) in
  content (viewport m)
  = shown match messages m with
          | [] => "Connected. Waiting for messages..."
          | _ => strings.Join (messages m) newline
          end.
Proof.
  intros R L.
  apply (run_keeps (fun q => shows_transcript content shown (p_model q))).
  - intros q ev. apply step_shows.
  - unfold shows_transcript. cbn [start p_model].
    rewrite (initialModel_ok user remote a c R L). cbn.
    apply content_SetContent.
Qed.

End Viewport.

(** *** From one session to the other *)

(** X15: what one session sends the other shows.  The datagram that a
    submit hands to the socket, once read by a session that is up and
    listening, adds to that session's transcript the line of the sender's
    clock reading, username and text (in the style of a remote name),
    provided the datagram fits the receive buffer of 1024 bytes. *)
Theorem message_reaches_the_peer (sender receiver : Program)
    (now later : time.Time) (k : Key) (c c' : UDPConn) (from : UDPAddr) :
  running sender = true ->
  conn (p_model sender) = Some c ->
  Type_ k = KeyEnter ->
  submitted (p_model sender) k <> EmptyString ->
  utf8.ValidString (textarea_Value (textarea (seen (p_model sender) (KeyMsg k))))
  = true ->
  utf8.ValidString (username (p_model sender)) = true ->
  time.representable now ->
  running receiver = true ->
  p_listening receiver = Some (Some c') ->
  let data := payload (packet_of now (p_model sender) (submitted (p_model sender) k)) in
  (String.length data <= 1024)%nat ->
  p_calls (step sender (now, InKey k))
  = (p_calls sender ++ [WriteToUDP c data (resolved (p_model sender))])%list /\
  messages (p_model (step receiver (later, InSocket (ReadOK data from))))
  = (messages (p_model receiver)
     ++ [line (timestampStyle (time.Format_clock now))
           (remoteUsernameStyle (username (p_model sender)))
           (messageStyle (submitted (p_model sender) k))])%list.
Proof.
  intros Rs C T NE Vi Vu Rn Rr L data Fit. split.
  - rewrite (step_key sender now k Rs). unfold handle.
    rewrite Update_enter by assumption. rewrite C.
    destruct (String.eqb_spec (submitted (p_model sender) k) EmptyString);
      [contradiction|reflexivity].
  - rewrite (step_datagram receiver later c' _ _ Rr L). unfold handle.
    rewrite Update_udp, (take_all _ _ Fit).
    destruct (Unmarshal_Marshal
                (packet_of now (p_model sender) (submitted (p_model sender) k)))
      as (d & M & U).
    { repeat split; cbn [packet_of Sender Text Timestamp]; try assumption;
        try apply Rn. apply TrimSpace_valid, Vi. }
    subst data. unfold payload. rewrite M, U. reflexivity.
Qed.

(** X16: a message too long for the receive buffer is lost without a
    trace.  When the encoding of a valid message is longer than 1024 bytes,
    the session that reads the datagram gets its first 1024 bytes, which do
    not decode: nothing is added to the transcript, no error is recorded,
    nothing is sent back, and the session goes on. *)
Theorem oversized_message_is_lost (p : Program) (now : time.Time)
    (packet : msgPacket) (data : string) (from : UDPAddr) (c : UDPConn) :
  running p = true ->
  p_listening p = Some (Some c) ->
  valid_message packet ->
  json.Marshal packet = Some data ->
  (1024 < String.length data)%nat ->
  let p' := step p (now, InSocket (ReadOK data from)) in
  messages (p_model p') = messages (p_model p) /\
  err (p_model p') = err (p_model p) /\
  p_calls p' = p_calls p /\
  running p' = true.
Proof.
  intros R L V M Long p'. subst p'.
  rewrite (step_datagram p now c _ _ R L). unfold handle.
  rewrite Update_udp, (Marshal_cut packet data 1024 V M Long).
  cbn. rewrite List.app_nil_r. auto.
Qed.

(** *** The text of a message *)

(** X17: the text that is sent is the input without its outer white space.
    What [Update] reads on Enter is the value of the text area with white
    space cut from its two ends and nothing else changed; for an input in
    UTF-8 what is left neither starts nor ends with a white space rune, and
    trimming it again gives the same text. *)
Theorem sent_text_is_the_input_trimmed (m : model) (k : Key) :
  (exists pre post,
     textarea_Value (textarea (seen m (KeyMsg k))) = pre ++ submitted m k ++ post /\
     blank pre = true /\ blank post = true) /\
  (utf8.ValidString (textarea_Value (textarea (seen m (KeyMsg k)))) = true ->
   (submitted m k = EmptyString \/
    strings.IsSpace (fst (utf8.DecodeRuneInString (submitted m k))) = false) /\
   (forall a b, submitted m k = a ++ b -> b <> EmptyString -> blank b = false) /\
   strings.TrimSpace (submitted m k) = submitted m k).
Proof.
  unfold submitted. split; [apply TrimSpace_split|].
  intros V. split; [now apply TrimSpace_head|]. split.
  - intros a b. now apply TrimSpace_tail.
  - now apply TrimSpace_idem.
Qed.

(** *** The chat screen *)

Lemma step_frames (p : Program) (ev : time.Time * Input) :
  p_frames (step p ev) = p_frames p \/
  p_frames (step p ev) = (p_frames p ++ [View (p_model (step p ev))])%list.
Proof.
  destruct ev as [now i].
  destruct (running p) eqn:R; [|rewrite step_stopped by assumption; auto].
  destruct (message_of p i) as [[msg completes]|] eqn:M.
  - rewrite (step_handle _ _ _ _ _ R M). unfold handle.
    destruct (Update now (p_model p) msg) as [[[m' cmd] calls]|]; auto.
  - destruct (step_no_message p now i M) as [->|[(_ & _ & ->)|(_ & ->)]]; auto.
Qed.

(** X18: until a read fails the chat screen is what is drawn.  In a session
    that has started, across a run in which no read of the socket fails,
    every view is the chat screen, and the peer address in its title bar is
    the one resolved at startup. *)
Theorem chat_screen_until_a_read_fails (user remote : string) (a : UDPAddr)
    (c : UDPConn) (evs : list (time.Time * Input)) :
  ResolveUDPAddr (remote ++ ":" ++ Itoa port) = inr a ->
  ListenUDP port = inr c ->
  (forall t e, ~ In (t, InSocket (ReadErr e)) evs) ->
  Forall (fun frame => exists vp ta, frame = render_screen (UDPAddr_String a) vp ta)
    (p_frames (run (start (initialModel user remote)) evs)).
Proof.
  intros R L NE.
  pose proof (initialModel_ok user remote a c R L) as I.
  apply (run_keeps_on
           (fun q => (err (p_model q) = None /\
                      remoteAddr (p_model q) = UDPAddr_String a) /\
                     Forall (fun frame => exists vp ta,
                               frame = render_screen (UDPAddr_String a) vp ta)
                       (p_frames q))
           (fun ev => forall e, snd ev <> InSocket (ReadErr e))).
  - intros q ev Q ((E & A) & F).
    assert (E' : err (p_model (step q ev)) = None)
      by (now rewrite step_keeps_err).
    assert (A' : remoteAddr (p_model (step q ev)) = UDPAddr_String a).
    { destruct (step_config q ev) as (_ & -> & _). exact A. }
    split; [auto|].
    destruct (step_frames q ev) as [->| ->]; [exact F|].
    apply Forall_app. split; [exact F|]. constructor; [|constructor].
    unfold View. rewrite E', A'. eauto.
  - intros [t i] In_ e E. cbn in E. subst i. exact (NE t e In_).
  - cbn [start p_model p_frames]. rewrite I. cbn [err remoteAddr].
    split; [auto|]. constructor; [|constructor]. unfold View. cbn. eauto.
Qed.

(** *** Datagrams and lines *)

Lemma Update_echo (now : time.Time) (m m' : model) (msg : Msg)
    (cmd : Cmd) (calls : list SocketCall) :
  Update now m msg = Returns (m', cmd, calls) ->
  exists lines,
    messages m' = (messages m ++ lines)%list /\
    (List.length calls <= List.length lines)%nat /\
    ((forall data addr, msg <> udpMsg data addr) ->
     List.length calls = List.length lines).
Proof.
  by_message m msg; returned;
    first [ exists []; cbn; rewrite List.app_nil_r; now auto
          | eexists [_]; cbn; split; [reflexivity|]; split; [lia|];
            intros NU; first [reflexivity | now contradiction (NU _ _ eq_refl)] ].
Qed.

Lemma step_echo (p : Program) (ev : time.Time * Input) :
  exists sent lines,
    p_calls (step p ev) = (p_calls p ++ sent)%list /\
    messages (p_model (step p ev)) = (messages (p_model p) ++ lines)%list /\
    (List.length sent <= List.length lines)%nat /\
    ((forall r, snd ev <> InSocket r) -> List.length sent = List.length lines).
Proof.
  assert (Same : forall q, p_calls q = p_calls p ->
            messages (p_model q) = messages (p_model p) ->
            exists sent lines,
              p_calls q = (p_calls p ++ sent)%list /\
              messages (p_model q) = (messages (p_model p) ++ lines)%list /\
              (List.length sent <= List.length lines)%nat /\
              ((forall r, snd ev <> InSocket r) ->
               List.length sent = List.length lines)).
  { intros q E1 E2. exists [], []. rewrite !List.app_nil_r. auto. }
  destruct ev as [now i]. cbn [snd] in *.
  destruct (running p) eqn:R; [|rewrite step_stopped by assumption; now apply Same].
  destruct (message_of p i) as [[msg completes]|] eqn:M.
  - rewrite (step_handle _ _ _ _ _ R M). unfold handle.
    destruct (Update now (p_model p) msg) as [[[m' cmd] calls]|] eqn:U;
      [|now apply Same].
    destruct (Update_echo _ _ _ _ _ _ U) as (lines & E & Le & Eq).
    exists calls, lines. cbn [p_calls p_model]. repeat split; try assumption.
    intros NS. apply Eq. intros data addr ->.
    apply message_of_udp in M. destruct M as (_ & c & d & _ & -> & _).
    now contradiction (NS (ReadOK d addr)).
  - destruct (step_no_message p now i M) as [->|[(_ & _ & ->)|(_ & ->)]];
      now apply Same.
Qed.

(** X19: every datagram sent has its line.  Across any run the transcript
    grows by at least as many lines as calls are made on the socket, and by
    exactly as many when no datagram arrives: a message is handed to the
    socket and echoed in the transcript together, or neither. *)
Theorem every_send_is_echoed (p : Program) (evs : list (time.Time * Input)) :
  exists sent lines,
    p_calls (run p evs) = (p_calls p ++ sent)%list /\
    messages (p_model (run p evs)) = (messages (p_model p) ++ lines)%list /\
    (List.length sent <= List.length lines)%nat /\
    ((forall t r, ~ In (t, InSocket r) evs) ->
     List.length sent = List.length lines).
Proof.
  revert p. induction evs as [|ev evs IH]; intros p.
  - exists [], []. cbn. rewrite !List.app_nil_r. auto.
  - cbn [run fold_left].
    destruct (step_echo p ev) as (s1 & l1 & C1 & M1 & Le1 & Eq1).
    destruct (IH (step p ev)) as (s2 & l2 & C2 & M2 & Le2 & Eq2).
    exists (s1 ++ s2)%list, (l1 ++ l2)%list. unfold run in C2, M2.
    rewrite C2, M2, C1, M1, !List.app_assoc, !List.length_app.
    repeat split; [lia|].
    intros NS. rewrite Eq1, Eq2; [reflexivity| |].
    + intros t r I. apply (NS t r). now right.
    + intros r E. destruct ev as [t i]. cbn in E. subst i.
      apply (NS t r). now left.
Qed.

End Session.
(** C4: the round-trip law of the codec.  For every valid message (sender
    and text in UTF-8, timestamp representable) [json.Marshal] succeeds and
    [json.Unmarshal] of the bytes it gives is the message itself. *)
Theorem codec_round_trip (p : msgPacket) :
  valid_message p ->
  exists data, json.Marshal p = Some data /\ json.Unmarshal data = Some p.
Proof. exact (Unmarshal_Marshal p). Qed.

(** ** The theorems at concrete inputs *)

#[local] Existing Instance plain.

Ltac decide_facts :=
  repeat split; vm_compute; first [reflexivity | discriminate | (intro; discriminate)].

Lemma codec_round_trip_witness :
  exists data,
    json.Marshal sample_message = Some data /\
    json.Unmarshal data = Some sample_message.
Proof. apply (codec_round_trip sample_message). decide_facts. Defined.


Lemma malformed_datagram_dropped_witness :
  json.Unmarshal (take 1024 "garbage") = None /\
  let p' := step (N := lan) alice_hello (noon, InSocket (ReadOK "garbage" peer)) in
  messages (p_model p') = [] /\
  textarea_Value (textarea (p_model p')) = "hello" /\
  err (p_model p') = None /\
  conn (p_model p') = Some port9999 /\
  remoteAddr (p_model p') = "100.64.0.2:9999" /\
  username (p_model p') = "alice" /\
  p_calls p' = [] /\
  running p' = true /\
  p_listening p' = Some (Some port9999) /\
  forall now2 datagram2 addr2 packet,
    json.Unmarshal (take 1024 datagram2) = Some packet ->
    messages (p_model (step (N := lan) p' (now2, InSocket (ReadOK datagram2 addr2))))
    = [remote_line (B := plain) packet].
Proof.
  split; [reflexivity|].
  apply (malformed_datagram_dropped (N := lan) (B := plain)
           alice_hello noon "garbage" peer port9999); reflexivity.
Defined.

Lemma receive_error_degrades_witness :
  let p' := step (N := lan) alice_hello (noon, InSocket (ReadErr closed_socket)) in
  err (p_model p') = Some (errMsg_error closed_socket) /\
  Error (errMsg_error closed_socket) = "use of closed network connection" /\
  p_listening p' = None /\
  running p' = true /\
  p_quitting p' = false /\
  messages (p_model p') = [] /\
  p_calls p' = [] /\
  (forall evs, p_listening (run (N := lan) p' evs) = None) /\
  (forall evs now2 r2,
     step (N := lan) (run (N := lan) p' evs) (now2, InSocket r2)
     = run (N := lan) p' evs).
Proof.
  apply (receive_error_degrades (N := lan) (B := plain) alice_hello noon
           port9999 closed_socket); reflexivity.
Defined.

Lemma any_sender_is_displayed_witness :
  stranger <> peer /\
  messages (p_model (step (N := lan) alice_started
                       (noon, InSocket (ReadOK bob_hi stranger))))
  = ["00:00:00 bob: hi"].
Proof.
  split; [discriminate|].
  apply (any_sender_is_displayed (N := lan) (B := plain) alice_started noon
           bob_hi stranger port9999 (bob_says "hi")); reflexivity.
Defined.


Lemma startup_failure_is_shown_witness :
  initialModel (N := lan) (B := plain) "alice" "nohost" = model_err no_such_host /\
  View (initialModel (N := lan) (B := plain) "alice" "nohost")
  = "Error: lookup nohost:9999: no such host" ++ newline /\
  (forall w, exit_code (main (N := lan) ["chat"; "alice"; "nohost"] w) = Some 1 ->
     exists e',
       printed (main (N := lan) ["chat"; "alice"; "nohost"] w)
       = ["Error: " ++ Error e' ++ newline] /\
       (w_terminal_error w = Some e' \/ w_recovery w = Recovered (Some e'))).
Proof.
  apply (startup_failure_is_shown (N := lan) (B := plain)
           "chat" "alice" "nohost" no_such_host).
  left. reflexivity.
Defined.

Lemma transcript_line_format_witness :
  exists m',
    updated (N := lan) noon (p_model alice_hello) (KeyMsg (key KeyEnter)) = Some m' /\
    messages m' = ["12:34:56" ++ " " ++ "alice" ++ ": " ++ "hello"].
Proof.
  apply (proj1 (transcript_line_format (N := lan) (B := plain) noon
                  (p_model alice_hello) port9999 eq_refl) (key KeyEnter));
    decide_facts.
Defined.

Lemma only_sent_text_is_checked_witness :
  exists m',
    Update (N := lan) noon alice (udpMsg bob_empty stranger)
    = Returns (m', listenForMessages (Some port9999), []) /\
    messages m' = ["00:00:00 bob: "].
Proof.
  apply (proj2 (only_sent_text_is_checked (N := lan) (B := plain) noon alice
                  port9999 eq_refl) bob_empty stranger (bob_says EmptyString)).
  reflexivity.
Defined.

Lemma transcript_append_only_witness :
  nth_error
    (messages (p_model
       (run (N := lan)
          (step (N := lan) alice_hello (noon, InKey (key KeyEnter)))
          [(noon, InSocket (ReadOK bob_hi peer)); (noon, InKey (key KeyEsc))]))) 0
  = Some "12:34:56 alice: hello".
Proof.
  apply (proj2 (proj2 (transcript_append_only (N := lan) (B := plain)
           (step (N := lan) alice_hello (noon, InKey (key KeyEnter)))
           [(noon, InSocket (ReadOK bob_hi peer)); (noon, InKey (key KeyEsc))]))).
  reflexivity.
Defined.

(** ** Where the code departs from the specification *)

(** C1 is not what the code does.  With the peer address unresolvable, and
    likewise with port 9999 taken, the text of that error is not what
    [main] prints.  The receive command of [Init] panics on the nil
    connection before any input; where Bubble Tea recovers, [Run] returns
    its own error, and [main] exits with code 1 printing the text of the
    runtime's error; where it does not, the Go runtime ends the process with
    status 2 and [main] prints nothing. *)
Lemma startup_failure_text_is_not_printed :
  ResolveUDPAddr (Net := lan) ("nohost" ++ ":" ++ Itoa port) = inl no_such_host /\
  exit_code (main (N := lan) ["chat"; "alice"; "nohost"]
               {| w_terminal_error := None;
                  w_recovery := Recovered (Some program_panic); w_inputs := [] |})
  = Some 1 /\
  printed (main (N := lan) ["chat"; "alice"; "nohost"]
             {| w_terminal_error := None;
                w_recovery := Recovered (Some program_panic); w_inputs := [] |})
  = ["Error: program was killed: program experienced a panic" ++ newline] /\
  "Error: program was killed: program experienced a panic" ++ newline
  <> "Error: lookup nohost:9999: no such host" ++ newline /\
  exit_code (main (N := lan) ["chat"; "alice"; "nohost"]
               {| w_terminal_error := None; w_recovery := Killed; w_inputs := [] |})
  = Some 2 /\
  printed (main (N := lan) ["chat"; "alice"; "nohost"]
             {| w_terminal_error := None; w_recovery := Killed; w_inputs := [] |})
  = [] /\
  ListenUDP (Net := lan_port_taken) port = inl port_in_use /\
  printed (main (N := lan_port_taken) ["chat"; "alice"; "100.64.0.2"]
             {| w_terminal_error := None;
                w_recovery := Recovered (Some program_panic); w_inputs := [] |})
  = ["Error: program was killed: program experienced a panic" ++ newline] /\
  "Error: program was killed: program experienced a panic" ++ newline
  <> "Error: listen udp :9999: bind: address already in use" ++ newline.
Proof. repeat split; discriminate. Qed.

(** C2 is not what the code does: the line of the specification's own
    scenarios has no square brackets around the time, for the local message
    [hello] of alice and for the remote message [hi] of bob alike. *)
Lemma transcript_line_has_no_brackets :
  messages (p_model (step (N := lan) alice_hello (noon, InKey (key KeyEnter))))
  = ["12:34:56 alice: hello"] /\
  messages (p_model (step (N := lan) alice_started
                       (noon, InSocket (ReadOK bob_hi peer))))
  = ["00:00:00 bob: hi"] /\
  "12:34:56 alice: hello" <> "[12:34:56] alice: hello" /\
  "00:00:00 bob: hi" <> "[00:00:00] bob: hi".
Proof. repeat split; discriminate. Qed.


(** C9 is not what the code does: a datagram whose text is empty decodes
    without error to a message with the empty text, and a transcript line is
    appended for it; so does the datagram [null]. *)
Lemma empty_remote_text_is_displayed :
  json.Unmarshal bob_empty = Some (bob_says EmptyString) /\
  Text (bob_says EmptyString) = EmptyString /\
  messages (p_model (step (N := lan) alice_started
                       (noon, InSocket (ReadOK bob_empty peer))))
  = ["00:00:00 bob: "] /\
  json.Unmarshal "null" = Some msgPacket_zero /\
  messages (p_model (step (N := lan) alice_started
                       (noon, InSocket (ReadOK "null" peer))))
  = ["00:00:00 : "].
Proof. repeat split. Qed.

(** ** The properties of the session at concrete inputs *)

Lemma datagrams_go_to_the_peer_witness :
  Forall (fun call => exists data, call = WriteToUDP port9999 data (Some peer))
    (p_calls (run (N := lan) alice_started a_chat)).
Proof.
  apply (datagrams_go_to_the_peer (N := lan) (B := plain)
           "alice" "100.64.0.2" peer port9999 a_chat); reflexivity.
Defined.

Lemma started_session_never_panics_witness :
  p_panic (run (N := lan) alice_started
             ((noon, InSocket (ReadErr closed_socket)) :: a_chat)) = false.
Proof.
  apply (started_session_never_panics (N := lan) (B := plain)
           "alice" "100.64.0.2" peer port9999
           ((noon, InSocket (ReadErr closed_socket)) :: a_chat)); reflexivity.
Defined.

Lemma only_a_quit_key_quits_witness :
  exists a t k b,
    [(noon, InKey hello_keys); (noon, InKey (key KeyEsc));
     (noon, InSocket (ReadOK bob_hi peer))]
    = (a ++ (t, InKey k) :: b)%list /\
    quit_key k = true.
Proof.
  apply (only_a_quit_key_quits (N := lan) (B := plain) alice
           [(noon, InKey hello_keys); (noon, InKey (key KeyEsc));
            (noon, InSocket (ReadOK bob_hi peer))]).
  reflexivity.
Defined.

Lemma error_screen_persists_witness :
  err (p_model (run (N := lan)
                  (step (N := lan) alice_hello (noon, InSocket (ReadErr closed_socket)))
                  a_chat))
  = Some (errMsg_error closed_socket) /\
  View (p_model (run (N := lan)
                   (step (N := lan) alice_hello (noon, InSocket (ReadErr closed_socket)))
                   a_chat))
  = "Error: use of closed network connection" ++ newline /\
  exists n,
    p_frames (run (N := lan)
                (step (N := lan) alice_hello (noon, InSocket (ReadErr closed_socket)))
                a_chat)
    = (p_frames alice_hello
       ++ repeat ("Error: use of closed network connection" ++ newline)%string
            (S n))%list.
Proof.
  apply (error_screen_persists (N := lan) (B := plain) alice_hello noon port9999
           closed_socket a_chat); reflexivity.
Defined.

Lemma error_only_from_a_failed_read_witness :
  err (p_model (run (N := lan) alice_started
                  ((noon, InSocket (ReadOK "garbage" stranger)) :: a_chat)))
  = None.
Proof.
  apply (error_only_from_a_failed_read (N := lan) (B := plain) alice_started
           ((noon, InSocket (ReadOK "garbage" stranger)) :: a_chat)).
  intros t e I. cbn in I.
  destruct I as [H|[H|[H|[H|[]]]]]; discriminate H.
Defined.

Lemma only_enter_sends_witness :
  p_calls (run (N := lan) alice_started
             [(noon, InKey hello_keys); (noon, InKey (key KeyEsc))]) = [] /\
  messages (p_model (run (N := lan) alice_started
              [(noon, InKey hello_keys); (noon, InKey (key KeyEsc))])) = [].
Proof.
  destruct (only_enter_sends (N := lan) (B := plain) alice_started
              [(noon, InKey hello_keys); (noon, InKey (key KeyEsc))]) as [C M].
  - intros t k I. cbn in I.
    destruct I as [H|[H|[]]]; inversion H; reflexivity.
  - split; [exact C|]. apply M. intros t r I. cbn in I.
    destruct I as [H|[H|[]]]; discriminate H.
Defined.

Lemma receive_stays_armed_witness :
  p_listening (run (N := lan) alice_started
                 ((noon, InSocket (ReadOK "garbage" stranger)) :: a_chat))
  = Some (Some port9999) /\
  forall now datagram addr packet,
    running (run (N := lan) alice_started
               ((noon, InSocket (ReadOK "garbage" stranger)) :: a_chat)) = true ->
    json.Unmarshal (take 1024 datagram) = Some packet ->
    messages (p_model (step (N := lan)
                (run (N := lan) alice_started
                   ((noon, InSocket (ReadOK "garbage" stranger)) :: a_chat))
                (now, InSocket (ReadOK datagram addr))))
    = (messages (p_model (run (N := lan) alice_started
                   ((noon, InSocket (ReadOK "garbage" stranger)) :: a_chat)))
       ++ [remote_line (B := plain) packet])%list.
Proof.
  apply (receive_stays_armed (N := lan) (B := plain) alice_started port9999
           ((noon, InSocket (ReadOK "garbage" stranger)) :: a_chat));
    [reflexivity|reflexivity|].
  intros t e I. cbn in I.
  destruct I as [H|[H|[H|[H|[]]]]]; discriminate H.
Defined.

Lemma viewport_shows_the_transcript_witness :
  viewport (p_model (run (N := lan) alice_started a_chat))
  = "12:34:56 alice: hello" ++ newline ++ "00:00:00 bob: hi".
Proof.
  apply (viewport_shows_the_transcript (N := lan) (B := plain) (fun v => v)
           (fun s => s) (fun _ _ => eq_refl) (fun _ => eq_refl) (fun _ _ => eq_refl)
           "alice" "100.64.0.2" peer port9999 a_chat eq_refl eq_refl).
Defined.

Lemma message_reaches_the_peer_witness :
  p_calls (step (N := lan) alice_hello (noon, InKey (key KeyEnter)))
  = [WriteToUDP port9999
       (payload (packet_of (B := plain) noon (p_model alice_hello) "hello"))
       (Some peer)] /\
  messages (p_model (step (N := lan) carol_started
              (noon, InSocket
                 (ReadOK (payload (packet_of (B := plain) noon (p_model alice_hello)
                                     "hello")) peer))))
  = ["12:34:56 alice: hello"].
Proof.
  apply (message_reaches_the_peer (N := lan) (B := plain) alice_hello carol_started
           noon noon (key KeyEnter) port9999 port9999 peer);
    [reflexivity|reflexivity|reflexivity|vm_compute; discriminate
    |reflexivity|reflexivity|decide_facts|reflexivity|reflexivity|].
  apply Nat.leb_le. vm_compute. reflexivity.
Defined.

Lemma oversized_message_is_lost_witness :
  messages (p_model (step (N := lan) alice_started
              (noon, InSocket (ReadOK long_datagram peer)))) = [] /\
  err (p_model (step (N := lan) alice_started
         (noon, InSocket (ReadOK long_datagram peer)))) = None /\
  p_calls (step (N := lan) alice_started
             (noon, InSocket (ReadOK long_datagram peer))) = [] /\
  running (step (N := lan) alice_started
             (noon, InSocket (ReadOK long_datagram peer))) = true.
Proof.
  apply (oversized_message_is_lost (N := lan) (B := plain) alice_started noon
           long_message long_datagram peer port9999);
    [reflexivity|reflexivity|decide_facts|vm_compute; reflexivity|].
  apply Nat.ltb_lt. vm_compute. reflexivity.
Defined.

Lemma truncated_message_does_not_decode_witness :
  json.Unmarshal (take 1024 long_datagram) = None.
Proof.
  apply (truncated_message_does_not_decode long_message long_datagram 1024);
    [decide_facts|vm_compute; reflexivity|].
  apply Nat.ltb_lt. vm_compute. reflexivity.
Defined.

Lemma encoded_size_witness :
  (String.length (Sender long_message) + String.length (Text long_message) + 58
   <= String.length long_datagram
   <= 6 * (String.length (Sender long_message) + String.length (Text long_message))
      + 73)%nat /\
  ((String.length (Sender long_message) + String.length (Text long_message) <= 158)%nat
   -> (String.length long_datagram <= 1024)%nat) /\
  ((967 <= String.length (Sender long_message) + String.length (Text long_message))%nat
   -> (1024 < String.length long_datagram)%nat).
Proof.
  apply (encoded_size long_message long_datagram). vm_compute. reflexivity.
Defined.

Lemma chat_screen_until_a_read_fails_witness :
  Forall (fun frame => exists vp ta,
            frame = render_screen (Bubbles := plain) "100.64.0.2:9999" vp ta)
    (p_frames (run (N := lan) alice_started a_chat)).
Proof.
  apply (chat_screen_until_a_read_fails (N := lan) (B := plain)
           "alice" "100.64.0.2" peer port9999 a_chat); [reflexivity|reflexivity|].
  intros t e I. cbn in I.
  destruct I as [H|[H|[H|[]]]]; discriminate H.
Defined.

Lemma invalid_bytes_are_replaced_witness :
  exists data,
    json.Marshal latin1_message = Some data /\
    json.Unmarshal data
    = Some {| Sender := "bob"; Text := "caf" ++ utf8.EncodeRune utf8.RuneError;
              Timestamp := noon |}.
Proof.
  destruct (invalid_bytes_are_replaced latin1_message) as (data & M & U & _).
  - decide_facts.
  - exists data. split; [exact M|exact U].
Defined.

Lemma sending_goes_on_after_a_read_error_witness :
  p_calls (step (N := lan)
             (run (N := lan)
                (step (N := lan) alice_hello (noon, InSocket (ReadErr closed_socket)))
                [(noon, InSocket (ReadOK bob_hi peer))])
             (noon, InKey (key KeyEnter)))
  = [WriteToUDP port9999
       (payload (packet_of (B := plain) noon (p_model alice_hello) "hello"))
       (Some peer)] /\
  messages (p_model (step (N := lan)
              (run (N := lan)
                 (step (N := lan) alice_hello (noon, InSocket (ReadErr closed_socket)))
                 [(noon, InSocket (ReadOK bob_hi peer))])
              (noon, InKey (key KeyEnter))))
  = ["12:34:56 alice: hello"] /\
  View (p_model (step (N := lan)
          (run (N := lan)
             (step (N := lan) alice_hello (noon, InSocket (ReadErr closed_socket)))
             [(noon, InSocket (ReadOK bob_hi peer))])
          (noon, InKey (key KeyEnter))))
  = "Error: use of closed network connection" ++ newline.
Proof.
  apply (sending_goes_on_after_a_read_error (N := lan) (B := plain) alice_hello
           noon noon port9999 closed_socket [(noon, InSocket (ReadOK bob_hi peer))]
           (key KeyEnter));
    [reflexivity|reflexivity|reflexivity|reflexivity|reflexivity
    |vm_compute; discriminate].
Defined.

Lemma only_an_object_is_a_message_witness :
  (exists r, json.skip_ws bob_hi = String "{" r) \/
  (String.prefix "null" (json.skip_ws bob_hi) = true /\
   bob_says "hi" = msgPacket_zero).
Proof.
  apply (only_an_object_is_a_message bob_hi (bob_says "hi")). reflexivity.
Defined.
